(** * Session assembly and scoring pipeline of the A+ practice-exam simulator

    A shallow embedding of the planner (weighted allocator, plan builder,
    normalizer), the scoring engine, the offline synthesizer and the remote
    batch generator, with the properties the specification states about
    them.

    Conventions of the embedding.
    - A JavaScript [number] that the code only uses as a whole number is a
      [Z]: whole numbers are exact in a double up to [2^53].
    - The quotients and products of the weighted allocator and of the plan
      builder are doubles: every operation is rounded to the nearest double,
      as IEEE 754 has it (module [Double]).  A value of [Math.random] and the
      quotient of the percentage are rationals ([Q]).  Where the code can
      produce a value that is not a finite number, the model has an explicit
      outcome for it.
    - A JavaScript object used as a dictionary is a [gmap string _].
    - A [throw] is an explicit outcome of the result type. *)

From Stdlib Require Import ZArith QArith Qround Qabs Qpower Lia Lqa Ascii OrderedTypeEx.
From stdpp Require Import base option list sorting gmap strings fin_maps pretty.

Local Open Scope Z_scope.

(** ** Strings as the code uses them *)
Module Text.

(** The white space of [\s] and of [trim] within ASCII. *)
Definition is_space (c : ascii) : bool :=
  let n := nat_of_ascii c in
  bool_decide (n = 32 ∨ 9 ≤ n ≤ 13)%nat.

Fixpoint trimStart (s : string) : string :=
  match s with
  | EmptyString => EmptyString
  | String c s' => if is_space c then trimStart s' else s
  end.

Fixpoint trimEnd (s : string) : string :=
  match s with
  | EmptyString => EmptyString
  | String c s' =>
      match trimEnd s' with
      | EmptyString => if is_space c then EmptyString else String c EmptyString
      | rest => String c rest
      end
  end.

(** [s.trim()] *)
Definition trim (s : string) : string := trimEnd (trimStart s).

(** [s.split(sep)[0]]: the text in front of the first separator. *)
Fixpoint split_head (sep : ascii) (s : string) : string :=
  match s with
  | EmptyString => EmptyString
  | String c s' => if Ascii.eqb c sep then EmptyString else String c (split_head sep s')
  end.

(** The double quote and the line feed, for the texts that hold one. *)
Definition dquote : string := String (ascii_of_nat 34) EmptyString.
Definition newline : string := String (ascii_of_nat 10) EmptyString.

End Text.

(** ** JavaScript numbers

    A [number] is an IEEE 754 double.  A finite double is a rational, and
    the result of a division, a product or a difference of doubles is the
    double nearest to the exact result: a multiple of the unit in the last
    of the 53 binary places, the even multiple when two are as near.  The
    range of the exponent of a double is not modelled: no quotient or
    product of this code leaves it while the whole numbers it starts from
    are below [2^53]. *)
Module Double.
Local Open Scope Q_scope.

(** The integer nearest to [r], and of two nearest integers the even one. *)
Definition nearest (r : Q) : Z :=
  let f := Qfloor r in
  match Qcompare (r - inject_Z f) (1 # 2) with
  | Lt => f
  | Gt => (f + 1)%Z
  | Eq => if Z.even f then f else (f + 1)%Z
  end.

(** The exponent [b] with [2^b <= |q| < 2^(b+1)], for [q] other than 0. *)
Definition binade (q : Q) : Z :=
  let g := (Z.log2 (Z.abs (Qnum q)) - Z.log2 (Zpos (Qden q)))%Z in
  if Qle_bool (2 ^ g) (Qabs q) then g else (g - 1)%Z.

(** The double nearest to [q]. *)
Definition round (q : Q) : Q :=
  if Qeq_bool q 0 then 0
  else
    let ulp := 2 ^ (binade q - 52) in
    inject_Z (nearest (q / ulp)) * ulp.

(** [a / b] for [b] other than 0, [a * b] and [a - b]. *)
Definition div (a b : Q) : Q := round (a / b).
Definition mul (a b : Q) : Q := round (a * b).
Definition sub (a b : Q) : Q := round (a - b).

(** A number that need not be finite. *)
Inductive number := Finite (q : Q) | NaN | Infinity (negative : bool).

(** [Math.min(a, b)] and [Math.max(a, b)]: [NaN] when either is. *)
Definition min (a b : number) : number :=
  match a, b with
  | NaN, _ | _, NaN => NaN
  | Infinity true, _ | _, Infinity true => Infinity true
  | Infinity false, y => y
  | x, Infinity false => x
  | Finite x, Finite y => Finite (if Qle_bool x y then x else y)
  end.

Definition max (a b : number) : number :=
  match a, b with
  | NaN, _ | _, NaN => NaN
  | Infinity false, _ | _, Infinity false => Infinity false
  | Infinity true, y => y
  | x, Infinity true => x
  | Finite x, Finite y => Finite (if Qle_bool x y then y else x)
  end.

(** The passes of [for (let i = 0; i < n; i++)]: one for each whole number
    [i >= 0] below [n], none when [n] is [NaN]; the loop does not end
    ([None]) when [n] is [Infinity]. *)
Definition passes (n : number) : option nat :=
  match n with
  | Finite q => Some (Z.to_nat (Qceiling q))
  | NaN => Some O
  | Infinity true => Some O
  | Infinity false => None
  end.

End Double.

(** ** objectives: the catalogue of exam objectives *)
Module Objectives.
Import Text.

(** ["220-1201" | "220-1202"] *)
Inductive CoreId := Core_220_1201 | Core_220_1202.

Definition core_name (core : CoreId) : string :=
  match core with Core_220_1201 => "220-1201" | Core_220_1202 => "220-1202" end.

Record ObjectiveMeta := {
  meta_domain : string;
  meta_title : string;
  meta_bullets : list string
}.

Definition objectiveDomainNumber (objectiveId : string) : string :=
  split_head "." objectiveId +:+ ".0".

Section Catalogue.
(** The generated catalogue [OBJECTIVES] is not part of the sources at hand:
    it is a parameter, for each core the objectives by id in the order of
    [Object.keys]. *)
Variable OBJECTIVES : CoreId → list (string * ObjectiveMeta).

Definition getObjectiveMeta (core : CoreId) (objectiveId : string) : option ObjectiveMeta :=
  (λ hit : nat * (string * ObjectiveMeta), snd (snd hit))
    <$> list_find (λ e, fst e = objectiveId) (OBJECTIVES core).

Definition listObjectiveIds (core : CoreId) : list string :=
  fst <$> OBJECTIVES core.

Definition listObjectivesByDomain (core : CoreId) (domainNumber : string) : list string :=
  filter (λ id, objectiveDomainNumber id = domainNumber) (listObjectiveIds core).
End Catalogue.

End Objectives.

(** ** examTypes *)
Module ExamTypes.
Import Objectives.

(** ["single" | "multi" | "pbq-order" | "pbq-match"] *)
Inductive QuestionType := single | multi | pbq_order | pbq_match.

#[global] Instance QuestionType_eq_dec : EqDecision QuestionType.
Proof. solve_decision. Defined.

Definition type_name (t : QuestionType) : string :=
  match t with
  | single => "single" | multi => "multi"
  | pbq_order => "pbq-order" | pbq_match => "pbq-match"
  end.

Inductive Difficulty := easy | medium | hard.

Definition difficulty_name (d : Difficulty) : string :=
  match d with easy => "easy" | medium => "medium" | hard => "hard" end.

(** [pbqCount] is a number the setup screen keeps between 0 and 12 and does
    not round. *)
Record SessionConfig := {
  pbqCount : Double.number;
  showObjectiveHints : bool;
  difficulty : Difficulty
}.

(** [{ id: string; text: string }] *)
Record Entry := { e_id : string; e_text : string }.

Inductive PBQ :=
  | PbqOrder (items : list Entry)
  | PbqMatch (leftLabel rightLabel : string) (left right : list Entry).

Record Question := {
  q_id : string;
  q_core : CoreId;
  q_domain : string;
  q_objective : string;
  q_objectiveTitle : string;
  q_objectiveBullets : list string;
  q_focus : option string;
  q_type : QuestionType;
  q_prompt : string;
  q_options : option (list Entry);
  q_correct : list string;
  q_explanation : string;
  q_pbq : option PBQ
}.

Record ExamSession := {
  sessionId : string;
  core : CoreId;
  durationSeconds : Z;
  config : SessionConfig;
  questions : list Question
}.

End ExamTypes.

(** ** [Math.random]

    The value of the [k]-th call of [Math.random ()] is [source k].  A
    computation that draws random numbers passes the number of calls made so
    far along.  It has no result ([None]) where the code would index an array
    outside of its bounds, which a value of [Math.random] in [0, 1) never
    does. *)
Module Random.

Definition Rnd (A : Type) : Type := (nat → Q) → nat → option (A * nat).

Definition ret {A : Type} (a : A) : Rnd A := λ _ k, Some (a, k).

Definition bind {A B : Type} (m : Rnd A) (f : A → Rnd B) : Rnd B :=
  λ source k, match m source k with
              | Some (a, k') => f a source k'
              | None => None
              end.

Definition out_of_bounds {A : Type} : Rnd A := λ _ _, None.

Definition random : Rnd Q := λ source k, Some (source k, S k).

(** [Math.floor(Math.random() * n)] *)
Definition randomBelow (n : nat) : Rnd nat :=
  bind random (λ r, ret (Z.to_nat (Qfloor (r * inject_Z (Z.of_nat n))))).

End Random.

(** ** sessionPlanner: blueprints and the weighted allocator *)
Module Planner.
Import Text Objectives ExamTypes.

Definition EXAM_QUESTION_COUNT : Z := 90.

Record DomainBlueprint := {
  domainNumber : string;
  domainLabel : string;
  weight : Z
}.

Definition CORE1_BLUEPRINT : list DomainBlueprint := [
  {| domainNumber := "1.0"; domainLabel := "Mobile Devices"; weight := 13 |};
  {| domainNumber := "2.0"; domainLabel := "Networking"; weight := 23 |};
  {| domainNumber := "3.0"; domainLabel := "Hardware"; weight := 25 |};
  {| domainNumber := "4.0"; domainLabel := "Virtualization and Cloud Computing"; weight := 11 |};
  {| domainNumber := "5.0"; domainLabel := "Hardware and Network Troubleshooting"; weight := 28 |}
].

Definition CORE2_BLUEPRINT : list DomainBlueprint := [
  {| domainNumber := "1.0"; domainLabel := "Operating Systems"; weight := 28 |};
  {| domainNumber := "2.0"; domainLabel := "Security"; weight := 28 |};
  {| domainNumber := "3.0"; domainLabel := "Software Troubleshooting"; weight := 23 |};
  {| domainNumber := "4.0"; domainLabel := "Operational Procedures"; weight := 21 |}
].

(** The elements of [raw]: [{ key, exact, floor }]. *)
Record RawShare := {
  key : string;
  exact : Q;
  floor : Z
}.

(** The elements of [byRemainder]: [{ ...r, rem }]. *)
Record RankedShare := {
  r_key : string;
  r_exact : Q;
  r_floor : Z;
  rem : Q
}.

(** [Array.prototype.sort] with a comparator: the sort is stable, and [a]
    stays in front of [b] when [cmp a b <= 0].  Insertion from the right end
    of the array keeps an element in front of the later elements it does not
    have to follow. *)
Fixpoint sort_insert {A : Type} (cmp : A → A → Q) (x : A) (l : list A) : list A :=
  match l with
  | [] => [x]
  | y :: l' =>
      if Qle_bool (cmp x y) 0 then x :: y :: l'
      else y :: sort_insert cmp x l'
  end.

Definition Array_sort {A : Type} (cmp : A → A → Q) (l : list A) : list A :=
  foldr (sort_insert cmp) [] l.

(** What a call of [allocateByWeight] can do. *)
Inductive alloc_result :=
  | Returned (counts : gmap string Z)
      (** the [counts] record, every entry a finite integer *)
  | ReturnedNonFinite
      (** a record is returned whose entries are [NaN] or infinite: the
          weights of a non-empty blueprint sum to zero, every [d.weight / sum]
          is a division by zero, [used] and [remaining] are [NaN] and the
          distribution loop does not run *)
  | ThrewTypeError
      (** [byRemainder[i % byRemainder.length]] is [undefined] and reading its
          [key] throws *).

(** [{ key, exact: (d.weight / sum) * total, floor: Math.floor(...) }] *)
Definition mkRaw (sum total : Z) (d : DomainBlueprint) : RawShare :=
  let share := Double.mul (Double.div (inject_Z (weight d)) (inject_Z sum)) (inject_Z total) in
  {| key := domainNumber d; exact := share; floor := Qfloor share |}.

(** [{ ...r, rem: r.exact - r.floor }] *)
Definition withRem (r : RawShare) : RankedShare :=
  {| r_key := key r; r_exact := exact r; r_floor := floor r;
     rem := Double.sub (exact r) (inject_Z (floor r)) |}.

(** [(a, b) => b.rem - a.rem] *)
Definition byRem (a b : RankedShare) : Q := Double.sub (rem b) (rem a).

(** [counts[r.key] = r.floor] *)
Definition store (counts : gmap string Z) (r : RawShare) : gmap string Z :=
  <[key r := floor r]> counts.

(** [counts[r.key] += 1].  Every key of [byRemainder] was stored in [counts]
    before, so [+= 1] always finds a number. *)
Definition bump (counts : gmap string Z) (r : RankedShare) : gmap string Z :=
  alter (λ c, c + 1) (r_key r) counts.

(** [for (let i = 0; i < remaining; i++) counts[byRemainder[i % byRemainder.length].key] += 1]
    with [n] iterations left. *)
Fixpoint distribute (byRemainder : list RankedShare) (n : nat) (i : nat)
    (counts : gmap string Z) : option (gmap string Z) :=
  match n with
  | O => Some counts
  | S n' =>
      match byRemainder !! Nat.modulo i (length byRemainder) with
      | None => None
      | Some r => distribute byRemainder n' (S i) (bump counts r)
      end
  end.

Definition allocateByWeight (total : Z) (blueprint : list DomainBlueprint) : alloc_result :=
  let sum := foldl (λ s d, s + weight d) 0 blueprint in
  if decide (sum = 0 ∧ blueprint ≠ []) then ReturnedNonFinite else
  let raw := map (mkRaw sum total) blueprint in
  let used := foldl (λ s r, s + floor r) 0 raw in
  let remaining := total - used in
  let byRemainder := Array_sort byRem (map withRem raw) in
  let counts := foldl store (∅ : gmap string Z) raw in
  match distribute byRemainder (Z.to_nat remaining) 0 counts with
  | Some counts' => Returned counts'
  | None => ThrewTypeError
  end.

(** The sum of the entries of a [counts] record. *)
Definition sum_counts (counts : gmap string Z) : Z :=
  map_fold (λ _ c s, s + c) 0 counts.

(** The specification's words: the ideal share of a key is
    [T * weight / sum-of-weights]; its floor and its fractional remainder,
    the latter as the numerator over the common denominator [sum]. *)
Definition total_weight (blueprint : list DomainBlueprint) : Z :=
  foldr (λ d s, weight d + s) 0 blueprint.



(** *** The plan builder *)

Record QuestionPlanItem := {
  p_domainNumber : string;
  p_domainLabel : string;
  p_objectiveId : string;
  p_objectiveTitle : string;
  p_objectiveBullets : list string;
  p_type : QuestionType
}.

(** [{ ...p, type: t }] *)
Definition with_type (p : QuestionPlanItem) (t : QuestionType) : QuestionPlanItem :=
  {| p_domainNumber := p_domainNumber p;
     p_domainLabel := p_domainLabel p;
     p_objectiveId := p_objectiveId p;
     p_objectiveTitle := p_objectiveTitle p;
     p_objectiveBullets := p_objectiveBullets p;
     p_type := t |}.

(** [arr[Math.floor(Math.random() * arr.length)]] *)
Definition pickOne {T : Type} (arr : list T) : Random.Rnd T :=
  Random.bind (Random.randomBelow (length arr)) (λ i,
  match arr !! i with
  | Some x => Random.ret x
  | None => Random.out_of_bounds
  end).

Section BuildPlan.
Variable OBJECTIVES : CoreId → list (string * ObjectiveMeta).

(** The body of the inner loop: one plan item of the domain [d]. *)
Definition planItem (core : CoreId) (d : DomainBlueprint) (objectiveIds : list string)
    : Random.Rnd QuestionPlanItem :=
  Random.bind
    (match objectiveIds with
     | [] => Random.ret (split_head "." (domainNumber d) +:+ ".1")
     | _ => pickOne objectiveIds
     end) (λ objId,
  let meta := getObjectiveMeta OBJECTIVES core objId in
  Random.ret
    {| p_domainNumber := domainNumber d;
       p_domainLabel := domainLabel d;
       p_objectiveId := objId;
       p_objectiveTitle := from_option meta_title ("Objective " +:+ objId) meta;
       p_objectiveBullets := from_option meta_bullets [] meta;
       p_type := single |}).

(** [for (let i = 0; i < count; i++) plan.push(...)] *)
Fixpoint planDomain (core : CoreId) (d : DomainBlueprint) (objectiveIds : list string)
    (count : nat) (plan : list QuestionPlanItem) : Random.Rnd (list QuestionPlanItem) :=
  match count with
  | O => Random.ret plan
  | S count' =>
      Random.bind (planItem core d objectiveIds) (λ p,
      planDomain core d objectiveIds count' (plan ++ [p]))
  end.

(** [for (const d of blueprint) ...] *)
Fixpoint planDomains (core : CoreId) (allocation : gmap string Z)
    (blueprint : list DomainBlueprint) (plan : list QuestionPlanItem)
    : Random.Rnd (list QuestionPlanItem) :=
  match blueprint with
  | [] => Random.ret plan
  | d :: rest =>
      let count := default 0 (allocation !! domainNumber d) in
      let objectiveIds := listObjectivesByDomain OBJECTIVES core (domainNumber d) in
      Random.bind (planDomain core d objectiveIds (Z.to_nat count) plan) (λ plan',
      planDomains core allocation rest plan')
  end.

(** Inject PBQs: [pbqCount] times, a random slot gets a PBQ type. *)
Fixpoint injectPBQs (n : nat) (plan : list QuestionPlanItem)
    : Random.Rnd (list QuestionPlanItem) :=
  match n with
  | O => Random.ret plan
  | S n' =>
      Random.bind (Random.randomBelow (length plan)) (λ idx,
      Random.bind Random.random (λ r,
      match plan !! idx with
      | None => Random.out_of_bounds
      | Some p =>
          let t := if Qle_bool (1 # 2) r then pbq_match else pbq_order in
          injectPBQs n' (<[idx := with_type p t]> plan)
      end))
  end.

(** Sprinkle some multi-selects: [multiCount] times, a random slot that is
    still [single] becomes [multi]. *)
Fixpoint sprinkleMulti (n : nat) (plan : list QuestionPlanItem)
    : Random.Rnd (list QuestionPlanItem) :=
  match n with
  | O => Random.ret plan
  | S n' =>
      Random.bind (Random.randomBelow (length plan)) (λ idx,
      match plan !! idx with
      | None => Random.out_of_bounds
      | Some p =>
          sprinkleMulti n'
            (if decide (p_type p = single) then <[idx := with_type p multi]> plan else plan)
      end)
  end.

(** Both blueprints have a positive weight sum, so the allocator returns its
    record; the other outcomes are not reached. *)
Definition buildPlan (core : CoreId) (config : SessionConfig)
    : Random.Rnd (list QuestionPlanItem) :=
  let blueprint :=
    match core with Core_220_1201 => CORE1_BLUEPRINT | Core_220_1202 => CORE2_BLUEPRINT end in
  match allocateByWeight EXAM_QUESTION_COUNT blueprint with
  | Returned allocation =>
      Random.bind (planDomains core allocation blueprint []) (λ plan,
      let pbqCount :=
        Double.max (Double.Finite 0) (Double.min (pbqCount config) (Double.Finite 12)) in
      match Double.passes pbqCount with
      | None => Random.out_of_bounds
      | Some passes =>
          Random.bind (injectPBQs passes plan) (λ plan,
          let multiCount :=
            Z.min 10 (Qfloor (Double.mul (inject_Z (Z.of_nat (length plan)))
                                         (Double.round (12 # 100)))) in
          Random.bind (sprinkleMulti (Z.to_nat multiCount) plan) (λ plan,
          Random.ret (take (Z.to_nat EXAM_QUESTION_COUNT) plan)))
      end)
  | _ => Random.out_of_bounds
  end.
End BuildPlan.

(** *** The normalizer *)

(** An item as a generator returns it.  The common fields are strings; a
    type-specific field may be missing ([None]); an index is any integer. *)
Record RawItem := {
  it_type : string;
  it_domain : string;
  it_objectiveId : string;
  it_objectiveTitle : string;
  it_objectiveBullets : list string;
  it_prompt : string;
  it_explanation : string;
  it_options : option (list string);
  it_correctIndices : option (list Z);
  it_orderItems : option (list string);
  it_correctOrder : option (list Z);
  it_left : option (list string);
  it_right : option (list string);
  it_leftLabel : string;
  it_rightLabel : string;
  it_correctPairs : option (list (Z * Z))
}.

(** [arr[i]] for a number [i]: [undefined] outside of the array. *)
Definition at_index {A : Type} (arr : list A) (i : Z) : option A :=
  if decide (0 ≤ i) then arr !! Z.to_nat i else None.

(** [String(s || d)] for a string [s]: the empty string is falsy. *)
Definition or_else (s d : string) : string :=
  if decide (s = "") then d else s.

(** [arr.map((t, i) => ({ id: `${tag}${i + 1}`, text: String(t) }))] *)
Definition entries (tag : string) (arr : list string) : list Entry :=
  imap (λ i t, {| e_id := tag +:+ pretty (S i); e_text := t |}) arr.

(** [`${e?.text}`]: the text, or ["undefined"] for a missing entry. *)
Definition text_or_undefined (e : option Entry) : string :=
  from_option e_text "undefined" e.

Section Normalize.
(** [[...baseItems].sort(() => Math.random() - 0.5)]: the order a sort with
    a random comparator leaves the steps in is a parameter. *)
Variable display_order : list Entry → list Entry.

Definition normalizeItem (core : CoreId) (sessionId : string) (seq : nat) (it : RawItem)
    : option Question :=
  let id := sessionId +:+ "-q-" +:+ pretty seq in
  let objective := it_objectiveId it in
  let objectiveTitle := or_else (it_objectiveTitle it) ("Objective " +:+ objective) in
  let objectiveBullets := it_objectiveBullets it in
  let domain := or_else (it_domain it) (split_head "." objective +:+ ".0") in
  let prompt := it_prompt it in
  let explanation := or_else (it_explanation it) "Review the objective and rationale." in
  let question (type : QuestionType) (options : option (list Entry))
               (correct : list string) (pbq : option PBQ) :=
    {| q_id := id; q_core := core; q_domain := domain; q_objective := objective;
       q_objectiveTitle := objectiveTitle; q_objectiveBullets := objectiveBullets;
       q_focus := None; q_type := type; q_prompt := prompt; q_options := options;
       q_correct := correct; q_explanation := explanation; q_pbq := pbq |} in
  if decide (it_type it = "single" ∨ it_type it = "multi") then
    let options := entries "o" (default [] (it_options it)) in
    let correctIdx := default [] (it_correctIndices it) in
    let correct := omap (λ i, e_id <$> at_index options i) correctIdx in
    Some (question (if decide (it_type it = "single") then single else multi)
                   (Some options) correct None)
  else if decide (it_type it = "pbq-order") then
    let baseItems := entries "s" (default [] (it_orderItems it)) in
    let shuffled := display_order baseItems in
    let orderIdx := default [] (it_correctOrder it) in
    let correct :=
      filter (λ t, t ≠ "") (omap (λ i, e_text <$> at_index baseItems i) orderIdx) in
    Some (question pbq_order None correct (Some (PbqOrder shuffled)))
  else if decide (it_type it = "pbq-match") then
    let left := entries "l" (default [] (it_left it)) in
    let right := entries "r" (default [] (it_right it)) in
    let pairs := default [] (it_correctPairs it) in
    let correct :=
      filter (λ x, String.prefix "undefined" x = false)
        (map (λ p : Z * Z,
                text_or_undefined (at_index left (fst p)) +:+ "=>"
                +:+ text_or_undefined (at_index right (snd p))) pairs) in
    Some (question pbq_match None correct
            (Some (PbqMatch (or_else (it_leftLabel it) "Left")
                            (or_else (it_rightLabel it) "Right") left right)))
  else None.

(** [for (const it of items) { seq += 1; ... }] *)
Fixpoint normalizeFrom (core : CoreId) (sessionId : string) (seq : nat)
    (items : list RawItem) : list Question :=
  match items with
  | [] => []
  | it :: rest =>
      match normalizeItem core sessionId (S seq) it with
      | Some q => q :: normalizeFrom core sessionId (S seq) rest
      | None => normalizeFrom core sessionId (S seq) rest
      end
  end.

Definition normalizeQuestions (core : CoreId) (sessionId : string) (items : list RawItem)
    : list Question :=
  normalizeFrom core sessionId 0 items.
End Normalize.

End Planner.

(** ** scoring *)
Module Scoring.
Import Objectives ExamTypes.

(** The order of the default [Array.prototype.sort] on strings: by code
    units, a proper prefix first. *)
Definition string_le (a b : string) : Prop := String.leb a b = true.

#[global] Instance string_le_dec (a b : string) : Decision (string_le a b).
Proof. unfold string_le. apply _. Defined.

(** [[...a].sort()] *)
Definition sorted (a : list string) : list string := merge_sort string_le a.

(** [a.every((v, i) => v === b[i])] *)
Definition every_same (a b : list string) : bool :=
  forallb (λ x : bool, x) (imap (λ i v, bool_decide (b !! i = Some v)) a).

Definition setEq (a b : list string) : bool :=
  if decide (length a ≠ length b) then false
  else
    let sa := sorted a in
    let sb := sorted b in
    every_same sa sb.

(** [Record<string, string[] | undefined>] *)
Abbreviation AnswerMap := (gmap string (list string)).

(** An entry of [pbqState]: the fields [order] and [pairs], either of which
    may be missing. *)
Record PbqAnswer := {
  order : option (list string);
  pairs : option (list string)
}.

Record ScoredQuestion := { questionId : string; isCorrect : bool }.

(** A JavaScript number that may fail to be finite. *)
Inductive number := Finite (q : Q) | NaN | Infinity.

(** [a / b] for integers [a >= 0] and [b >= 0]. *)
Definition divide (a b : Z) : number :=
  if decide (b = 0) then (if decide (a = 0) then NaN else Infinity)
  else Finite (inject_Z a / inject_Z b)%Q.

(** [Math.round(x * 1000) / 10] *)
Definition round_to_tenth (x : number) : number :=
  match x with
  | Finite q => Finite (inject_Z (Qfloor (q * 1000 + (1 # 2))) / 10)%Q
  | NaN => NaN
  | Infinity => Infinity
  end.

Record DomainScore := { ds_domain : string; ds_correct : Z; ds_total : Z }.

Record ExamResult := {
  percent : number;
  correctCount : Z;
  total : Z;
  byDomain : list DomainScore;
  scored : list ScoredQuestion
}.

(** [pbqState?.[id]] *)
Definition pbq_answer (pbqState : option (gmap string PbqAnswer)) (id : string)
    : option PbqAnswer :=
  match pbqState with
  | Some st => st !! id
  | None => None
  end.

(** [pbqState?.[id]?.order] and [pbqState?.[id]?.pairs] *)
Definition submitted_order (pbqState : option (gmap string PbqAnswer)) (id : string)
    : option (list string) :=
  match pbq_answer pbqState id with Some a => order a | None => None end.

Definition submitted_pairs (pbqState : option (gmap string PbqAnswer)) (id : string)
    : option (list string) :=
  match pbq_answer pbqState id with Some a => pairs a | None => None end.

(** The body of the loop that sets [ok]. *)
Definition judge (q : Question) (answers : AnswerMap)
    (pbqState : option (gmap string PbqAnswer)) : bool :=
  match q_type q with
  | pbq_order =>
      match submitted_order pbqState (q_id q) with
      | Some order =>
          bool_decide (length order = length (q_correct q))
          && every_same order (q_correct q)
      | None => false
      end
  | pbq_match =>
      match submitted_pairs pbqState (q_id q) with
      | Some pairs => setEq pairs (q_correct q)
      | None => false
      end
  | _ =>
      let a := default [] (answers !! q_id q) in
      setEq a (q_correct q)
  end.

(** The state of the loop: [correctCount], [scored] and [domainAgg] (an
    entry is the pair of [correct] and [total]). *)
Record Tally := {
  t_correctCount : Z;
  t_scored : list ScoredQuestion;
  t_domainAgg : gmap string (Z * Z)
}.

Definition step (answers : AnswerMap) (pbqState : option (gmap string PbqAnswer))
    (t : Tally) (q : Question) : Tally :=
  let agg := default (0, 0) (t_domainAgg t !! q_domain q) in
  let ok := judge q answers pbqState in
  {| t_correctCount := if ok then t_correctCount t + 1 else t_correctCount t;
     t_scored := t_scored t ++ [ {| questionId := q_id q; isCorrect := ok |} ];
     t_domainAgg :=
       <[q_domain q := (if ok then fst agg + 1 else fst agg, snd agg + 1)]> (t_domainAgg t) |}.

(** The order of [Object.entries] is not modelled: [byDomain] lists the
    entries of [domainAgg] in the order of [map_to_list]. *)
Definition scoreExam (session : ExamSession) (answers : AnswerMap)
    (pbqState : option (gmap string PbqAnswer)) : ExamResult :=
  let t := foldl (step answers pbqState)
             {| t_correctCount := 0; t_scored := []; t_domainAgg := ∅ |}
             (questions session) in
  let total := Z.of_nat (length (questions session)) in
  let percent := round_to_tenth (divide (t_correctCount t) total) in
  {| percent := percent;
     correctCount := t_correctCount t;
     total := total;
     byDomain :=
       (λ e : string * (Z * Z),
          {| ds_domain := fst e; ds_correct := fst (snd e); ds_total := snd (snd e) |})
       <$> map_to_list (t_domainAgg t);
     scored := t_scored t |}.

End Scoring.

(** ** App: running a generation to a session *)
Module App.
Import Objectives ExamTypes Planner.

Record GenerationPersisted := {
  g_sessionId : string;
  g_core : CoreId;
  g_config : SessionConfig;
  g_plan : list QuestionPlanItem;
  g_rawItems : list RawItem;
  g_nextIndex : nat;
  g_batchSize : nat;
  g_lastError : option string
}.

Record GenerateRequest := {
  req_core : CoreId;
  req_items : list QuestionPlanItem;
  req_difficulty : Difficulty;
  req_generationId : string;
  req_batchIndex : nat
}.

(** What awaiting [generateQuestions] gives: the items, or a rejection with
    the [name] and the [message] of the error. *)
Inductive generated :=
  | Items (out : list RawItem)
  | Rejected (name message : string).

(** How [runGeneration] ends: the session is started and the generation
    state cleared, or the state is saved with [lastError] and the setup
    screen shown, with an alert unless the run was aborted. *)
Inductive run_outcome :=
  | Started (session : ExamSession)
  | Paused (saved : GenerationPersisted) (alerted : bool).

(** How the batch loop ends. *)
Inductive loop_outcome :=
  | Collected (items : list RawItem) (nextIndex : nat)
  | Thrown (items : list RawItem) (nextIndex : nat) (name message : string).

Definition saved_with (g : GenerationPersisted) (items : list RawItem)
    (nextIndex : nat) (lastError : option string) : GenerationPersisted :=
  {| g_sessionId := g_sessionId g; g_core := g_core g; g_config := g_config g;
     g_plan := g_plan g; g_rawItems := items; g_nextIndex := nextIndex;
     g_batchSize := g_batchSize g; g_lastError := lastError |}.

(** The [catch] block: the message is ["Paused."] for an abort, else
    [e.message || String(e)]. *)
Definition pause (g : GenerationPersisted) (items : list RawItem) (nextIndex : nat)
    (name message : string) : run_outcome :=
  let aborted := bool_decide (name = "AbortError") in
  let msg :=
    if aborted then "Paused."
    else if decide (message = "") then name else message in
  Paused (saved_with g items nextIndex (Some msg)) (negb aborted).

Section RunGeneration.
(** The backend behind [generateQuestions] and the display order the
    normalizer shuffles PBQ steps into are parameters. *)
Variable generateQuestions : GenerateRequest → generated.
Variable display_order : list Entry → list Entry.

(** [for (let i = g.nextIndex; i < plan.length; i += batchSize) ...], with
    [fuel] bounding the number of batches. *)
Fixpoint collect (fuel : nat) (g : GenerationPersisted) (i : nat)
    (items : list RawItem) (nextIndex : nat) : option loop_outcome :=
  if decide (i < length (g_plan g))%nat then
    match fuel with
    | O => None
    | S fuel' =>
        let batchSize := g_batchSize g in
        let chunk := take batchSize (drop i (g_plan g)) in
        match generateQuestions
                {| req_core := g_core g; req_items := chunk;
                   req_difficulty := difficulty (g_config g);
                   req_generationId := g_sessionId g;
                   req_batchIndex := Nat.div i batchSize |} with
        | Items out =>
            collect fuel' g (i + batchSize) (items ++ out)
              (Nat.min (i + batchSize) (length (g_plan g)))
        | Rejected name message => Some (Thrown items nextIndex name message)
        end
    end
  else Some (Collected items nextIndex).

(** The statements after the loop: normalize, cut to the session length,
    check the length, build the session. *)
Definition assemble (g : GenerationPersisted) (items : list RawItem) (nextIndex : nat)
    : run_outcome :=
  let normalized :=
    take (Z.to_nat EXAM_QUESTION_COUNT)
      (normalizeQuestions display_order (g_core g) (g_sessionId g) items) in
  if decide (Z.of_nat (length normalized) ≠ EXAM_QUESTION_COUNT) then
    pause g items nextIndex "Error"
      ("Generator returned " +:+ pretty (length normalized)
       +:+ " questions; expected " +:+ pretty EXAM_QUESTION_COUNT +:+ ".")
  else
    Started {| sessionId := g_sessionId g; core := g_core g;
               durationSeconds := 90 * 60; config := g_config g;
               questions := normalized |}.

(** [None]: the loop does not end within the fuel, which takes a batch size
    of zero. *)
Definition runGeneration (g : GenerationPersisted) : option run_outcome :=
  match collect (S (length (g_plan g))) g (g_nextIndex g) (g_rawItems g) (g_nextIndex g) with
  | None => None
  | Some (Collected items nextIndex) => Some (assemble g items nextIndex)
  | Some (Thrown items nextIndex name message) => Some (pause g items nextIndex name message)
  end.
End RunGeneration.

End App.

(** ** generate: the remote batch generator *)
Module Generate.
Import Text ExamTypes.

(** A value as [JSON.parse] builds it.  The keys of an object are distinct;
    [lookup] reads a property. *)
#[warnings="-register-all"]
Inductive json :=
  | JNull
  | JBool (b : bool)
  | JNumber (q : Q)
  | JString (s : string)
  | JArray (elements : list json)
  | JObject (properties : list (string * json)).

Record PlanItem := {
  domainNumber : string;
  domainLabel : string;
  objectiveId : string;
  objectiveTitle : string;
  objectiveBullets : list string;
  type : QuestionType
}.

(** [q[k]] for a property name [k] that is no array index: [undefined]
    ([None]) on anything but an object that has the property. *)
Fixpoint assoc (k : string) (properties : list (string * json)) : option json :=
  match properties with
  | [] => None
  | (k', v) :: rest => if decide (k' = k) then Some v else assoc k rest
  end.

Definition property (v : json) (k : string) : option json :=
  match v with
  | JObject properties => assoc k properties
  | _ => None
  end.

(** [Array.isArray(v) ? v.length : fails] as an option. *)
Definition array_length (v : option json) : option nat :=
  match v with
  | Some (JArray elements) => Some (length elements)
  | _ => None
  end.

(** [typeof v === "string" ? v : nothing] *)
Definition string_value (v : option json) : option string :=
  match v with
  | Some (JString s) => Some s
  | _ => None
  end.

(** [!Array.isArray(v) || v.length < lo] *)
Definition not_array_of_at_least (v : option json) (lo : nat) : bool :=
  match array_length v with
  | Some n => negb (bool_decide (lo ≤ n)%nat)
  | None => true
  end.

(** [!Array.isArray(v) || v.length < lo || v.length > hi] *)
Definition not_array_within (v : option json) (lo hi : nat) : bool :=
  match array_length v with
  | Some n => negb (bool_decide (lo ≤ n ≤ hi)%nat)
  | None => true
  end.

(** The result of a block that may [throw new Error(message)]. *)
Inductive checked (A : Type) :=
  | Passed (a : A)
  | Failed (message : string).
Arguments Passed {A} a.
Arguments Failed {A} message.

(** What [extractJsonObject] does: it returns the parsed value, throws its
    own [Error], or lets the [SyntaxError] of [JSON.parse] through. *)
Inductive extracted :=
  | Parsed (obj : json)
  | NoObject
  | SyntaxError (message : string).

(** The result of the [try] block of an attempt: the validated items, or
    the text kept in [lastErr]. *)
Inductive attempt_result :=
  | Valid (itemsOut : list json)
  | Invalid (lastErr : string).

Definition reqBase : list string :=
  ["type"; "domain"; "objectiveId"; "objectiveTitle"; "objectiveBullets"; "prompt";
   "explanation"].

(** The body of the loop of [validateBatch] over one item [q]. *)
Definition validateItem (q : json) : checked unit :=
  match q with
  | JNull | JBool _ | JNumber _ | JString _ => Failed "Each item must be an object."
  | JArray _ | JObject _ =>
      match list_find (λ k, ¬ is_Some (property q k)) reqBase with
      | Some (_, k) => Failed ("Missing required field '" +:+ k +:+ "'.")
      | None =>
          let type := string_value (property q "type") in
          if negb (bool_decide (type ∈ [Some "single"; Some "multi";
                                        Some "pbq-order"; Some "pbq-match"]))
          then Failed "Invalid type."
          else if negb (bool_decide (is_Some (array_length (property q "objectiveBullets"))))
          then Failed "objectiveBullets must be an array of strings."
          else if bool_decide (type = Some "single" ∨ type = Some "multi") then
            if not_array_within (property q "options") 4 6
            then Failed "options must be 4..6 strings."
            else if not_array_within (property q "correctIndices") 1 3
            then Failed "correctIndices must be 1..3 integers."
            else Passed ()
          else if bool_decide (type = Some "pbq-order") then
            if not_array_within (property q "orderItems") 4 8
            then Failed "orderItems must be 4..8 strings."
            else if negb (bool_decide (is_Some (array_length (property q "correctOrder"))
                                       ∧ array_length (property q "correctOrder")
                                         = array_length (property q "orderItems")))
            then Failed "correctOrder length must match orderItems length."
            else Passed ()
          else
            if not_array_within (property q "left") 3 8
            then Failed "left must be 3..8 strings."
            else if not_array_within (property q "right") 3 8
            then Failed "right must be 3..8 strings."
            else if not_array_of_at_least (property q "correctPairs") 1
            then Failed "correctPairs must be a non-empty array."
            else Passed ()
      end
  end.

(** [for (const q of obj.items) ...]: the first item that fails ends the
    loop. *)
Fixpoint validateItems (qs : list json) : checked unit :=
  match qs with
  | [] => Passed ()
  | q :: rest =>
      match validateItem q with
      | Passed _ => validateItems rest
      | Failed message => Failed message
      end
  end.

(** [validateBatch], closed over the number [expected] of requested items. *)
Definition validateBatch (expected : nat) (obj : json) : checked (list json) :=
  match obj with
  | JObject properties =>
      if negb (bool_decide (fst <$> properties = ["items"]))
      then Failed "Top-level must contain only 'items'."
      else
        match assoc "items" properties with
        | Some (JArray items) =>
            if negb (bool_decide (length items = expected))
            then Failed ("'items' length " +:+ pretty (length items)
                         +:+ " !== expected " +:+ pretty expected +:+ ".")
            else
              match validateItems items with
              | Passed _ => Passed items
              | Failed message => Failed message
              end
        | _ => Failed "'items' must be an array."
        end
  | _ => Failed "Top-level JSON must be an object."
  end.

(** The position of the first and of the last occurrence of a character. *)
Fixpoint index_of (c : ascii) (s : string) : option nat :=
  match s with
  | EmptyString => None
  | String c' s' => if Ascii.eqb c' c then Some 0%nat else S <$> index_of c s'
  end.

Fixpoint last_index_of (c : ascii) (s : string) : option nat :=
  match s with
  | EmptyString => None
  | String c' s' =>
      match last_index_of c s' with
      | Some i => Some (S i)
      | None => if Ascii.eqb c' c then Some 0%nat else None
      end
  end.

(** [lines.join("\n")] *)
Definition join_lines (lines : list string) : string :=
  match lines with
  | [] => EmptyString
  | l :: rest => foldl (λ acc x, acc +:+ newline +:+ x) l rest
  end.

Definition contract (n : nat) : string :=
  join_lines [
    "Return STRICT JSON (no markdown, no code fences).";
    "Top-level must be: {" +:+ dquote +:+ "items" +:+ dquote +:+ ": [...]}";
    "items must have exactly " +:+ pretty n +:+ " elements.";
    "Each item MUST include:";
    "- type: one of 'single' | 'multi' | 'pbq-order' | 'pbq-match'";
    "- domain: string (e.g., '1.0 Mobile Devices')";
    "- objectiveId: string (e.g., '1.1')";
    "- objectiveTitle: string";
    "- objectiveBullets: string[]";
    "- prompt: string";
    "- explanation: string";
    "";
    "Type-specific fields:";
    "- single/multi: options: string[4..6], correctIndices: int[1..3] (0-based, within options length)";
    "- pbq-order: orderItems: string[4..8], correctOrder: int[] (0-based permutation same length as orderItems)";
    "- pbq-match: left: string[3..8], right: string[3..8], correctPairs: {leftIndex:int,rightIndex:int}[]";
    "";
    "Do not include any additional top-level keys besides 'items'."
  ].

Definition baseSystem (n : nat) : list string := [
  "You are a CompTIA A+ (220-1201 / 220-1202) item writer.";
  "Write ORIGINAL practice questions aligned to the provided objective. Do NOT reproduce copyrighted exam content.";
  "Keep prompts concise and realistic (help-desk / technician scenarios).";
  "Difficulty rules:";
  "- easy: straightforward, minimal ambiguity; distractors clearly wrong; no tricky wording.";
  "- medium: exam-like; moderate scenario detail; plausible distractors; one clear best answer.";
  "- hard: deeper reasoning within the objective; closer distractors; multi-step scenarios; avoid trick questions.";
  "";
  "Output format requirements:";
  contract n
].

(** An element of [userPayload.items]. *)
Record PayloadItem := {
  pl_type : QuestionType;
  pl_domain : string;
  pl_objectiveId : string;
  pl_objectiveTitle : string;
  pl_objectiveBullets : list string
}.

Definition payloadItem (it : PlanItem) : PayloadItem :=
  {| pl_type := type it;
     pl_domain := trim (domainNumber it +:+ " " +:+ domainLabel it);
     pl_objectiveId := objectiveId it;
     pl_objectiveTitle := objectiveTitle it;
     pl_objectiveBullets := objectiveBullets it |}.

(** The body of a request: the model, the system text, and the user
    payload (its [purpose] is a constant). *)
Record Body := {
  b_model : string;
  b_system : string;
  b_difficulty : Difficulty;
  b_items : list PayloadItem
}.

(** What [fetch] and [resp.json()] give. *)
Inductive response :=
  | NotOk (status : Z) (errText statusText : string)
  | Unparsable (message : string)
  | Data (data : json).

Inductive outcome :=
  | Returns (itemsOut : list json)
  | Throws (message : string)
  | ThrowsTypeError.

(** [typeof c.text === "string"] with [c?.type === "output_text"]: the text
    of a content part, if it is one. *)
Definition output_text_of (c : json) : option string :=
  match property c "type", property c "text" with
  | Some (JString "output_text"), Some (JString t) => Some t
  | _, _ => None
  end.

(** The inner loops that append to [text]. *)
Definition content_text (o : json) : string :=
  match property o "content" with
  | Some (JArray content) =>
      foldl (λ text c, match output_text_of c with
                       | Some t => text +:+ t
                       | None => text
                       end) EmptyString content
  | _ => EmptyString
  end.

(** The text of a response; reading a property of [null] throws. *)
Definition response_text (data : json) : option string :=
  match data with
  | JNull => None
  | _ =>
      match property data "output_text" with
      | Some (JString t) => Some t
      | _ =>
          match property data "output" with
          | Some (JArray output) =>
              Some (foldl (λ text o, text +:+ content_text o) EmptyString output)
          | _ => Some EmptyString
          end
      end
  end.

Section CallOpenAI.
(** [JSON.parse]: the value, or the message of the [SyntaxError]. *)
Variable JSON_parse : string → json + string.
(** The backend: the response to the request sent as the [attempt]-th. *)
Variable fetch : nat → Body → response.
(** [process.env.OPENAI_API_KEY] *)
Variable OPENAI_API_KEY : option string.

Definition extractJsonObject (text : string) : extracted :=
  match index_of "{" text, last_index_of "}" text with
  | Some first, Some last =>
      if decide (last ≤ first)%nat then NoObject
      else
        match JSON_parse (String.substring first (last + 1 - first) text) with
        | inl obj => Parsed obj
        | inr message => SyntaxError message
        end
  | _, _ => NoObject
  end.

(** [e?.message || String(e)] for an error of the class [name]: the text
    of an error without a message is the name of its class. *)
Definition message_of (name message : string) : string :=
  if decide (message = "") then name else message.

(** The [try] block: the items, or the new [lastErr]. *)
Definition parse_and_validate (expected : nat) (text : string) : attempt_result :=
  match extractJsonObject text with
  | Parsed obj =>
      match validateBatch expected obj with
      | Passed itemsOut => Valid itemsOut
      | Failed message => Invalid (message_of "Error" message)
      end
  | NoObject => Invalid (message_of "Error" "Model did not return a JSON object.")
  | SyntaxError message => Invalid (message_of "SyntaxError" message)
  end.

(** The system lines of an attempt. *)
Definition systemOf (expected attempt : nat) (lastErr : option string) : list string :=
  match lastErr with
  | Some err =>
      if decide (attempt = 1%nat ∧ err ≠ "") then
        baseSystem expected
        ++ [""; "Your previous output was invalid.";
            "Fix the JSON and re-output per contract. Error: " +:+ String.substring 0 500 err]
      else baseSystem expected
  | None => baseSystem expected
  end.

(** [for (let attempt = 0; attempt < 2; attempt++) ...] with [remaining]
    attempts left; the result comes with the requests sent, in order. *)
Fixpoint attempts (model : string) (items : list PlanItem) (difficulty : Difficulty)
    (remaining attempt : nat) (lastErr : option string) (sent : list Body)
    : outcome * list Body :=
  match remaining with
  | O =>
      (Throws ("Model returned invalid JSON after retries: "
               +:+ from_option (λ e, e) "null" lastErr), sent)
  | S remaining' =>
      let body :=
        {| b_model := model;
           b_system := join_lines (systemOf (length items) attempt lastErr);
           b_difficulty := difficulty;
           b_items := payloadItem <$> items |} in
      let sent := sent ++ [body] in
      match fetch attempt body with
      | NotOk status errText statusText =>
          (Throws ("OpenAI error " +:+ pretty status +:+ ": "
                   +:+ (if decide (errText = "") then statusText else errText)), sent)
      | Unparsable message => (Throws message, sent)
      | Data data =>
          match response_text data with
          | None => (ThrowsTypeError, sent)
          | Some text =>
              match parse_and_validate (length items) text with
              | Valid itemsOut => (Returns itemsOut, sent)
              | Invalid err =>
                  attempts model items difficulty remaining' (S attempt) (Some err) sent
              end
          end
      end
  end.

Definition callOpenAI (model : string) (items : list PlanItem) (difficulty : Difficulty)
    : outcome * list Body :=
  match OPENAI_API_KEY with
  | None | Some EmptyString =>
      (Throws "Missing OPENAI_API_KEY (set it in Vercel project environment variables).", [])
  | Some _ => attempts model items difficulty 2 0 None []
  end.
End CallOpenAI.

End Generate.

(** ** offlineBank: the offline synthesizer *)
Module Offline.
Import Text Objectives ExamTypes.
Import Planner (QuestionPlanItem, p_domainNumber, p_domainLabel, p_objectiveId,
                p_objectiveTitle, p_objectiveBullets, p_type).

Definition two32 : Z := 4294967296.

(** [Math.imul(a, b)], read as an unsigned 32-bit number. *)
Definition imul (a b : Z) : Z := (a * b) `mod` two32.

(** The code units of a string.  (A string is held as its bytes here, which
    are the code units of [charCodeAt] for ASCII text.) *)
Definition charCodes (s : string) : list Z :=
  (λ c, Z.of_nat (nat_of_ascii c)) <$> String.list_ascii_of_string s.

(** FNV-1a: [h ^= s.charCodeAt(i); h = Math.imul(h, 16777619)], and
    [h >>> 0] at the end.  The 32-bit pattern of [h] is kept unsigned
    throughout. *)
Definition hashStringToSeed (s : string) : Z :=
  foldl (λ h c, imul (Z.lxor h c) 16777619) 2166136261 (charCodes s).

(** The generator [mulberry32(seed)] is its counter [t]; a computation that
    draws from it passes the counter along. *)
Definition Rng (A : Type) : Type := Z → A * Z.

Definition ret {A : Type} (a : A) : Rng A := λ t, (a, t).

Definition bind {A B : Type} (m : Rng A) (f : A → Rng B) : Rng B :=
  λ t, let '(a, t') := m t in f a t'.

Definition mulberry32 (seed : Z) : Z := seed `mod` two32.

(** [rng.next()]: the numerator over [4294967296] of the next number. *)
Definition next : Rng Z := λ t,
  let t := t + 1831565813 in
  let x := t `mod` two32 in
  let x := imul (Z.lxor x (Z.shiftr x 15)) (Z.lor x 1) in
  let x := Z.lxor x ((x + imul (Z.lxor x (Z.shiftr x 7)) (Z.lor x 61)) `mod` two32) in
  (Z.lxor x (Z.shiftr x 14), t).

(** [Math.floor(rng.next() * n)] *)
Definition below (n : nat) : Rng nat :=
  bind next (λ u, ret (Z.to_nat ((u * Z.of_nat n) `div` two32))).

(** [arr[Math.floor(rng.next() * arr.length)]]; [undefined] stands for the
    value read from an empty array, which no caller passes. *)
Definition pickOne {T : Type} (undefined : T) (arr : list T) : Rng T :=
  bind (below (length arr)) (λ i, ret (nth i arr undefined)).

(** [[a[i], a[j]] = [a[j], a[i]]] *)
Definition swap {T : Type} (a : list T) (i j : nat) : list T :=
  match a !! i, a !! j with
  | Some x, Some y => <[i := y]> (<[j := x]> a)
  | _, _ => a
  end.

(** [for (let i = ...; i > 0; i--) { j = ...; swap }] from index [i] down. *)
Fixpoint shuffle_down {T : Type} (i : nat) (a : list T) : Rng (list T) :=
  match i with
  | O => ret a
  | S i' => bind (below (S i)) (λ j, shuffle_down i' (swap a i j))
  end.

Definition shuffle {T : Type} (arr : list T) : Rng (list T) :=
  shuffle_down (length arr - 1) arr.

Definition takeDistinct {T : Type} (arr : list T) (n : Z) : Rng (list T) :=
  if decide (n ≤ 0) then ret []
  else bind (shuffle arr) (λ a, ret (take (Nat.min (Z.to_nat n) (length arr)) a)).

Definition alpha : list string :=
  ["A"; "B"; "C"; "D"; "E"; "F"; "G"; "H"; "I"; "J"; "K"; "L"; "M";
   "N"; "O"; "P"; "Q"; "R"; "S"; "T"; "U"; "V"; "W"; "X"; "Y"; "Z"].

(** [Array.from({ length: n }, (_, i) => alpha[i] ?? `O${i + 1}`)] *)
Definition makeOptionIds (n : nat) : list string :=
  (λ i, default ("O" +:+ pretty (S i)) (alpha !! i)) <$> seq 0 n.

(** [s.replace(/\s+/g, " ")]: every run of white space becomes one blank;
    [in_run] tells that the character in front was white space. *)
Fixpoint collapse (in_run : bool) (s : string) : string :=
  match s with
  | EmptyString => EmptyString
  | String c s' =>
      if is_space c then
        if in_run then collapse true s' else String " " (collapse true s')
      else String c (collapse false s')
  end.

Definition sanitizeText (s : string) : string := trim (collapse false s).

(** [arr.filter(Boolean)] on strings *)
Definition non_empty (arr : list string) : list string :=
  filter (λ s, s ≠ "") arr.

Inductive Template :=
  | OrderTemplate (id title prompt : string) (items : list string)
  | MatchTemplate (id title prompt leftLabel rightLabel : string)
      (pairs : list (string * string)).

Definition common : list Template := [
  OrderTemplate "pbq-troubleshoot-order" "Troubleshooting methodology"
    "Put the standard troubleshooting steps in the correct order."
    ["Identify the problem";
     "Establish a theory of probable cause";
     "Test the theory to determine the cause";
     "Establish a plan of action and implement the solution";
     "Verify full system functionality and implement preventive measures";
     "Document findings, actions, and outcomes"]
].

Definition core1 : list Template := [
  MatchTemplate "pbq-ports-match" "Ports and protocols"
    "Match each port number to the correct protocol/service." "Port" "Service"
    [("22", "SSH"); ("53", "DNS"); ("80", "HTTP"); ("443", "HTTPS")];
  MatchTemplate "pbq-wifi-match" "Wi‑Fi standards"
    "Match each Wi‑Fi generation to the correct standard label." "Generation" "Standard"
    [("Wi‑Fi 5", "802.11ac"); ("Wi‑Fi 6", "802.11ax"); ("Wi‑Fi 4", "802.11n");
     ("Wi‑Fi 6E", "802.11ax (6 GHz)")];
  OrderTemplate "pbq-router-harden" "Router hardening"
    "Order the following router hardening actions from first to last."
    ["Change default admin credentials";
     "Update router firmware";
     "Disable WPS if not required";
     "Configure WPA2/WPA3 and set a strong passphrase";
     "Disable remote administration (unless required)";
     "Document settings and store backup config securely"];
  MatchTemplate "pbq-cable-match" "Cables and connectors"
    "Match the connector to the cable type." "Connector" "Cable"
    [("RJ‑45", "Ethernet (twisted pair)"); ("LC", "Fiber optic (SFP transceiver)");
     ("BNC", "Coaxial"); ("USB‑C", "USB")]
].

Definition core2 : list Template := [
  MatchTemplate "pbq-windows-tools" "Windows tools"
    "Match each tool to the best use case." "Tool" "Use case"
    [("Task Manager", "View/stop processes and performance");
     ("Event Viewer", "Review system/application logs");
     ("Disk Management", "Create/format/assign volumes");
     ("Device Manager", "Manage hardware devices/drivers")];
  OrderTemplate "pbq-malware-flow" "Malware response workflow"
    "Order the steps for responding to a malware incident."
    ["Identify and isolate the infected system";
     "Disable System Restore (if used in your procedure)";
     "Remediate/clean or reimage as required";
     "Update signatures and apply patches";
     "Re-enable protections and restore services";
     "Document incident and user education"];
  MatchTemplate "pbq-ticket-triage" "Help desk triage"
    "Match each ticket description to the most appropriate priority." "Ticket" "Priority"
    [("Single user cannot print to local printer", "Low");
     ("Multiple users cannot access shared drive", "High");
     ("CEO laptop will not boot before a meeting", "High");
     ("User requests software installation", "Medium")];
  OrderTemplate "pbq-change-mgmt" "Change management"
    "Order common change management steps in a controlled environment."
    ["Identify scope and risk";
     "Create a rollback plan";
     "Test in a staging environment";
     "Schedule and communicate downtime";
     "Implement the change";
     "Validate and document results"]
].

(** [[...pbqTemplates(core).common, ...pbqTemplates(core).specific]] *)
Definition pbqTemplates (core : CoreId) : list Template :=
  common ++ match core with Core_220_1201 => core1 | Core_220_1202 => core2 end.

(** [texts.map((text, i) => ({ id: ids[i], text }))] *)
Definition labelled (ids texts : list string) : list Entry :=
  imap (λ i text, {| e_id := default "undefined" (ids !! i); e_text := text |}) texts.

Definition buildPBQQuestion (core : CoreId) (sessionId baseId : string)
    (objective : QuestionPlanItem) : Rng Question :=
  bind (pickOne (OrderTemplate "" "" "" []) (pbqTemplates core)) (λ t,
  let question (type : QuestionType) (prompt : string) (pbq : PBQ)
               (correct : list string) (explanation : string) :=
    {| q_id := sessionId +:+ "-" +:+ baseId; q_core := core;
       q_domain := p_domainLabel objective; q_objective := p_objectiveId objective;
       q_objectiveTitle := p_objectiveTitle objective;
       q_objectiveBullets := p_objectiveBullets objective;
       q_focus := None; q_type := type; q_prompt := prompt; q_options := None;
       q_correct := correct; q_explanation := explanation; q_pbq := Some pbq |} in
  match t with
  | OrderTemplate _ _ prompt items =>
      let ids := makeOptionIds (length items) in
      ret (question pbq_order prompt (PbqOrder (labelled ids items)) items
             "This PBQ practices a common workflow relevant to the exam objectives. Review the steps and why the order matters.")
  | MatchTemplate _ _ prompt leftLabel rightLabel pairs =>
      bind (shuffle pairs) (λ pairs,
      let leftIds := makeOptionIds (length pairs) in
      let rightIds := (λ x, "R" +:+ x) <$> makeOptionIds (length pairs) in
      let left := labelled leftIds (fst <$> pairs) in
      bind (shuffle (labelled rightIds (snd <$> pairs))) (λ right,
      let correctPairs := (λ p : string * string, fst p +:+ "=>" +:+ snd p) <$> pairs in
      ret (question pbq_match prompt (PbqMatch leftLabel rightLabel left right) correctPairs
             "This PBQ covers common mappings. Review why each left item matches the right item.")))
  end).

Section Catalogue.
Variable OBJECTIVES : CoreId → list (string * ObjectiveMeta).

Definition allBulletPool (core : CoreId) : list string :=
  let ids := listObjectiveIds OBJECTIVES core in
  let pool :=
    ids ≫= (λ id,
      let b := from_option meta_bullets [] (getObjectiveMeta OBJECTIVES core id) in
      filter (λ s, s ≠ "" ∧ (String.length s ≤ 120)%nat) (sanitizeText <$> b)) in
  match pool with
  | [] =>
      non_empty ((λ id, sanitizeText
                          (from_option meta_title id (getObjectiveMeta OBJECTIVES core id)))
                 <$> ids)
  | _ => pool
  end.

(** [obj.objectiveBullets.map(sanitizeText).filter(Boolean).filter((b) => b.length <= 140)] *)
Definition usableBullets (obj : QuestionPlanItem) : list string :=
  filter (λ b, (String.length b ≤ 140)%nat)
    (non_empty (sanitizeText <$> p_objectiveBullets obj)).

Definition buildSingleFromObjective (core : CoreId) (sessionId baseId : string)
    (obj : QuestionPlanItem) : Rng Question :=
  let bullets := usableBullets obj in
  let pool := allBulletPool core in
  bind (match bullets with
        | [] => ret (sanitizeText (p_objectiveTitle obj))
        | _ => pickOne "undefined" bullets
        end) (λ correctText,
  bind (takeDistinct (filter (λ x, x ≠ correctText) pool) 3) (λ distractors,
  bind (shuffle (correctText :: distractors)) (λ shuffled,
  let optsText := take 4 shuffled in
  let ids := makeOptionIds (length optsText) in
  let options := labelled ids optsText in
  let correctId :=
    match list_find (λ o, e_text o = correctText) options with
    | Some (_, o) => e_id o
    | None => default "undefined" (ids !! 0%nat)
    end in
  let prompt :=
    "Which of the following is specifically listed under the objective:" +:+ newline
    +:+ dquote +:+ sanitizeText (p_objectiveTitle obj) +:+ dquote +:+ "?" in
  ret {| q_id := sessionId +:+ "-" +:+ baseId; q_core := core;
         q_domain := p_domainLabel obj; q_objective := p_objectiveId obj;
         q_objectiveTitle := p_objectiveTitle obj;
         q_objectiveBullets := p_objectiveBullets obj;
         q_focus := Some correctText; q_type := single; q_prompt := prompt;
         q_options := Some options; q_correct := [correctId];
         q_explanation :=
           dquote +:+ correctText +:+ dquote
           +:+ " is explicitly included under this objective. Review the objective bullets for related terms.";
         q_pbq := None |}))).

(** [texts.join("; ")] *)
Definition join_semicolon (texts : list string) : string :=
  match texts with
  | [] => EmptyString
  | x :: rest => foldl (λ acc y, acc +:+ "; " +:+ y) x rest
  end.

Definition buildMultiFromObjective (core : CoreId) (sessionId baseId : string)
    (obj : QuestionPlanItem) : Rng Question :=
  let bullets := usableBullets obj in
  if decide (length bullets < 2)%nat then buildSingleFromObjective core sessionId baseId obj
  else
  let pool := allBulletPool core in
  bind (takeDistinct bullets 2) (λ correctTexts,
  bind (takeDistinct (filter (λ x, x ∉ correctTexts) pool) 3) (λ distractors,
  bind (shuffle (correctTexts ++ distractors)) (λ shuffled,
  let optsText := take 5 shuffled in
  let ids := makeOptionIds (length optsText) in
  let options := labelled ids optsText in
  let correctIds := e_id <$> filter (λ o, e_text o ∈ correctTexts) options in
  let prompt :=
    "Select ALL that apply. Which of the following are specifically listed under the objective:"
    +:+ newline +:+ dquote +:+ sanitizeText (p_objectiveTitle obj) +:+ dquote +:+ "?" in
  ret {| q_id := sessionId +:+ "-" +:+ baseId; q_core := core;
         q_domain := p_domainLabel obj; q_objective := p_objectiveId obj;
         q_objectiveTitle := p_objectiveTitle obj;
         q_objectiveBullets := p_objectiveBullets obj;
         q_focus := Some (join_semicolon correctTexts); q_type := multi; q_prompt := prompt;
         q_options := Some options; q_correct := correctIds;
         q_explanation :=
           "These items are listed under the objective. The distractors are from other objectives/domains.";
         q_pbq := None |}))).

(** [String(counter).padStart(3, "0")] *)
Definition pad3 (counter : nat) : string :=
  let digits := pretty counter in
  String.concat "" (replicate (3 - String.length digits) "0") +:+ digits.

(** [for (const p of planShuffled) { counter++; ... }] *)
Fixpoint buildEach (core : CoreId) (sessionId : string) (counter : nat)
    (planShuffled : list QuestionPlanItem) (questions : list Question)
    : Rng (list Question) :=
  match planShuffled with
  | [] => ret questions
  | p :: rest =>
      let counter := S counter in
      let baseId := "offline-" +:+ pad3 counter in
      bind (match p_type p with
            | pbq_order | pbq_match => buildPBQQuestion core sessionId baseId p
            | multi => buildMultiFromObjective core sessionId baseId p
            | single => buildSingleFromObjective core sessionId baseId p
            end) (λ q,
      buildEach core sessionId counter rest (questions ++ [q]))
  end.

(** Everything after the generator is made: the questions drawn from the
    generator [rng]. *)
Definition synthesize (core : CoreId) (sessionId : string) (plan : list QuestionPlanItem)
    : Rng (list Question) :=
  bind (shuffle plan) (λ planShuffled,
  bind (buildEach core sessionId 0 planShuffled []) (λ questions,
  ret (take (length plan) questions))).

Definition seed_text (sessionId : string) (core : CoreId) (d : Difficulty) : string :=
  sessionId +:+ ":" +:+ core_name core +:+ ":" +:+ difficulty_name d.

Definition buildOfflineQuestions (core : CoreId) (sessionId : string)
    (config : SessionConfig) (plan : list QuestionPlanItem) : list Question :=
  let rng := mulberry32 (hashStringToSeed (seed_text sessionId core (difficulty config))) in
  fst (synthesize core sessionId plan rng).
End Catalogue.

End Offline.

(** ** generate: the request handler, its cache and its rate limiter *)
Module Handler.
Import Text ExamTypes Generate.

Definition CACHE_TTL_MS : Z := 15 * 60 * 1000.
Definition RATE_WINDOW_MS : Z := 60 * 1000.
Definition RATE_LIMIT : Z := 30.

(** The entries of the two maps that outlive a request. *)
Record CacheEntry (T : Type) := { expiresAt : Z; value : T }.
Arguments expiresAt {T} _.
Arguments value {T} _.

Record RateEntry := { resetAt : Z; count : Z }.

(** [Date.now()] is an integer number of milliseconds; the caller passes the
    reading [now]. *)
Definition cacheGet {T : Type} (key : string) (now : Z) (cache : gmap string (CacheEntry T))
    : option T * gmap string (CacheEntry T) :=
  match cache !! key with
  | None => (None, cache)
  | Some hit =>
      if decide (now > expiresAt hit) then (None, delete key cache)
      else (Some (value hit), cache)
  end.

Definition cacheSet {T : Type} (key : string) (v : T) (now : Z)
    (cache : gmap string (CacheEntry T)) : gmap string (CacheEntry T) :=
  <[key := {| expiresAt := now + CACHE_TTL_MS; value := v |}]> cache.

(** What [getClientIp] reads of a request: the two headers, where they are
    strings, and the address of the socket. *)
Record Headers := {
  x_forwarded_for : option string;
  x_real_ip : option string;
  remoteAddress : option string
}.

Definition getClientIp (h : Headers) : string :=
  let fromSocket :=
    match remoteAddress h with
    | Some a => if decide (a = "") then "unknown" else a
    | None => "unknown"
    end in
  let fromReal :=
    match x_real_ip h with
    | Some real => if decide (real = "") then fromSocket else trim real
    | None => fromSocket
    end in
  match x_forwarded_for h with
  | Some xf => if decide (xf = "") then fromReal else trim (split_head "," xf)
  | None => fromReal
  end.

(** The body of a response. *)
Inductive Payload :=
  | ErrorBody (error : string)
  | RateLimitBody (error : string) (retryAfterSeconds : Z)
  | ItemsBody (items : list json) (cached : bool).

(** A response: the status, the headers in the order they were set, and
    the body. *)
Record Response := {
  status : Z;
  headers : list (string * string);
  payload : Payload
}.

(** [json(res, status, body)] on a response that has the headers [set]
    already. *)
Definition respond (set : list (string * string)) (status : Z) (body : Payload) : Response :=
  {| status := status;
     headers := set ++ [("Content-Type", "application/json")];
     payload := body |}.

(** [Math.ceil(x / 1000)] for an integer [x]. *)
Definition ceil_seconds (x : Z) : Z := - ((- x) `div` 1000).

(** [enforceRateLimit] returns [true] with the headers it has set, or it has
    sent the response 429 and returns [false]. *)
Inductive limit_result :=
  | Allowed (set : list (string * string))
  | Refused (response : Response).

Definition enforceRateLimit (h : Headers) (now : Z) (rate : gmap string RateEntry)
    : limit_result * gmap string RateEntry :=
  let ip := getClientIp h in
  let fresh :=
    (Allowed [("X-RateLimit-Limit", pretty RATE_LIMIT);
              ("X-RateLimit-Remaining", pretty (RATE_LIMIT - 1));
              ("X-RateLimit-Reset", pretty (ceil_seconds (now + RATE_WINDOW_MS)))],
     <[ip := {| resetAt := now + RATE_WINDOW_MS; count := 1 |}]> rate) in
  match rate !! ip with
  | None => fresh
  | Some cur =>
      if decide (now > resetAt cur) then fresh
      else if decide (count cur >= RATE_LIMIT) then
        let retry := Z.max 1 (ceil_seconds (resetAt cur - now)) in
        (Refused
           (respond [("Retry-After", pretty retry);
                     ("X-RateLimit-Limit", pretty RATE_LIMIT);
                     ("X-RateLimit-Remaining", "0");
                     ("X-RateLimit-Reset", pretty (ceil_seconds (resetAt cur)))]
              429 (RateLimitBody "Rate limit exceeded. Please wait and retry." retry)),
         rate)
      else
        let cur' := {| resetAt := resetAt cur; count := count cur + 1 |} in
        (Allowed [("X-RateLimit-Limit", pretty RATE_LIMIT);
                  ("X-RateLimit-Remaining", pretty (Z.max 0 (RATE_LIMIT - count cur')));
                  ("X-RateLimit-Reset", pretty (ceil_seconds (resetAt cur)))],
         <[ip := cur']> rate)
  end.

(** An element of [body.items] as the handler reads it: the texts, where an
    empty text stands for a missing one as well, and the type, if there is
    one. *)
Record RequestItem := {
  ri_domainNumber : string;
  ri_domainLabel : string;
  ri_objectiveId : string;
  ri_objectiveTitle : string;
  ri_objectiveBullets : list string;
  ri_type : option QuestionType
}.

(** The values the handler reads from the body: [String(body?.core || "")],
    the text of [body?.difficulty] (empty when there is none),
    [safeArray(body?.items)], and [generationId] and [batchIndex] where they
    are a string and a number. *)
Record RequestBody := {
  rb_core : string;
  rb_difficulty : string;
  rb_items : list RequestItem;
  rb_generationId : option string;
  rb_batchIndex : option Z
}.

(** [JSON.parse(req.body)] may throw. *)
Inductive body_read :=
  | BodyThrows (name message : string)
  | BodyRead (b : RequestBody).

Record Request := {
  method : string;
  req_headers : Headers;
  body : body_read
}.

(** The readings of [Date.now()] during a request: in [enforceRateLimit],
    in [cacheGet] and, after the generation, in [cacheSet]. *)
Record Clock := { at_limit : Z; at_lookup : Z; at_store : Z }.

(** The two maps on [globalThis]. *)
Record State := {
  cache : gmap string (CacheEntry (list json));
  rate : gmap string RateEntry
}.

Definition diff_of (diffRaw : string) : Difficulty :=
  if decide (diffRaw = "easy") then easy
  else if decide (diffRaw = "hard") then hard
  else medium.

(** The minimal validation loop: the plan items, or the message of the
    first error. *)
Fixpoint checkItems (items : list RequestItem) : checked (list PlanItem) :=
  match items with
  | [] => Passed []
  | it :: rest =>
      if decide (ri_objectiveId it = "" ∨ ri_objectiveTitle it = "")
      then Failed "Invalid plan item (missing objective)."
      else
        match ri_type it with
        | None => Failed "Invalid plan item (missing type)."
        | Some t =>
            match checkItems rest with
            | Passed ps =>
                Passed ({| domainNumber := ri_domainNumber it;
                           domainLabel := ri_domainLabel it;
                           objectiveId := ri_objectiveId it;
                           objectiveTitle := ri_objectiveTitle it;
                           objectiveBullets := ri_objectiveBullets it;
                           type := t |} :: ps)
            | Failed message => Failed message
            end
        end
  end.

Section Handle.
(** [sha256(JSON.stringify({ core, items, diff, generationId, batchIndex }))] *)
Variable cacheKey : string → list RequestItem → Difficulty → option string → option Z → string.
(** The generator, with the requests it sends. *)
Variable callOpenAI : string → list PlanItem → Difficulty → outcome * list Body.
(** The message of the [TypeError] of reading a property of [null]. *)
Variable type_error_message : string.

(** The response, the requests sent to the backend, and the maps after the
    request. *)
Definition handler (req : Request) (clock : Clock) (st : State)
    : Response * list Body * State :=
  if decide (method req ≠ "POST") then
    (respond [] 405 (ErrorBody "Method Not Allowed"), [], st)
  else
    match enforceRateLimit (req_headers req) (at_limit clock) (rate st) with
    | (Refused response, rate') => (response, [], {| cache := cache st; rate := rate' |})
    | (Allowed set, rate') =>
        let st' := {| cache := cache st; rate := rate' |} in
        match body req with
        | BodyThrows name message =>
            (respond set 500 (ErrorBody (message_of name message)), [], st')
        | BodyRead b =>
            let model := "gpt-4o-mini" in
            let core := rb_core b in
            let diff := diff_of (rb_difficulty b) in
            let items := rb_items b in
            if decide (core = "") then
              (respond set 400 (ErrorBody "Missing core."), [], st')
            else if decide (items = []) then
              (respond set 400 (ErrorBody "No items provided."), [], st')
            else if decide (20 < length items)%nat then
              (respond set 400 (ErrorBody "Too many items in one request; batch <= 20."),
               [], st')
            else
              match checkItems items with
              | Failed message => (respond set 500 (ErrorBody message), [], st')
              | Passed planItems =>
                  let key := cacheKey core items diff (rb_generationId b) (rb_batchIndex b) in
                  match cacheGet key (at_lookup clock) (cache st) with
                  | (Some cached, cache') =>
                      (respond (set ++ [("X-Cache", "HIT")]) 200 (ItemsBody cached true),
                       [], {| cache := cache'; rate := rate' |})
                  | (None, cache') =>
                      match callOpenAI model planItems diff with
                      | (Returns generated, sent) =>
                          (respond (set ++ [("X-Cache", "MISS")]) 200
                             (ItemsBody generated false),
                           sent,
                           {| cache := cacheSet key generated (at_store clock) cache';
                              rate := rate' |})
                      | (Throws message, sent) =>
                          (respond set 500 (ErrorBody (message_of "Error" message)),
                           sent, {| cache := cache'; rate := rate' |})
                      | (ThrowsTypeError, sent) =>
                          (respond set 500 (ErrorBody (message_of "TypeError" type_error_message)),
                           sent, {| cache := cache'; rate := rate' |})
                      end
                  end
              end
        end
    end.
End Handle.

End Handler.

(** ** App: the exam view *)
Module View.
Import ExamTypes.

(** An entry of [pbqState] as the two PBQ components write it:
    [{ orderItems, order }] or [{ map, pairs }]. *)
Record PbqEntry := {
  orderItems : option (list Entry);
  order : option (list string);
  map : option (gmap string string);
  pairs : option (list string)
}.

Abbreviation PbqState := (gmap string PbqEntry).

(** What [scoreExam] reads of an entry, and the state as it is passed to
    [scoreExam]. *)
Definition answer_of (e : PbqEntry) : Scoring.PbqAnswer :=
  {| Scoring.order := order e; Scoring.pairs := pairs e |}.

Definition submitted (pbqState : PbqState) : option (gmap string Scoring.PbqAnswer) :=
  Some (answer_of <$> pbqState).

(** *** PBQOrder *)

(** [question.pbq?.kind === "order" ? question.pbq.items : []] *)
Definition items_of (question : Question) : list Entry :=
  match q_pbq question with
  | Some (PbqOrder items) => items
  | _ => []
  end.

(** The rows of the component, [local]: it starts as [state ?? items], with
    [state = pbqState[question.id]?.orderItems], and [move] sets it together
    with the state. *)
Definition local (question : Question) (pbqState : PbqState) : list Entry :=
  default (items_of question) (pbqState !! q_id question ≫= orderItems).

(** [move(i, dir)] for the row [i] and [dir] either [-1] or [1]. *)
Definition move (question : Question) (i : nat) (dir : Z) (pbqState : PbqState) : PbqState :=
  let rows := local question pbqState in
  let j := Z.of_nat i + dir in
  if decide (j < 0 ∨ j >= Z.of_nat (length rows)) then pbqState
  else
    let copy := Offline.swap rows i (Z.to_nat j) in
    <[q_id question := {| orderItems := Some copy; order := Some (e_text <$> copy);
                          map := None; pairs := None |}]> pbqState.

(** *** PBQMatch *)

(** [setPair(leftText, rightText)].  The order of [Object.entries] is not
    modelled: [encoded] lists the pairs in the order of [map_to_list]. *)
Definition setPair (question : Question) (leftText rightText : string)
    (pbqState : PbqState) : PbqState :=
  let chosen := default ∅ (pbqState !! q_id question ≫= map) in
  let next := <[leftText := rightText]> chosen in
  let encoded := (λ lr : string * string, fst lr +:+ "=>" +:+ snd lr) <$> map_to_list next in
  <[q_id question := {| orderItems := None; order := None;
                        map := Some next; pairs := Some encoded |}]> pbqState.

(** *** The counter of unanswered questions *)

(** [q.type.startsWith("pbq")] *)
Definition isPBQ (q : Question) : bool :=
  match q_type q with pbq_order | pbq_match => true | _ => false end.

(** The body of the loop of [unansweredCount]: whether [n] is incremented. *)
Definition unanswered (answers : Scoring.AnswerMap) (pbqState : PbqState) (q : Question)
    : bool :=
  if isPBQ q then
    match pbqState !! q_id q with
    | None => true
    | Some st =>
        match q_type q with
        | pbq_order =>
            match order st with
            | Some o => negb (bool_decide (length o = length (q_correct q)))
            | None => true
            end
        | pbq_match =>
            match pairs st with
            | Some p => negb (bool_decide (length p = length (q_correct q)))
            | None => true
            end
        | _ => false
        end
    end
  else bool_decide (length (default [] (answers !! q_id q)) = 0%nat).

Definition unansweredCount (session : option ExamSession) (answers : Scoring.AnswerMap)
    (pbqState : PbqState) : nat :=
  match session with
  | None => 0%nat
  | Some s => length (filter (λ q, unanswered answers pbqState q = true) (questions s))
  end.

(** *** The clock *)

(** [String(n).padStart(2, "0")] *)
Definition pad2 (n : Z) : string :=
  let digits := pretty n in
  String.concat "" (replicate (2 - String.length digits) "0") +:+ digits.

(** [%] takes the sign of the dividend. *)
Definition formatTime (secs : Z) : string :=
  let m := secs `div` 60 in
  let s := secs `rem` 60 in
  pad2 m +:+ ":" +:+ pad2 s.

(** The update of [remainingSeconds] by the timer, once a second, and
    whether it calls [finalizeSubmit(true)]. *)
Definition tick (s : Z) : Z * bool :=
  if decide (s ≤ 1) then (0, true) else (s - 1, false).

End View.

(** ** App: the coverage of objectives on the results screen *)
Module Coverage.
Import ExamTypes Scoring.

(** An entry of [agg]. *)
Record ObjectiveAgg := {
  title : string;
  total : Z;
  missed : Z;
  focuses : gmap string Z
}.

(** [!!result.scored.find((s) => s.questionId === q.id)?.isCorrect] *)
Definition ok (result : ExamResult) (q : Question) : bool :=
  match list_find (λ s, questionId s = q_id q) (scored result) with
  | Some (_, s) => isCorrect s
  | None => false
  end.

(** The body of the loop over the questions. *)
Definition count (result : ExamResult) (agg : gmap string ObjectiveAgg) (q : Question)
    : gmap string ObjectiveAgg :=
  let key := q_objective q in
  let cur :=
    default {| title := q_objectiveTitle q; total := 0; missed := 0; focuses := ∅ |}
            (agg !! key) in
  let counted :=
    {| title := title cur; total := total cur + 1; missed := missed cur;
       focuses := focuses cur |} in
  <[key :=
      if ok result q then counted
      else
        {| title := title counted; total := total counted; missed := missed counted + 1;
           focuses :=
             match q_focus q with
             | Some f =>
                 if decide (f = "") then focuses counted
                 else <[f := default 0 (focuses counted !! f) + 1]> (focuses counted)
             | None => focuses counted
             end |}]> agg.

(** The comparator [(a, b) => b[1].missed - a[1].missed]. *)
Definition byMissed (a b : string * ObjectiveAgg) : Q :=
  (inject_Z (missed (snd b)) - inject_Z (missed (snd a)))%Q.

(** The array [missed].  The order of [Object.entries] is not modelled: the
    entries are sorted from the order of [map_to_list]. *)
Definition missedObjectives (session : ExamSession) (result : ExamResult)
    : list (string * ObjectiveAgg) :=
  let agg := foldl (count result) ∅ (questions session) in
  take 10 (Planner.Array_sort byMissed
             (filter (λ e, 0 < missed (snd e)) (map_to_list agg))).

(** [Object.entries(v.focuses).sort((a, b) => b[1] - a[1]).slice(0, 3)] *)
Definition focusList (v : ObjectiveAgg) : list (string * Z) :=
  take 3 (Planner.Array_sort
            (λ a b : string * Z, (inject_Z (snd b) - inject_Z (snd a))%Q)
            (map_to_list (focuses v))).

(** What the component shows: the note that nothing was missed, or the
    list of the objectives missed most, each with its common misses. *)
Inductive shown :=
  | Excellent
  | TopMissed (rows : list (string * ObjectiveAgg * list (string * Z))).

Definition ObjectiveCoverage (session : ExamSession) (result : ExamResult) : shown :=
  match missedObjectives session result with
  | [] => Excellent
  | rows => TopMissed ((λ e, (e, focusList (snd e))) <$> rows)
  end.

End Coverage.

(** * The vocabulary of the statements *)

Section Ranking.
Context {A : Type} (m : A → Q).

(** The comparator of a sort in descending order of the measure [m]. *)
Definition desc (a b : A) : Q := (m b - m a)%Q.

(** [a] stands in front of [b] in the array [l]. *)
Definition precedes (l : list A) (a b : A) : Prop :=
  ∃ i j : nat, (i < j)%nat ∧ l !! i = Some a ∧ l !! j = Some b.

(** [a] ranks before [b]: a larger measure, or the same measure and an
    earlier place in the input [l]. *)
Definition ranks_before (l : list A) (a b : A) : Prop :=
  (m b < m a)%Q ∨ ((m a == m b)%Q ∧ precedes l a b).
End Ranking.

Section AllocationVocabulary.
Import Planner.

(** The arrays [raw] and [byRemainder] (before it is sorted) of a call with
    the weight sum [S]. *)
Definition rawOf (total S : Z) (bp : list DomainBlueprint) : list RawShare :=
  map (mkRaw S total) bp.

Definition rankedOf (total S : Z) (bp : list DomainBlueprint) : list RankedShare :=
  map withRem (rawOf total S bp).

(** The entry of a blueprint domain in [byRemainder]. *)
Definition entry (total : Z) (bp : list DomainBlueprint) (d : DomainBlueprint) : RankedShare :=
  withRem (mkRaw (total_weight bp) total d).

(** The keys that get the extra unit, and the record that is returned. *)
Definition bonus_entries (total : Z) (bp : list DomainBlueprint) : list RankedShare :=
  take (Z.to_nat (total - foldl (λ s r, s + floor r) 0 (rawOf total (total_weight bp) bp)))
       (Array_sort (desc rem) (rankedOf total (total_weight bp) bp)).

Definition allocation (total : Z) (bp : list DomainBlueprint) : gmap string Z :=
  foldl bump (foldl store ∅ (rawOf total (total_weight bp) bp)) (bonus_entries total bp).
End AllocationVocabulary.

Section PlanVocabulary.
Import Text Objectives ExamTypes Planner.
Variable OBJECTIVES : CoreId → list (string * ObjectiveMeta).

(** What the plan builder promises of an item: the domain of a blueprint
    entry and one of the domain's objectives, or the placeholder when the
    domain has none. *)
Definition item_of_domain (core : CoreId) (d : DomainBlueprint) (p : QuestionPlanItem) : Prop :=
  p_domainNumber p = domainNumber d
  ∧ p_domainLabel p = domainLabel d
  ∧ let ids := listObjectivesByDomain OBJECTIVES core (domainNumber d) in
    p_objectiveId p ∈ ids
    ∨ (ids = [] ∧ p_objectiveId p = split_head "." (domainNumber d) +:+ ".1").

Definition item_of_blueprint (core : CoreId) (bp : list DomainBlueprint)
    (p : QuestionPlanItem) : Prop :=
  ∃ d, d ∈ bp ∧ item_of_domain core d p.

(** The injection passes change the answer type of an item and nothing
    else. *)
Definition same_items (plan plan' : list QuestionPlanItem) : Prop :=
  Forall2 (λ p p', ∃ t, p' = with_type p t) plan plan'.

(** [Math.max(0, Math.min(config.pbqCount, 12))], and the passes of the loop
    that injects the PBQs. *)
Definition clamped (config : SessionConfig) : Double.number :=
  Double.max (Double.Finite 0) (Double.min (pbqCount config) (Double.Finite 12)).

Definition injections (config : SessionConfig) : nat :=
  default 0%nat (Double.passes (clamped config)).

(** The blueprint [buildPlan] selects for a core. *)
Definition blueprint_of (core : CoreId) : list DomainBlueprint :=
  match core with
  | Core_220_1201 => CORE1_BLUEPRINT
  | Core_220_1202 => CORE2_BLUEPRINT
  end.
End PlanVocabulary.

Section ScoringVocabulary.
Import ExamTypes Scoring.

(** The entry of [scored] for a question. *)
Definition verdict (answers : AnswerMap) (pbqState : option (gmap string PbqAnswer))
    (q : Question) : ScoredQuestion :=
  {| questionId := q_id q; isCorrect := judge q answers pbqState |}.
End ScoringVocabulary.

Section RetryVocabulary.
Import ExamTypes Generate.

(** The request of the first attempt and the request of the retry after the
    failure [err]. *)
Definition first_request (model : string) (items : list PlanItem) (difficulty : Difficulty)
    : Body :=
  {| b_model := model;
     b_system := join_lines (baseSystem (length items));
     b_difficulty := difficulty;
     b_items := payloadItem <$> items |}.

Definition retry_request (model : string) (items : list PlanItem) (difficulty : Difficulty)
    (err : string) : Body :=
  {| b_model := model;
     b_system :=
       join_lines (baseSystem (length items)
                   ++ [""; "Your previous output was invalid.";
                       "Fix the JSON and re-output per contract. Error: "
                       +:+ String.substring 0 500 err]);
     b_difficulty := difficulty;
     b_items := payloadItem <$> items |}.
End RetryVocabulary.

Section Sums.
Context {A : Type}.

(** The sum of [f] over a list. *)
Definition Zsum (f : A → Z) (l : list A) : Z := foldr (λ x s, f x + s) 0 l.
End Sums.

Section AggregateVocabulary.
Import ExamTypes Scoring.

(** The sums of the [correct] and the [total] counters of [domainAgg]. *)
Definition agg_correct (m : gmap string (Z * Z)) : Z :=
  Zsum (λ e : string * (Z * Z), fst (snd e)) (map_to_list m).

Definition agg_total (m : gmap string (Z * Z)) : Z :=
  Zsum (λ e : string * (Z * Z), snd (snd e)) (map_to_list m).

(** The property names every object inherits from [Object.prototype].
    [domainAgg] is an object literal, so [domainAgg[name]] is defined for these
    names before the loop has stored anything. *)
Definition Object_prototype_names : list string :=
  ["constructor"; "__proto__"; "hasOwnProperty"; "isPrototypeOf";
   "propertyIsEnumerable"; "toLocaleString"; "toString"; "valueOf";
   "__defineGetter__"; "__defineSetter__"; "__lookupGetter__"; "__lookupSetter__"].

(** No question of the session has such a name for its domain. *)
Definition own_domains (session : ExamSession) : Prop :=
  Forall (λ q, q_domain q ∉ Object_prototype_names) (questions session).

(** The questions of a domain, and those of them that are judged correct. *)
Definition of_domain (d : string) (qs : list Question) : list Question :=
  filter (λ q, q_domain q = d) qs.

Definition correct_of_domain (answers : AnswerMap)
    (pbqState : option (gmap string PbqAnswer)) (d : string) (qs : list Question)
    : list Question :=
  filter (λ q, judge q answers pbqState = true) (of_domain d qs).
End AggregateVocabulary.

Section NormalizerVocabulary.
Import ExamTypes Planner.

(** The types the normalizer has a branch for. *)
Definition known_type (it : RawItem) : Prop :=
  it_type it ∈ ["single"; "multi"; "pbq-order"; "pbq-match"].

(** The id of the question made from the item at index [j] of the input. *)
Definition question_id (sessionId : string) (j : nat) : string :=
  sessionId +:+ "-q-" +:+ pretty (S j).

(** The index [i] names an entry of the array [arr]. *)
Definition in_range {A : Type} (arr : list A) (i : Z) : Prop :=
  0 ≤ i < Z.of_nat (length arr).
End NormalizerVocabulary.

Section PlanShapeVocabulary.
Import ExamTypes Planner.





(** The allocation of [EXAM_QUESTION_COUNT] over the blueprint of a core. *)
Definition allocation_of (core : Objectives.CoreId) : gmap string Z :=
  match core with
  | Objectives.Core_220_1201 =>
      list_to_map [("1.0", 12); ("2.0", 21); ("3.0", 22); ("4.0", 10); ("5.0", 25)]
  | Objectives.Core_220_1202 =>
      list_to_map [("1.0", 25); ("2.0", 25); ("3.0", 21); ("4.0", 19)]
  end.
End PlanShapeVocabulary.

Section BatchVocabulary.
Import Generate.

(** [v] is an array of [lo] to [hi] elements. *)
Definition array_within (v : option json) (lo hi : nat) : Prop :=
  ∃ n, array_length v = Some n ∧ (lo ≤ n ≤ hi)%nat.

(** What [validateBatch] asks of an item: the common fields, a known type,
    and the arrays of that type within their bounds. *)
Definition well_shaped (q : json) : Prop :=
  Forall (λ k, is_Some (property q k)) reqBase
  ∧ is_Some (array_length (property q "objectiveBullets"))
  ∧ let type := string_value (property q "type") in
    ((type = Some "single" ∨ type = Some "multi")
     ∧ array_within (property q "options") 4 6
     ∧ array_within (property q "correctIndices") 1 3)
    ∨ (type = Some "pbq-order"
       ∧ array_within (property q "orderItems") 4 8
       ∧ is_Some (array_length (property q "correctOrder"))
       ∧ array_length (property q "correctOrder") = array_length (property q "orderItems"))
    ∨ (type = Some "pbq-match"
       ∧ array_within (property q "left") 3 8
       ∧ array_within (property q "right") 3 8
       ∧ ∃ n, array_length (property q "correctPairs") = Some n ∧ (1 ≤ n)%nat).
End BatchVocabulary.

Section LimiterVocabulary.
Import Handler.

Definition allowed (r : limit_result) : bool :=
  match r with Allowed _ => true | Refused _ => false end.

(** The requests of one client at the times [times], one after the other:
    which of them were allowed, and the map after the last. *)
Fixpoint requests (h : Headers) (times : list Z) (rate : gmap string RateEntry)
    : list bool * gmap string RateEntry :=
  match times with
  | [] => ([], rate)
  | now :: rest =>
      let r := enforceRateLimit h now rate in
      let rs := requests h rest (snd r) in
      (allowed (fst r) :: fst rs, snd rs)
  end.

(** Every client on record has made between one and [RATE_LIMIT] requests
    in its window. *)
Definition counts_in_range (rate : gmap string RateEntry) : Prop :=
  ∀ ip e, rate !! ip = Some e → 1 ≤ count e ≤ RATE_LIMIT.
End LimiterVocabulary.

Section ClientVocabulary.
Import Text Handler.

(** A text without white space and without a comma. *)
Fixpoint plain (s : string) : bool :=
  match s with
  | EmptyString => true
  | String c s' => negb (is_space c) && negb (Ascii.eqb c ",") && plain s'
  end.





End ClientVocabulary.

Section OfflineVocabulary.
Import ExamTypes Planner Offline.

(** The id of the [k]-th offline question of a session, counting from 0. *)
Definition offline_id (sessionId : string) (k : nat) : string :=
  sessionId +:+ "-" +:+ "offline-" +:+ pad3 (S k).

(** The type of the offline question made for a plan item of the type
    [planned]. *)
Definition made_as (planned made : QuestionType) : Prop :=
  match planned with
  | single => made = single
  | multi => made = multi ∨ made = single
  | pbq_order | pbq_match => made = pbq_order ∨ made = pbq_match
  end.

(** The offline question [q] was made for the plan item [p]. *)
Definition made_for (core : Objectives.CoreId) (p : QuestionPlanItem) (q : Question) : Prop :=
  q_core q = core
  ∧ q_domain q = p_domainLabel p
  ∧ q_objective q = p_objectiveId p
  ∧ q_objectiveTitle q = p_objectiveTitle p
  ∧ q_objectiveBullets q = p_objectiveBullets p
  ∧ made_as (p_type p) (q_type q).
End OfflineVocabulary.

Section PbqVocabulary.
Import ExamTypes Scoring.

(** The [pbqState] in which the PBQ [id] has the order [steps], and the one
    in which it has the pairs [chosen]. *)
Definition ordered_as (id : string) (steps : list string) : option (gmap string PbqAnswer) :=
  Some {[ id := {| order := Some steps; pairs := None |} ]}.

Definition paired_as (id : string) (chosen : list string) : option (gmap string PbqAnswer) :=
  Some {[ id := {| order := None; pairs := Some chosen |} ]}.

(** [`${l}=>${r}`] *)
Definition pair_text (p : string * string) : string := fst p +:+ "=>" +:+ snd p.
End PbqVocabulary.

Section ViewVocabulary.
Import ExamTypes View.

(** A press of the Up ([dir = -1]) or the Down ([dir = 1]) button of the
    row [i]. *)
Definition presses (question : Question) (ms : list (nat * Z)) (pbqState : PbqState)
    : PbqState :=
  foldl (λ st m, move question (fst m) (snd m) st) pbqState ms.

(** The buttons of a component with [n] rows, and those that are not
    disabled. *)
Definition row_press (n : nat) (m : nat * Z) : Prop :=
  (fst m < n)%nat ∧ (snd m = -1 ∨ snd m = 1).

Definition enabled_press (n : nat) (m : nat * Z) : Prop :=
  (fst m < n)%nat
  ∧ ((snd m = -1 ∧ (0 < fst m)%nat) ∨ (snd m = 1 ∧ (fst m + 1 < n)%nat)).

(** The entry [move] writes for the rows [rows]. *)
Definition order_entry (rows : list Entry) : PbqEntry :=
  {| orderItems := Some rows; View.order := Some (e_text <$> rows);
     map := None; View.pairs := None |}.

(** The selections [setPair(l, r)] for the pairs of [choices], one after
    the other. *)
Definition selections (question : Question) (choices : list (string * string))
    (pbqState : PbqState) : PbqState :=
  foldl (λ st lr, setPair question (fst lr) (snd lr) st) pbqState choices.
End ViewVocabulary.

Section MatchVocabulary.
Import ExamTypes View.

(** The [map] of a match component after the selections [choices]: a later
    selection for a left text replaces the earlier one. *)
Definition chosen (choices : list (string * string)) : gmap string string :=
  foldl (λ m lr, <[fst lr := snd lr]> m) ∅ choices.

(** The entry [setPair] writes for the map [m]. *)
Definition match_entry (m : gmap string string) : PbqEntry :=
  {| orderItems := None; View.order := None; map := Some m;
     View.pairs := Some (pair_text <$> map_to_list m) |}.
End MatchVocabulary.

Section CatalogueVocabulary.
Import Objectives Planner.
Variable OBJECTIVES : CoreId → list (string * ObjectiveMeta).

(** The title and the bullets of a plan item are those the catalogue has for
    its objective, or the placeholder title and no bullets when the catalogue
    does not have the objective. *)
Definition described (core : CoreId) (p : QuestionPlanItem) : Prop :=
  p_objectiveTitle p
  = from_option meta_title ("Objective " +:+ p_objectiveId p)
      (getObjectiveMeta OBJECTIVES core (p_objectiveId p))
  ∧ p_objectiveBullets p
    = from_option meta_bullets [] (getObjectiveMeta OBJECTIVES core (p_objectiveId p)).
End CatalogueVocabulary.

Section CoverageVocabulary.
Import ExamTypes Scoring Coverage.

(** The record [agg] after the loop over the questions. *)
Definition coverage_agg (session : ExamSession) (result : ExamResult)
    : gmap string ObjectiveAgg :=
  foldl (count result) ∅ (questions session).

(** The questions of an objective, and those of them that were missed. *)
Definition of_objective (o : string) (qs : list Question) : list Question :=
  filter (λ q, q_objective q = o) qs.

Definition missed_of (result : ExamResult) (o : string) (qs : list Question)
    : list Question :=
  filter (λ q, ok result q = false) (of_objective o qs).

(** No objective of the session is a name inherited from
    [Object.prototype]: [agg] is an object literal, too. *)
Definition own_objectives (session : ExamSession) : Prop :=
  Forall (λ q, q_objective q ∉ Object_prototype_names) (questions session).

(** The two counters of an entry. *)
Definition tally_of (e : ObjectiveAgg) : Z * Z := (total e, missed e).
End CoverageVocabulary.

(** * Sample inputs *)




Definition five_keys_blueprint : list Planner.DomainBlueprint :=
  (λ k, {| Planner.domainNumber := k; Planner.domainLabel := k; Planner.weight := 1 |})
  <$> ["A"; "B"; "C"; "D"; "E"].



Definition no_objectives (core : Objectives.CoreId)
    : list (string * Objectives.ObjectiveMeta) := [].

Definition default_config : ExamTypes.SessionConfig :=
  {| ExamTypes.pbqCount := Double.Finite 5; ExamTypes.showObjectiveHints := false;
     ExamTypes.difficulty := ExamTypes.medium |}.


Definition hard_config : ExamTypes.SessionConfig :=
  {| ExamTypes.pbqCount := Double.Finite 12; ExamTypes.showObjectiveHints := true;
     ExamTypes.difficulty := ExamTypes.medium |}.

Definition session_of (qs : list ExamTypes.Question) : ExamTypes.ExamSession :=
  {| ExamTypes.sessionId := "s"; ExamTypes.core := Objectives.Core_220_1201;
     ExamTypes.durationSeconds := 5400; ExamTypes.config := default_config;
     ExamTypes.questions := qs |}.

Definition sample_choice : ExamTypes.Question :=
  {| ExamTypes.q_id := "s-q-1"; ExamTypes.q_core := Objectives.Core_220_1201;
     ExamTypes.q_domain := "1.0"; ExamTypes.q_objective := "1.1";
     ExamTypes.q_objectiveTitle := "Objective 1.1"; ExamTypes.q_objectiveBullets := [];
     ExamTypes.q_focus := None; ExamTypes.q_type := ExamTypes.multi;
     ExamTypes.q_prompt := "Pick two";
     ExamTypes.q_options :=
       Some [ {| ExamTypes.e_id := "o1"; ExamTypes.e_text := "a" |};
              {| ExamTypes.e_id := "o2"; ExamTypes.e_text := "b" |};
              {| ExamTypes.e_id := "o3"; ExamTypes.e_text := "c" |};
              {| ExamTypes.e_id := "o4"; ExamTypes.e_text := "d" |} ];
     ExamTypes.q_correct := ["o1"; "o3"];
     ExamTypes.q_explanation := "";
     ExamTypes.q_pbq := None |}.

Definition sample_order : ExamTypes.Question :=
  {| ExamTypes.q_id := "s-q-2"; ExamTypes.q_core := Objectives.Core_220_1201;
     ExamTypes.q_domain := "5.0"; ExamTypes.q_objective := "5.1";
     ExamTypes.q_objectiveTitle := "Objective 5.1"; ExamTypes.q_objectiveBullets := [];
     ExamTypes.q_focus := None; ExamTypes.q_type := ExamTypes.pbq_order;
     ExamTypes.q_prompt := "Order the steps";
     ExamTypes.q_options := None;
     ExamTypes.q_correct := ["identify"; "theory"; "test"; "plan"];
     ExamTypes.q_explanation := "";
     ExamTypes.q_pbq :=
       Some (ExamTypes.PbqOrder
               [ {| ExamTypes.e_id := "s2"; ExamTypes.e_text := "theory" |};
                 {| ExamTypes.e_id := "s1"; ExamTypes.e_text := "identify" |};
                 {| ExamTypes.e_id := "s4"; ExamTypes.e_text := "plan" |};
                 {| ExamTypes.e_id := "s3"; ExamTypes.e_text := "test" |} ]) |}.

Definition transposed_state : option (gmap string Scoring.PbqAnswer) :=
  Some {[ "s-q-2" := {| Scoring.order := Some ["theory"; "identify"; "test"; "plan"];
                        Scoring.pairs := None |} ]}.

Definition plain_item : Planner.RawItem :=
  {| Planner.it_type := "single"; Planner.it_domain := "1.0 Mobile Devices";
     Planner.it_objectiveId := "1.1"; Planner.it_objectiveTitle := "Objective 1.1";
     Planner.it_objectiveBullets := []; Planner.it_prompt := "Which one?";
     Planner.it_explanation := "Because.";
     Planner.it_options := Some ["a"; "b"; "c"; "d"];
     Planner.it_correctIndices := Some [0];
     Planner.it_orderItems := None; Planner.it_correctOrder := None;
     Planner.it_left := None; Planner.it_right := None;
     Planner.it_leftLabel := ""; Planner.it_rightLabel := "";
     Planner.it_correctPairs := None |}.

(** A generation whose plan is done and that holds [n] collected items. *)
Definition finished_generation (n : nat) : App.GenerationPersisted :=
  {| App.g_sessionId := "s"; App.g_core := Objectives.Core_220_1201;
     App.g_config := default_config; App.g_plan := [];
     App.g_rawItems := replicate n plain_item; App.g_nextIndex := 0;
     App.g_batchSize := 10; App.g_lastError := None |}.

Definition no_backend (req : App.GenerateRequest) : App.generated :=
  App.Rejected "Error" "Generate failed (500): ".

Definition as_listed (steps : list ExamTypes.Entry) : list ExamTypes.Entry := steps.

(** A pbq-match item whose only pair names the right entry 7 of three. *)
Definition stray_right_index : Planner.RawItem :=
  {| Planner.it_type := "pbq-match"; Planner.it_domain := "2.0 Networking";
     Planner.it_objectiveId := "2.1"; Planner.it_objectiveTitle := "Ports";
     Planner.it_objectiveBullets := []; Planner.it_prompt := "Match the ports.";
     Planner.it_explanation := "See the table.";
     Planner.it_options := None; Planner.it_correctIndices := None;
     Planner.it_orderItems := None; Planner.it_correctOrder := None;
     Planner.it_left := Some ["22"; "53"; "80"];
     Planner.it_right := Some ["SSH"; "DNS"; "HTTP"];
     Planner.it_leftLabel := "Port"; Planner.it_rightLabel := "Service";
     Planner.it_correctPairs := Some [(0, 7)] |}.

(** The same item with the stray index on the left. *)
Definition stray_left_index : Planner.RawItem :=
  {| Planner.it_type := "pbq-match"; Planner.it_domain := "2.0 Networking";
     Planner.it_objectiveId := "2.1"; Planner.it_objectiveTitle := "Ports";
     Planner.it_objectiveBullets := []; Planner.it_prompt := "Match the ports.";
     Planner.it_explanation := "See the table.";
     Planner.it_options := None; Planner.it_correctIndices := None;
     Planner.it_orderItems := None; Planner.it_correctOrder := None;
     Planner.it_left := Some ["22"; "53"; "80"];
     Planner.it_right := Some ["SSH"; "DNS"; "HTTP"];
     Planner.it_leftLabel := "Port"; Planner.it_rightLabel := "Service";
     Planner.it_correctPairs := Some [(7, 0)] |}.

(** A backend that answers every request with an empty batch. *)
Definition parse_empty_batch (text : string) : Generate.json + string :=
  inl (Generate.JObject [("items", Generate.JArray [])]).

Definition empty_batch_response : Generate.json :=
  Generate.JObject [("output_text", Generate.JString "{}")].

Definition fetch_empty_batch (attempt : nat) (body : Generate.Body) : Generate.response :=
  Generate.Data empty_batch_response.

Definition one_plan_item : list Generate.PlanItem := [
  {| Generate.domainNumber := "1.0"; Generate.domainLabel := "Mobile Devices";
     Generate.objectiveId := "1.1"; Generate.objectiveTitle := "Objective 1.1";
     Generate.objectiveBullets := []; Generate.type := ExamTypes.single |}
].

Definition empty_batch_error : string := "'items' length 0 !== expected 1.".

Definition small_catalogue (core : Objectives.CoreId)
    : list (string * Objectives.ObjectiveMeta) := [
  ("1.1", {| Objectives.meta_domain := "1.0"; Objectives.meta_title := "Laptop hardware";
             Objectives.meta_bullets := ["Battery"; "Keyboard   and keys"; "RAM"; "Storage "] |});
  ("2.1", {| Objectives.meta_domain := "2.0"; Objectives.meta_title := "Ports";
             Objectives.meta_bullets := ["SSH"; "DNS"; "HTTP"] |})
].

Definition small_plan : list Planner.QuestionPlanItem := [
  {| Planner.p_domainNumber := "1.0"; Planner.p_domainLabel := "Mobile Devices";
     Planner.p_objectiveId := "1.1"; Planner.p_objectiveTitle := "Laptop hardware";
     Planner.p_objectiveBullets := ["Battery"; "Keyboard   and keys"; "RAM"; "Storage "];
     Planner.p_type := ExamTypes.single |};
  {| Planner.p_domainNumber := "2.0"; Planner.p_domainLabel := "Networking";
     Planner.p_objectiveId := "2.1"; Planner.p_objectiveTitle := "Ports";
     Planner.p_objectiveBullets := ["SSH"; "DNS"; "HTTP"];
     Planner.p_type := ExamTypes.multi |};
  {| Planner.p_domainNumber := "2.0"; Planner.p_domainLabel := "Networking";
     Planner.p_objectiveId := "2.1"; Planner.p_objectiveTitle := "Ports";
     Planner.p_objectiveBullets := ["SSH"; "DNS"; "HTTP"];
     Planner.p_type := ExamTypes.pbq_match |}
].

(** A choice item whose only correct index names none of its four options. *)
Definition keyless_item : Planner.RawItem :=
  {| Planner.it_type := "single"; Planner.it_domain := "1.0 Mobile Devices";
     Planner.it_objectiveId := "1.1"; Planner.it_objectiveTitle := "Objective 1.1";
     Planner.it_objectiveBullets := []; Planner.it_prompt := "Which one?";
     Planner.it_explanation := "Because.";
     Planner.it_options := Some ["a"; "b"; "c"; "d"];
     Planner.it_correctIndices := Some [4];
     Planner.it_orderItems := None; Planner.it_correctOrder := None;
     Planner.it_left := None; Planner.it_right := None;
     Planner.it_leftLabel := ""; Planner.it_rightLabel := "";
     Planner.it_correctPairs := None |}.

(** A multi-select item whose correct indices name the first option twice,
    as the normalizer reads it and as the JSON that [validateBatch] checks. *)
Definition repeated_index_item : Planner.RawItem :=
  {| Planner.it_type := "multi"; Planner.it_domain := "1.0 Mobile Devices";
     Planner.it_objectiveId := "1.1"; Planner.it_objectiveTitle := "Objective 1.1";
     Planner.it_objectiveBullets := []; Planner.it_prompt := "Which ones?";
     Planner.it_explanation := "Because.";
     Planner.it_options := Some ["a"; "b"; "c"; "d"];
     Planner.it_correctIndices := Some [0; 0];
     Planner.it_orderItems := None; Planner.it_correctOrder := None;
     Planner.it_left := None; Planner.it_right := None;
     Planner.it_leftLabel := ""; Planner.it_rightLabel := "";
     Planner.it_correctPairs := None |}.

Definition repeated_index_json : Generate.json :=
  Generate.JObject
    [ ("type", Generate.JString "multi");
      ("domain", Generate.JString "1.0 Mobile Devices");
      ("objectiveId", Generate.JString "1.1");
      ("objectiveTitle", Generate.JString "Objective 1.1");
      ("objectiveBullets", Generate.JArray []);
      ("prompt", Generate.JString "Which ones?");
      ("explanation", Generate.JString "Because.");
      ("options", Generate.JArray [Generate.JString "a"; Generate.JString "b";
                                   Generate.JString "c"; Generate.JString "d"]);
      ("correctIndices", Generate.JArray [Generate.JNumber 0%Q; Generate.JNumber 0%Q]) ].

(** A request for one item, a cache key that is the core, and a generator
    that returns an empty batch without sending anything. *)
Definition one_item_request : Handler.Request :=
  {| Handler.method := "POST";
     Handler.req_headers :=
       {| Handler.x_forwarded_for := Some "10.0.0.7, 10.0.0.1";
          Handler.x_real_ip := None; Handler.remoteAddress := None |};
     Handler.body :=
       Handler.BodyRead
         {| Handler.rb_core := "220-1201"; Handler.rb_difficulty := "hard";
            Handler.rb_items :=
              [ {| Handler.ri_domainNumber := "1.0";
                   Handler.ri_domainLabel := "Mobile Devices";
                   Handler.ri_objectiveId := "1.1";
                   Handler.ri_objectiveTitle := "Objective 1.1";
                   Handler.ri_objectiveBullets := [];
                   Handler.ri_type := Some ExamTypes.single |} ];
            Handler.rb_generationId := None; Handler.rb_batchIndex := Some 0 |} |}.

Definition key_by_core (core : string) (items : list Handler.RequestItem)
    (diff : ExamTypes.Difficulty) (generationId : option string) (batchIndex : option Z)
    : string := core.

Definition silent_generator (model : string) (items : list Generate.PlanItem)
    (difficulty : ExamTypes.Difficulty) : Generate.outcome * list Generate.Body :=
  (Generate.Returns [Generate.JNull], []).

Definition clock_at (t : Z) : Handler.Clock :=
  {| Handler.at_limit := t; Handler.at_lookup := t; Handler.at_store := t + 2000 |}.

Definition cold_start : Handler.State := {| Handler.cache := ∅; Handler.rate := ∅ |}.

(** A multi-select plan item with three usable bullets. *)
Definition ports_item : Planner.QuestionPlanItem :=
  {| Planner.p_domainNumber := "2.0"; Planner.p_domainLabel := "Networking";
     Planner.p_objectiveId := "2.1"; Planner.p_objectiveTitle := "Ports";
     Planner.p_objectiveBullets := ["SSH"; "DNS"; "HTTP"];
     Planner.p_type := ExamTypes.multi |}.

(** A matching question over three ports. *)
Definition ports_match : ExamTypes.Question :=
  {| ExamTypes.q_id := "s-q-3"; ExamTypes.q_core := Objectives.Core_220_1201;
     ExamTypes.q_domain := "2.0"; ExamTypes.q_objective := "2.1";
     ExamTypes.q_objectiveTitle := "Ports"; ExamTypes.q_objectiveBullets := [];
     ExamTypes.q_focus := None; ExamTypes.q_type := ExamTypes.pbq_match;
     ExamTypes.q_prompt := "Match the ports.";
     ExamTypes.q_options := None;
     ExamTypes.q_correct := ["22=>SSH"; "53=>DNS"; "80=>HTTP"];
     ExamTypes.q_explanation := "";
     ExamTypes.q_pbq :=
       Some (ExamTypes.PbqMatch "Port" "Service"
               [ {| ExamTypes.e_id := "l1"; ExamTypes.e_text := "22" |};
                 {| ExamTypes.e_id := "l2"; ExamTypes.e_text := "53" |};
                 {| ExamTypes.e_id := "l3"; ExamTypes.e_text := "80" |} ]
               [ {| ExamTypes.e_id := "r1"; ExamTypes.e_text := "SSH" |};
                 {| ExamTypes.e_id := "r2"; ExamTypes.e_text := "DNS" |};
                 {| ExamTypes.e_id := "r3"; ExamTypes.e_text := "HTTP" |} ]) |}.

(** * Properties *)

(** ** Lists *)
Section Lists.
Context {A : Type} (P : A → Prop) `{∀ x, Decision (P x)}.

Lemma filter_nil_iff (l : list A) : filter P l = [] ↔ Forall (λ x, ¬ P x) l.
Proof.
  induction l as [|x l IH]; [by split; [constructor|]|].
  rewrite filter_cons, Forall_cons. destruct (decide (P x)) as [HP|HP].
  - split; [done|]. by intros [? _].
  - rewrite IH. tauto.
Qed.

Lemma filter_none (l : list A) : Forall (λ x, ¬ P x) l → filter P l = [].
Proof. apply filter_nil_iff. Qed.

Lemma filter_all (l : list A) : Forall P l → filter P l = l.
Proof.
  induction 1 as [|x l Hx _ IH]; [done|]. by rewrite filter_cons, decide_True, IH.
Qed.
End Lists.

Lemma StronglySorted_weaken {A : Type} (R S : relation A) (l : list A) :
  (∀ a b, R a b → S a b) → StronglySorted R l → StronglySorted S l.
Proof.
  intros HRS. induction 1 as [|x l Hl IH Hx]; constructor; [done|].
  eapply Forall_impl; [exact Hx|]. intros b. apply HRS.
Qed.

(** ** Doubles *)
Section DoubleFacts.
Import Double.
Local Open Scope Q_scope.




Lemma pow2_pos (e : Z) : 0 < 2 ^ e.
Proof. by apply Qpower_0_lt. Qed.


Lemma pow2_sub (a b : Z) : 2 ^ (a - b) == 2 ^ a / 2 ^ b.
Proof. by apply Qpower_minus. Qed.


Lemma pow2_Z (n : Z) : (0 ≤ n)%Z → 2 ^ n == inject_Z (2 ^ n).
Proof. intros Hn. by rewrite (Zpower_Qpower 2 n Hn). Qed.

Lemma pow2_le (a b : Z) : (a ≤ b)%Z → 2 ^ a <= 2 ^ b.
Proof. intros H. by apply Qpower_le_compat_l. Qed.

Lemma pow2_lt (a b : Z) : (a < b)%Z → 2 ^ a < 2 ^ b.
Proof. intros H. by apply Qpower_lt_compat_l. Qed.

Lemma pow2_lt_inv (a b : Z) : 2 ^ a < 2 ^ b → (a < b)%Z.
Proof. intros H. by apply (Qpower_lt_compat_l_inv 2). Qed.

Lemma pow2_le_inv (a b : Z) : 2 ^ a <= 2 ^ b → (a ≤ b)%Z.
Proof. intros H. by apply (Qpower_le_compat_l_inv 2). Qed.

Lemma inject_Z_pos (z : Z) : (0 < z)%Z → 0 < inject_Z z.
Proof. intros H. unfold Qlt. simpl. lia. Qed.

Lemma Qabs_as_quotient (q : Q) :
  Qabs q == inject_Z (Z.abs (Qnum q)) / inject_Z (Zpos (Qden q)).
Proof. destruct q as [n d]. simpl. apply Qmake_Qdiv. Qed.

Lemma binade_rough (q : Q) :
  ¬ q == 0 →
  let g := (Z.log2 (Z.abs (Qnum q)) - Z.log2 (Zpos (Qden q)))%Z in
  2 ^ (g - 1) < Qabs q ∧ Qabs q < 2 ^ (g + 1).
Proof.
  intros Hq g. subst g.
  assert (0 < Z.abs (Qnum q))%Z as Hn.
  { destruct q as [n d]. unfold Qeq in Hq. simpl in *. lia. }
  set (n := Z.abs (Qnum q)) in *. set (d := Zpos (Qden q)).
  assert (0 < d)%Z as Hd by (subst d; lia).
  pose proof (Z.log2_spec n Hn) as [Hn1 Hn2].
  pose proof (Z.log2_spec d Hd) as [Hd1 Hd2].
  pose proof (Z.log2_nonneg n) as Ha. pose proof (Z.log2_nonneg d) as Hb.
  set (a := Z.log2 n) in *. set (b := Z.log2 d) in *.
  rewrite Qabs_as_quotient. fold n d.
  replace (a - b - 1)%Z with (a - (b + 1))%Z by lia.
  replace (a - b + 1)%Z with (a + 1 - b)%Z by lia.
  rewrite !pow2_sub, !pow2_Z by lia.
  replace (Z.succ a) with (a + 1)%Z in * by lia.
  replace (Z.succ b) with (b + 1)%Z in * by lia.
  assert (0 < inject_Z d) as HD by (apply inject_Z_pos; lia).
  assert (0 < inject_Z (2 ^ b)) as HB by (apply inject_Z_pos; lia).
  assert (0 < inject_Z (2 ^ (b + 1))) as HB' by (apply inject_Z_pos; lia).
  split.
  - apply Qlt_shift_div_l; [done|]. unfold Qdiv.
    rewrite <- Qmult_assoc, (Qmult_comm (/ _)), Qmult_assoc.
    apply Qlt_shift_div_r; [done|].
    rewrite <- !inject_Z_mult, <- Zlt_Qlt. nia.
  - apply Qlt_shift_div_r; [done|]. unfold Qdiv.
    rewrite <- Qmult_assoc, (Qmult_comm (/ _)), Qmult_assoc.
    apply Qlt_shift_div_l; [done|].
    rewrite <- !inject_Z_mult, <- Zlt_Qlt. nia.
Qed.

Lemma binade_spec (q : Q) :
  ¬ q == 0 → 2 ^ binade q <= Qabs q ∧ Qabs q < 2 ^ (binade q + 1).
Proof.
  intros Hq. destruct (binade_rough q Hq) as [Hlo Hhi]. cbv zeta in Hlo, Hhi.
  unfold binade. set (g := (Z.log2 _ - Z.log2 _)%Z) in *.
  destruct (Qle_bool (2 ^ g) (Qabs q)) eqn:E.
  - apply Qle_bool_iff in E. done.
  - split; [by apply Qlt_le_weak|].
    replace (g - 1 + 1)%Z with g by lia.
    apply Qnot_le_lt. intros H. apply Qle_bool_iff in H. congruence.
Qed.

Lemma binade_unique (q : Q) (b : Z) :
  2 ^ b <= Qabs q → Qabs q < 2 ^ (b + 1) → binade q = b.
Proof.
  intros Hlo Hhi.
  assert (¬ q == 0) as Hq.
  { intros E. assert (Qabs q == 0) as E' by (by rewrite E).
    pose proof (pow2_pos b). lra. }
  destruct (binade_spec q Hq) as [Hlo' Hhi'].
  assert (binade q < b + 1)%Z by (apply pow2_lt_inv; lra).
  assert (b < binade q + 1)%Z by (apply pow2_lt_inv; lra).
  lia.
Qed.














End DoubleFacts.

Section RoundSign.
Import Double.
Local Open Scope Q_scope.


End RoundSign.

Section ShareError.
Import Double.
Local Open Scope Q_scope.
Variables w S T : Z.
Hypothesis sum_nonzero : S ≠ 0%Z.
Hypothesis small : (Z.abs (T * w) < 2 ^ 50)%Z.







End ShareError.

(** ** The weighted allocator *)
Section AllocatorArithmetic.
Import Planner.




End AllocatorArithmetic.

(** ** The stable sort in descending order of a measure *)
Section StableSort.
Context {A : Type} (m : A → Q).

Lemma desc_le (x y : A) : Qle_bool (desc m x y) 0 = true ↔ (m y <= m x)%Q.
Proof. rewrite Qle_bool_iff. unfold desc. split; intros; lra. Qed.

Lemma sort_insert_perm (x : A) (l : list A) :
  Planner.sort_insert (desc m) x l ≡ₚ x :: l.
Proof.
  induction l as [|y l IH]; simpl; [done|].
  destruct (Qle_bool (desc m x y) 0); [done|].
  rewrite IH. apply Permutation_swap.
Qed.

Lemma Array_sort_perm (l : list A) : Planner.Array_sort (desc m) l ≡ₚ l.
Proof.
  induction l as [|x l IH]; simpl; [done|].
  rewrite sort_insert_perm. by rewrite IH.
Qed.

Lemma precedes_cons (x : A) (l : list A) (a b : A) :
  precedes l a b → precedes (x :: l) a b.
Proof. intros (i & j & Hij & Hi & Hj). exists (S i), (S j). repeat split; [lia|done..]. Qed.

Lemma precedes_head (x : A) (l : list A) (b : A) :
  b ∈ l → precedes (x :: l) x b.
Proof.
  intros [j Hj]%list_elem_of_lookup. exists 0%nat, (S j). repeat split; [lia|done..].
Qed.

Lemma ranks_before_cons (x : A) (l : list A) (a b : A) :
  ranks_before m l a b → ranks_before m (x :: l) a b.
Proof. intros [H|[H1 H2]]; [by left|right; split; [done|by apply precedes_cons]]. Qed.

Lemma ranks_before_head (x : A) (l : list A) (b : A) :
  b ∈ l → (m b <= m x)%Q → ranks_before m (x :: l) x b.
Proof.
  intros Hb Hle. destruct (Qlt_le_dec (m b) (m x)) as [Hlt|Hge]; [by left|].
  right. split; [lra|by apply precedes_head].
Qed.

Lemma ranks_before_measure (l : list A) (a b : A) :
  ranks_before m l a b → (m b <= m a)%Q.
Proof. intros [H|[H _]]; lra. Qed.

Lemma sort_insert_sorted (x : A) (l s : list A) :
  (∀ y, y ∈ s → y ∈ l) →
  StronglySorted (ranks_before m (x :: l)) s →
  StronglySorted (ranks_before m (x :: l)) (Planner.sort_insert (desc m) x s).
Proof.
  intros Hsub Hs. induction Hs as [|y s Hs IH Hy]; simpl.
  - repeat constructor.
  - destruct (Qle_bool (desc m x y) 0) eqn:Hc.
    + apply desc_le in Hc. constructor; [by constructor|].
      constructor.
      * apply ranks_before_head; [apply Hsub; left|done].
      * rewrite Forall_forall in Hy |- *. intros z Hz.
        apply ranks_before_head; [apply Hsub; by right|].
        pose proof (ranks_before_measure _ _ _ (Hy z Hz)). lra.
    + assert (m x < m y)%Q as Hlt.
      { destruct (Qlt_le_dec (m x) (m y)) as [?|Hge]; [done|].
        apply desc_le in Hge. congruence. }
      constructor.
      * apply IH. intros z Hz. apply Hsub. by right.
      * rewrite Forall_forall in Hy |- *. intros z Hz.
        apply (elem_of_Permutation_proper _ _ _ (sort_insert_perm x s)) in Hz.
        apply elem_of_cons in Hz as [->|Hz]; [by left|by apply Hy].
Qed.

(** The sorted array lists its elements by descending measure, equal
    measures in their input order. *)
Lemma Array_sort_stable (l : list A) :
  StronglySorted (ranks_before m l) (Planner.Array_sort (desc m) l).
Proof.
  induction l as [|x l IH]; simpl; [constructor|].
  apply sort_insert_sorted.
  - intros y Hy. by rewrite Array_sort_perm in Hy.
  - clear -IH. induction IH as [|y s Hs IHs Hy]; constructor; [done|].
    eapply Forall_impl; [exact Hy|]. intros b. apply ranks_before_cons.
Qed.
End StableSort.

(** A sort looks at the sign of its comparator only. *)
Section SortSign.
Context {A : Type} (cmp cmp' : A → A → Q).
Hypothesis same_sign : ∀ x y, Qle_bool (cmp x y) 0 = Qle_bool (cmp' x y) 0.


End SortSign.

#[global] Instance Qlt_decision (a b : Q) : Decision (a < b)%Q.
Proof. unfold Qlt. apply _. Defined.

#[global] Instance Qle_decision (a b : Q) : Decision (a <= b)%Q.
Proof. unfold Qle. apply _. Defined.

(** The first [k] elements of an array in descending order of a measure *)
Section SortedPrefix.
Context {A : Type} (m : A → Q) (l : list A).
Hypothesis descending : StronglySorted (λ a b, (m b <= m a)%Q) l.


End SortedPrefix.

(** ** The [counts] record *)
Section CountsRecord.
Import Planner.











End CountsRecord.

(** ** The allocation itself *)
Section Allocation.
Import Planner.
Variable total : Z.










End Allocation.

Section AllocationFacts.
Import Planner.
Variable total : Z.
Variable bp : list DomainBlueprint.
Hypothesis weights_sum : total_weight bp ≠ 0.
Hypothesis keys_distinct : NoDup (domainNumber <$> bp).
Hypothesis small : Forall (λ d, Z.abs (total * weight d) < 2 ^ 50) bp.

Let S := total_weight bp.
Let raw := rawOf total S bp.
Let ranked := rankedOf total S bp.
Let sorted := Array_sort (desc rem) ranked.
Let remaining := total - foldl (λ s r, s + floor r) 0 raw.
Let first := take (Z.to_nat remaining) sorted.



Lemma ranked_lookup (i : nat) (d : DomainBlueprint) :
  bp !! i = Some d → ranked !! i = Some (entry total bp d).
Proof.
  intros H. unfold ranked, rankedOf, rawOf. rewrite map_map.
  change (map ?f ?l) with (f <$> l). by rewrite list_lookup_fmap, H.
Qed.



















End AllocationFacts.

(** ** The largest remainders *)
Section LargestRemainder.
Import Planner.
Variable total : Z.
Variable bp : list DomainBlueprint.
Hypothesis nonempty : bp ≠ [].
Hypothesis weights_positive : Forall (λ d, 0 < weight d) bp.
Hypothesis keys_distinct : NoDup (domainNumber <$> bp).
Hypothesis total_nonneg : 0 ≤ total.
Hypothesis bound : total * total_weight bp < 2 ^ 50.

Let S := total_weight bp.
Let ranked := rankedOf total S bp.
Let sorted := Array_sort (desc rem) ranked.
Let remaining := total - foldl (λ s r, s + floor r) 0 (rawOf total S bp).
Let first := take (Z.to_nat remaining) sorted.











End LargestRemainder.





(** The counts need not sum to a total that is too large for exact
    arithmetic in doubles: for [T = 5 * 2^60 + 1024] over five keys of weight
    1 every computed share is [2^60 + 256], which is more than a fifth of
    [T]; [remaining] is negative, the loop does not run, and the counts sum
    to [T + 256]. *)
Lemma allocateByWeight_overshoots_a_large_total :
  NoDup (Planner.domainNumber <$> five_keys_blueprint)
  ∧ Planner.total_weight five_keys_blueprint = 5
  ∧ ∃ counts,
      Planner.allocateByWeight (5 * 2 ^ 60 + 1024) five_keys_blueprint
      = Planner.Returned counts
      ∧ counts !! "A" = Some (2 ^ 60 + 256)
      ∧ Planner.sum_counts counts = 5 * 2 ^ 60 + 1024 + 256.
Proof.
  split; [compute_done|]. split; [done|].
  eexists. split; [vm_compute; reflexivity|]. split; reflexivity.
Qed.



(** ** The plan builder *)
Section Injections.
Import ExamTypes.

(** The loop that injects the PBQs ends, after at most 12 passes. *)
Lemma passes_clamped (config : SessionConfig) :
  Double.passes (clamped config) = Some (injections config)
  ∧ (injections config ≤ 12)%nat.
Proof.
  unfold injections, clamped. destruct (pbqCount config) as [q| |[|]]; simpl.
  - split; [done|].
    set (x := (if Qle_bool q 12 then q else 12)%Q).
    assert (x <= 12)%Q as Hx.
    { subst x. destruct (Qle_bool q 12%Q) eqn:E; [by apply Qle_bool_iff|lra]. }
    set (y := (if Qle_bool 0 x then x else 0)%Q).
    assert (y <= 12)%Q as Hy by (subst y; destruct (Qle_bool 0%Q x); lra).
    pose proof (Qceiling_resp_le _ _ Hy) as Hc. change (Qceiling 12%Q) with 12 in Hc. lia.
  - split; [done|]. vm_compute. lia.
  - split; [done|]. vm_compute. lia.
  - split; [done|]. vm_compute. lia.
Qed.

End Injections.

Section PlanBuilder.
Import Text Objectives ExamTypes Planner.
Variable OBJECTIVES : CoreId → list (string * ObjectiveMeta).
Variable source : nat → Q.
Hypothesis source_range : ∀ k, (0 <= source k)%Q ∧ (source k < 1)%Q.

Lemma bind_Some {A B : Type} (m : Random.Rnd A) (f : A → Random.Rnd B)
    (k k' : nat) (a : A) :
  m source k = Some (a, k') → Random.bind m f source k = f a source k'.
Proof. intros H. unfold Random.bind. by rewrite H. Qed.

Lemma randomBelow_lt (n k : nat) :
  (0 < n)%nat →
  ∃ i, Random.randomBelow n source k = Some (i, S k) ∧ (i < n)%nat.
Proof.
  intros Hn. destruct (source_range k) as [H0 H1].
  eexists. split; [reflexivity|].
  set (x := (source k * inject_Z (Z.of_nat n))%Q).
  assert (0 < inject_Z (Z.of_nat n))%Q as Hpos.
  { change 0%Q with (inject_Z 0). rewrite <- Zlt_Qlt. lia. }
  assert (0 <= x)%Q as Hx0 by (unfold x; apply Qmult_le_0_compat; lra).
  assert (x < inject_Z (Z.of_nat n))%Q as Hx1.
  { unfold x. rewrite <- (Qmult_1_l (inject_Z (Z.of_nat n))) at 2.
    apply Qmult_lt_compat_r; done. }
  pose proof (Qfloor_resp_le _ _ Hx0) as Hf0. change (Qfloor 0) with 0 in Hf0.
  assert (Qfloor x < Z.of_nat n) as Hf1.
  { rewrite Zlt_Qlt. eapply Qle_lt_trans; [apply Qfloor_le|done]. }
  lia.
Qed.

Lemma pickOne_elem {T : Type} (arr : list T) (k : nat) :
  arr ≠ [] → ∃ x, pickOne arr source k = Some (x, S k) ∧ x ∈ arr.
Proof.
  intros Hne. unfold pickOne.
  destruct (randomBelow_lt (length arr) k) as (i & Hi & Hlt).
  { destruct arr; [done|simpl; lia]. }
  rewrite (bind_Some _ _ _ _ _ Hi).
  destruct (lookup_lt_is_Some_2 arr i Hlt) as [x Hx]. rewrite Hx.
  exists x. split; [done|]. by eapply list_elem_of_lookup_2.
Qed.

Lemma planItem_ok (core : CoreId) (d : DomainBlueprint) (k : nat) :
  ∃ p k', planItem OBJECTIVES core d
            (listObjectivesByDomain OBJECTIVES core (domainNumber d)) source k = Some (p, k')
          ∧ item_of_domain OBJECTIVES core d p.
Proof.
  unfold planItem.
  destruct (listObjectivesByDomain OBJECTIVES core (domainNumber d)) as [|o ids] eqn:E.
  - eexists _, _. split; [reflexivity|]. unfold item_of_domain. rewrite E. simpl. auto.
  - destruct (pickOne_elem (o :: ids) k) as (x & Hx & Hin); [done|].
    rewrite (bind_Some _ _ _ _ _ Hx).
    eexists _, _. split; [reflexivity|]. unfold item_of_domain. rewrite E. simpl. auto.
Qed.

Lemma planDomain_ok (core : CoreId) (d : DomainBlueprint) (count : nat)
    (plan : list QuestionPlanItem) (k : nat) :
  ∃ new k', planDomain OBJECTIVES core d
              (listObjectivesByDomain OBJECTIVES core (domainNumber d)) count plan source k
            = Some (plan ++ new, k')
          ∧ length new = count ∧ Forall (item_of_domain OBJECTIVES core d) new.
Proof.
  revert plan k. induction count as [|count IH]; intros plan k; simpl.
  - exists [], k. by rewrite app_nil_r.
  - destruct (planItem_ok core d k) as (p & k1 & Hp & Hok).
    rewrite (bind_Some _ _ _ _ _ Hp).
    destruct (IH (plan ++ [p]) k1) as (new & k2 & Hnew & Hlen & Hall).
    exists (p :: new), k2. rewrite Hnew, <- app_assoc. simpl.
    split; [done|]. split; [by rewrite Hlen|by constructor].
Qed.

Lemma planDomains_ok (core : CoreId) (allocation : gmap string Z)
    (bp all : list DomainBlueprint) (plan : list QuestionPlanItem) (k : nat) :
  bp ⊆ all →
  ∃ new k', planDomains OBJECTIVES core allocation bp plan source k = Some (plan ++ new, k')
          ∧ length new
            = foldr (λ d n, Nat.add (Z.to_nat (default 0 (allocation !! domainNumber d))) n) 0%nat bp
          ∧ Forall (item_of_blueprint OBJECTIVES core all) new.
Proof.
  revert plan k. induction bp as [|d bp IH]; intros plan k Hsub; simpl.
  - exists [], k. by rewrite app_nil_r.
  - destruct (planDomain_ok core d
      (Z.to_nat (default 0 (allocation !! domainNumber d))) plan k)
      as (new1 & k1 & H1 & Hlen1 & Hall1).
    rewrite (bind_Some _ _ _ _ _ H1).
    destruct (IH (plan ++ new1) k1) as (new2 & k2 & H2 & Hlen2 & Hall2).
    { intros x Hx. apply Hsub. by right. }
    exists (new1 ++ new2), k2. rewrite H2, <- app_assoc.
    split; [done|]. split; [rewrite length_app; lia|].
    apply Forall_app. split; [|done].
    eapply Forall_impl; [exact Hall1|]. intros p Hp. exists d. split; [|done].
    apply Hsub. left.
Qed.

Lemma same_items_refl (plan : list QuestionPlanItem) : same_items plan plan.
Proof.
  induction plan as [|p plan IH]; constructor; [|done].
  exists (p_type p). by destruct p.
Qed.

Lemma same_items_trans (p1 p2 p3 : list QuestionPlanItem) :
  same_items p1 p2 → same_items p2 p3 → same_items p1 p3.
Proof.
  intros H12. revert p3. induction H12 as [|a b l1 l2 [t ->] _ IH]; intros p3 H23.
  - inversion H23. constructor.
  - inversion H23 as [|? c ? l3 [t' ->] Hrest]; subst. constructor; [|by apply IH].
    by exists t'.
Qed.

Lemma same_items_insert (plan : list QuestionPlanItem) (i : nat)
    (p : QuestionPlanItem) (t : QuestionType) :
  plan !! i = Some p → same_items plan (<[i := with_type p t]> plan).
Proof.
  revert i. induction plan as [|a plan IH]; intros i Hi; [done|].
  destruct i as [|i]; simpl in *.
  - injection Hi as ->. constructor; [by exists t|apply same_items_refl].
  - constructor; [|by apply IH]. exists (p_type a). by destruct a.
Qed.

Lemma injectPBQs_ok (n : nat) (plan : list QuestionPlanItem) (k : nat) :
  plan ≠ [] →
  ∃ plan' k', injectPBQs n plan source k = Some (plan', k') ∧ same_items plan plan'.
Proof.
  revert plan k. induction n as [|n IH]; intros plan k Hne; simpl.
  - eexists _, _. split; [reflexivity|apply same_items_refl].
  - destruct (randomBelow_lt (length plan) k) as (i & Hi & Hlt).
    { destruct plan; [done|simpl; lia]. }
    rewrite (bind_Some _ _ _ _ _ Hi). unfold Random.bind at 1. simpl.
    destruct (lookup_lt_is_Some_2 plan i Hlt) as [p Hp]. rewrite Hp.
    set (t := if Qle_bool (1 # 2) (source (S k)) then pbq_match else pbq_order).
    pose proof (same_items_insert plan i p t Hp) as Hsame.
    destruct (IH (<[i := with_type p t]> plan) (S (S k))) as (plan' & k' & H & Hs).
    { intros E. apply (f_equal length) in E. rewrite length_insert in E.
      destruct plan; simpl in *; [done|lia]. }
    exists plan', k'. split; [done|]. by eapply same_items_trans.
Qed.

Lemma sprinkleMulti_ok (n : nat) (plan : list QuestionPlanItem) (k : nat) :
  plan ≠ [] →
  ∃ plan' k', sprinkleMulti n plan source k = Some (plan', k') ∧ same_items plan plan'.
Proof.
  revert plan k. induction n as [|n IH]; intros plan k Hne; simpl.
  - eexists _, _. split; [reflexivity|apply same_items_refl].
  - destruct (randomBelow_lt (length plan) k) as (i & Hi & Hlt).
    { destruct plan; [done|simpl; lia]. }
    rewrite (bind_Some _ _ _ _ _ Hi).
    destruct (lookup_lt_is_Some_2 plan i Hlt) as [p Hp]. rewrite Hp.
    destruct (decide (p_type p = single)) as [Hs|Hs].
    + pose proof (same_items_insert plan i p multi Hp) as Hsame.
      destruct (IH (<[i := with_type p multi]> plan) (S k)) as (plan' & k' & H & Hs').
      { intros E. apply (f_equal length) in E. rewrite length_insert in E.
        destruct plan; simpl in *; [done|lia]. }
      exists plan', k'. split; [done|]. by eapply same_items_trans.
    + by apply IH.
Qed.

Lemma same_items_length (plan plan' : list QuestionPlanItem) :
  same_items plan plan' → length plan' = length plan.
Proof. intros H. symmetry. by eapply Forall2_length. Qed.

Lemma same_items_blueprint (core : CoreId) (bp : list DomainBlueprint)
    (plan plan' : list QuestionPlanItem) :
  same_items plan plan' →
  Forall (item_of_blueprint OBJECTIVES core bp) plan → Forall (item_of_blueprint OBJECTIVES core bp) plan'.
Proof.
  induction 1 as [|p p' l l' [t ->] _ IH]; intros Hall; [constructor|].
  inversion_clear Hall as [|? ? Hp Hl]. constructor; [|by apply IH].
  destruct Hp as (d & Hd & Hp). exists d. split; [done|]. exact Hp.
Qed.
End PlanBuilder.

Lemma core1_allocation :
  Planner.allocateByWeight Planner.EXAM_QUESTION_COUNT Planner.CORE1_BLUEPRINT
  = Planner.Returned
      (list_to_map [("1.0", 12); ("2.0", 21); ("3.0", 22); ("4.0", 10); ("5.0", 25)]).
Proof. vm_compute. reflexivity. Qed.

Lemma core2_allocation :
  Planner.allocateByWeight Planner.EXAM_QUESTION_COUNT Planner.CORE2_BLUEPRINT
  = Planner.Returned
      (list_to_map [("1.0", 25); ("2.0", 25); ("3.0", 21); ("4.0", 19)]).
Proof. vm_compute. reflexivity. Qed.

(** C7: for every core and configuration, and whatever [Math.random]
    returns within [0, 1), [buildPlan] returns a plan of exactly
    [EXAM_QUESTION_COUNT = 90] entries; each entry carries the number and
    label of a domain of the core's blueprint, an objective of that domain
    (the placeholder ["<domainMajor>.1"] when the domain has none) and an
    answer type. *)
Theorem buildPlan_has_90_entries
    (OBJECTIVES : Objectives.CoreId → list (string * Objectives.ObjectiveMeta))
    (source : nat → Q) (core : Objectives.CoreId) (config : ExamTypes.SessionConfig)
    (k : nat) :
  (∀ k, (0 <= source k)%Q ∧ (source k < 1)%Q) →
  ∃ plan k',
    Planner.buildPlan OBJECTIVES core config source k = Some (plan, k')
    ∧ Z.of_nat (length plan) = Planner.EXAM_QUESTION_COUNT
    ∧ Forall (item_of_blueprint OBJECTIVES core (blueprint_of core)) plan.
Proof.
  intros Hsrc. unfold Planner.buildPlan.
  assert (∃ allocation,
    Planner.allocateByWeight Planner.EXAM_QUESTION_COUNT (blueprint_of core)
      = Planner.Returned allocation
    ∧ foldr (λ d n, Nat.add (Z.to_nat (default 0 (allocation !! Planner.domainNumber d))) n)
        0%nat (blueprint_of core) = 90%nat) as (allocation & Halloc & Hsum).
  { destruct core; simpl.
    - rewrite core1_allocation. eexists. split; [reflexivity|]. vm_compute. reflexivity.
    - rewrite core2_allocation. eexists. split; [reflexivity|]. vm_compute. reflexivity. }
  change (match core with
          | Objectives.Core_220_1201 => Planner.CORE1_BLUEPRINT
          | Objectives.Core_220_1202 => Planner.CORE2_BLUEPRINT
          end) with (blueprint_of core).
  rewrite Halloc.
  destruct (planDomains_ok OBJECTIVES source Hsrc core allocation
              (blueprint_of core) (blueprint_of core) [] k)
    as (plan0 & k0 & H0 & Hlen0 & Hall0); [done|].
  rewrite (bind_Some source _ _ _ _ _ H0). simpl app.
  rewrite Hsum in Hlen0.
  assert (plan0 ≠ []) as Hne0 by (intros ->; simpl in Hlen0; lia).
  cbv zeta. fold (clamped config).
  rewrite (proj1 (passes_clamped config)).
  destruct (injectPBQs_ok source Hsrc (injections config) plan0 k0 Hne0)
    as (plan1 & k1 & H1 & Hs1).
  rewrite (bind_Some source _ _ _ _ _ H1).
  pose proof (same_items_length _ _ Hs1) as Hlen1.
  assert (plan1 ≠ []) as Hne1 by (intros ->; simpl in Hlen1; lia).
  set (multiCount := Z.to_nat (Z.min 10 _)).
  destruct (sprinkleMulti_ok source Hsrc multiCount plan1 k1 Hne1)
    as (plan2 & k2 & H2 & Hs2).
  rewrite (bind_Some source _ _ _ _ _ H2).
  pose proof (same_items_length _ _ Hs2) as Hlen2.
  eexists _, _. split; [reflexivity|]. split.
  - rewrite length_take. unfold Planner.EXAM_QUESTION_COUNT. lia.
  - apply Forall_take.
    eapply same_items_blueprint; [exact Hs2|].
    eapply same_items_blueprint; [exact Hs1|done].
Qed.

(** The theorem at core 220-1201 with an empty catalogue and a [Math.random]
    that always returns one half. *)
Lemma buildPlan_has_90_entries_witness :
  ∃ plan k',
    Planner.buildPlan no_objectives Objectives.Core_220_1201 default_config
      (λ _, 1 # 2)%Q 0%nat = Some (plan, k')
    ∧ Z.of_nat (length plan) = Planner.EXAM_QUESTION_COUNT
    ∧ Forall (item_of_blueprint no_objectives Objectives.Core_220_1201
                (blueprint_of Objectives.Core_220_1201)) plan.
Proof.
  apply (buildPlan_has_90_entries no_objectives (λ _, 1 # 2)%Q
           Objectives.Core_220_1201 default_config 0%nat).
  intros _. split; reflexivity || discriminate.
Defined.

(** ** The scoring engine *)
Section SetEquality.
Import Scoring.

#[local] Instance string_le_total : Total string_le.
Proof. intros a b. apply String.leb_total. Qed.

#[local] Instance string_le_antisym : AntiSymm eq string_le.
Proof. intros a b. apply String.leb_antisym. Qed.

Lemma string_le_cases (a b : string) :
  string_le a b ↔ a = b ∨ String_as_OT.lt a b.
Proof.
  unfold string_le, String.leb. rewrite <- String_as_OT.cmp_lt.
  unfold String_as_OT.cmp. split.
  - destruct (String.compare a b) eqn:E; intros H; [|by right|done].
    left. by apply String.compare_eq_iff.
  - intros [->|H].
    + destruct (String.compare b b) eqn:E; [done..|].
      pose proof (String.compare_antisym b b) as A. rewrite E in A. done.
    + by rewrite H.
Qed.

#[local] Instance string_le_trans : Transitive string_le.
Proof.
  intros a b c. rewrite !string_le_cases.
  intros [->|Hab] [->|Hbc]; auto.
  right. by eapply String_as_OT.lt_trans.
Qed.

Lemma sorted_perm_of (a : list string) : sorted a ≡ₚ a.
Proof. apply merge_sort_Permutation. Qed.

Lemma sorted_unique (a b : list string) : a ≡ₚ b → sorted a = sorted b.
Proof.
  intros H. apply (StronglySorted_unique string_le).
  - apply StronglySorted_merge_sort; apply _.
  - apply StronglySorted_merge_sort; apply _.
  - by rewrite !sorted_perm_of.
Qed.

Lemma every_same_cons (x y : string) (a b : list string) :
  every_same (x :: a) (y :: b) = bool_decide (y = x) && every_same a b.
Proof.
  unfold every_same. rewrite imap_cons. simpl. f_equal.
  - apply bool_decide_ext. split; congruence.
Qed.

Lemma every_same_eq (a b : list string) :
  length a = length b → every_same a b = true ↔ a = b.
Proof.
  revert b. induction a as [|x a IH]; intros [|y b] Hlen; simpl in Hlen; try done.
  rewrite every_same_cons, andb_true_iff, bool_decide_eq_true, IH by lia.
  split; [intros [-> ->]; done|intros [= -> ->]; done].
Qed.

(** [setEq] compares its arguments as multisets. *)
Lemma setEq_true_iff (a b : list string) : setEq a b = true ↔ a ≡ₚ b.
Proof.
  unfold setEq. destruct (decide (length a ≠ length b)) as [Hne|Heq].
  - split; [done|]. intros H. by apply Permutation_length in H.
  - assert (length a = length b) as Hlen by lia.
    rewrite every_same_eq.
    + split; [|apply sorted_unique].
      intros H. by rewrite <- (sorted_perm_of a), H, sorted_perm_of.
    + by rewrite !(Permutation_length (sorted_perm_of _)).
Qed.

(** For a submitted answer without repetitions, equal as multisets is equal
    as sets: the same cardinality and the same members. *)
Lemma perm_iff_same_set (a b : list string) :
  NoDup a → a ≡ₚ b ↔ (length a = length b ∧ ∀ x, x ∈ a ↔ x ∈ b).
Proof.
  intros Hnd. split.
  - intros H. split; [by apply Permutation_length|]. intros x. by rewrite H.
  - intros [Hlen Hmem]. apply submseteq_length_Permutation; [|lia].
    apply NoDup_submseteq; [done|]. intros x. by rewrite Hmem.
Qed.
End SetEquality.

Section ScoreExam.
Import ExamTypes Scoring.
Variable answers : AnswerMap.
Variable pbqState : option (gmap string PbqAnswer).

Lemma step_scored (qs : list Question) (t : Tally) :
  t_scored (foldl (step answers pbqState) t qs) = t_scored t ++ (verdict answers pbqState <$> qs).
Proof.
  revert t. induction qs as [|q qs IH]; intros t; simpl.
  - by rewrite app_nil_r.
  - rewrite IH. simpl. by rewrite <- app_assoc.
Qed.

(** [scored] lists the verdict on each question, in the order of the
    session. *)
Lemma scoreExam_scored (session : ExamSession) :
  scored (scoreExam session answers pbqState) = verdict answers pbqState <$> questions session.
Proof. unfold scoreExam. simpl. by rewrite step_scored. Qed.

Lemma scoreExam_scored_lookup (session : ExamSession) (i : nat) (q : Question) :
  questions session !! i = Some q →
  scored (scoreExam session answers pbqState) !! i = Some (verdict answers pbqState q).
Proof. intros H. by rewrite scoreExam_scored, list_lookup_fmap, H. Qed.
End ScoreExam.

(** Where neither the submitted array nor the canonical correct array
    repeats an id, [scoreExam] records a question of type single or multi as
    correct exactly when the two have the same cardinality and the same
    members; a submitted answer that is a strict subset or a strict superset
    of the correct one is recorded as incorrect (a missing answer is the
    empty array). *)
Lemma scoreExam_choice_without_repetition
    (session : ExamTypes.ExamSession) (answers : Scoring.AnswerMap)
    (pbqState : option (gmap string Scoring.PbqAnswer))
    (i : nat) (q : ExamTypes.Question) (submitted : list string) :
  ExamTypes.questions session !! i = Some q →
  ExamTypes.q_type q = ExamTypes.single ∨ ExamTypes.q_type q = ExamTypes.multi →
  submitted = default [] (answers !! ExamTypes.q_id q) →
  NoDup submitted →
  NoDup (ExamTypes.q_correct q) →
  ∃ ok, Scoring.scored (Scoring.scoreExam session answers pbqState) !! i
          = Some {| Scoring.questionId := ExamTypes.q_id q; Scoring.isCorrect := ok |}
    ∧ (ok = true ↔
         length submitted = length (ExamTypes.q_correct q)
         ∧ ∀ x, x ∈ submitted ↔ x ∈ ExamTypes.q_correct q)
    ∧ (ok = true ↔ ∀ x, x ∈ submitted ↔ x ∈ ExamTypes.q_correct q)
    ∧ ((∀ x, x ∈ submitted → x ∈ ExamTypes.q_correct q) →
       (∃ y, y ∈ ExamTypes.q_correct q ∧ y ∉ submitted) → ok = false)
    ∧ ((∀ x, x ∈ ExamTypes.q_correct q → x ∈ submitted) →
       (∃ y, y ∈ submitted ∧ y ∉ ExamTypes.q_correct q) → ok = false).
Proof.
  intros Hq Hty Hsub Hnd Hndc.
  exists (Scoring.judge q answers pbqState).
  split; [by apply scoreExam_scored_lookup|].
  assert (Scoring.judge q answers pbqState
          = Scoring.setEq submitted (ExamTypes.q_correct q)) as ->.
  { unfold Scoring.judge. rewrite Hsub. by destruct Hty as [-> | ->]. }
  assert (∀ y, (y ∈ submitted ↔ y ∈ ExamTypes.q_correct q → False) →
          Scoring.setEq submitted (ExamTypes.q_correct q) = false) as Hdiff.
  { intros y Hy. apply not_true_is_false. rewrite setEq_true_iff.
    intros Hperm. apply Hy. by rewrite Hperm. }
  split; [|split; [|split]].
  - by rewrite setEq_true_iff, perm_iff_same_set.
  - rewrite setEq_true_iff. split.
    + intros Hperm x. by rewrite Hperm.
    + intros Hmem. apply NoDup_Permutation; done.
  - intros _ (y & Hy1 & Hy2). apply (Hdiff y). tauto.
  - intros _ (y & Hy1 & Hy2). apply (Hdiff y). tauto.
Qed.

(** The lemma at a multi-select question answered in another order. *)
Lemma scoreExam_choice_without_repetition_example :
  ∃ ok, Scoring.scored
          (Scoring.scoreExam (session_of [sample_choice]) {[ "s-q-1" := ["o3"; "o1"] ]} None) !! 0%nat
          = Some {| Scoring.questionId := "s-q-1"; Scoring.isCorrect := ok |}
    ∧ ok = true.
Proof.
  destruct (scoreExam_choice_without_repetition (session_of [sample_choice])
              {[ "s-q-1" := ["o3"; "o1"] ]} None 0%nat sample_choice ["o3"; "o1"])
    as (ok & Hok & _ & Hiff & _).
  - reflexivity.
  - right. reflexivity.
  - reflexivity.
  - compute_done.
  - compute_done.
  - exists ok. split; [exact Hok|]. apply Hiff. intros x. simpl.
    rewrite !elem_of_cons, !elem_of_nil. tauto.
Qed.

(** C2 (a defect of the code): [setEq] compares the lengths of the two
    arrays and then the sorted arrays, which is set equality only where no
    array repeats an id, and nothing keeps a repetition out of the canonical
    correct array.  The item of type multi with [correctIndices = [0, 0]]
    passes [validateBatch]; the normalizer turns it into a question whose
    correct array is [["o1"; "o1"]], the set {o1}.  The submitted answer
    [["o1"]] has the same members and is recorded as incorrect, and so is
    every submitted answer that repeats no id, which are the answers the
    screen can submit; only the array [["o1"; "o1"]] is recorded as
    correct. *)
Theorem scoreExam_repeated_key_is_never_matched :
  Generate.validateBatch 1
    (Generate.JObject [("items", Generate.JArray [repeated_index_json])])
  = Generate.Passed [repeated_index_json]
  ∧ ∃ q,
      Planner.normalizeQuestions as_listed Objectives.Core_220_1201 "s" [repeated_index_item] = [q]
      ∧ ExamTypes.q_id q = "s-q-1"
      ∧ ExamTypes.q_type q = ExamTypes.multi
      ∧ ExamTypes.q_correct q = ["o1"; "o1"]
      ∧ (∀ x, x ∈ ["o1"] ↔ x ∈ ExamTypes.q_correct q)
      ∧ Scoring.scored (Scoring.scoreExam (session_of [q]) {[ "s-q-1" := ["o1"] ]} None)
        = [ {| Scoring.questionId := "s-q-1"; Scoring.isCorrect := false |} ]
      ∧ (∀ (answers : Scoring.AnswerMap) (pbqState : option (gmap string Scoring.PbqAnswer)),
           NoDup (default [] (answers !! "s-q-1")) →
           Scoring.scored (Scoring.scoreExam (session_of [q]) answers pbqState)
           = [ {| Scoring.questionId := "s-q-1"; Scoring.isCorrect := false |} ])
      ∧ Scoring.scored
          (Scoring.scoreExam (session_of [q]) {[ "s-q-1" := ["o1"; "o1"] ]} None)
        = [ {| Scoring.questionId := "s-q-1"; Scoring.isCorrect := true |} ].
Proof.
  split; [by vm_compute|].
  eexists. split; [vm_compute; reflexivity|].
  split; [reflexivity|]. split; [reflexivity|]. split; [reflexivity|].
  split.
  { intros x. cbn [ExamTypes.q_correct]. rewrite !elem_of_cons, !elem_of_nil. tauto. }
  split; [by vm_compute|].
  split; [|by vm_compute].
  intros answers pbqState Hnd.
  rewrite scoreExam_scored. simpl. unfold verdict. simpl. do 2 f_equal.
  unfold Scoring.judge. simpl.
  apply not_true_is_false. rewrite setEq_true_iff. intros Hperm.
  rewrite Hperm in Hnd. apply NoDup_cons in Hnd as [Hin _].
  apply Hin. by left.
Qed.

(** C8: for a question of type pbq-order with a submitted list of step
    texts, [scoreExam] records the question as correct exactly when the
    submitted list equals the canonical order position by position; in
    particular the canonical order itself is correct, and every permutation
    of it that is not identical to it is incorrect. *)
Theorem scoreExam_order_positional
    (session : ExamTypes.ExamSession) (answers : Scoring.AnswerMap)
    (pbqState : option (gmap string Scoring.PbqAnswer))
    (i : nat) (q : ExamTypes.Question) (submitted : list string) :
  ExamTypes.questions session !! i = Some q →
  ExamTypes.q_type q = ExamTypes.pbq_order →
  Scoring.submitted_order pbqState (ExamTypes.q_id q) = Some submitted →
  ∃ ok, Scoring.scored (Scoring.scoreExam session answers pbqState) !! i
          = Some {| Scoring.questionId := ExamTypes.q_id q; Scoring.isCorrect := ok |}
    ∧ (ok = true ↔ submitted = ExamTypes.q_correct q)
    ∧ (submitted ≡ₚ ExamTypes.q_correct q → submitted ≠ ExamTypes.q_correct q → ok = false).
Proof.
  intros Hq Hty Hsub.
  exists (Scoring.judge q answers pbqState).
  split; [by apply scoreExam_scored_lookup|].
  assert (Scoring.judge q answers pbqState = true ↔ submitted = ExamTypes.q_correct q) as Hiff.
  { unfold Scoring.judge. rewrite Hty, Hsub.
    rewrite andb_true_iff, bool_decide_eq_true. split.
    - intros [Hlen Hall]. by apply every_same_eq.
    - intros ->. split; [done|]. by apply every_same_eq. }
  split; [done|].
  intros _ Hne. apply not_true_is_false. by rewrite Hiff.
Qed.

(** The theorem at an ordering question answered with two steps swapped. *)
Lemma scoreExam_order_positional_witness :
  ∃ ok, Scoring.scored (Scoring.scoreExam (session_of [sample_order]) ∅ transposed_state) !! 0%nat
          = Some {| Scoring.questionId := "s-q-2"; Scoring.isCorrect := ok |}
    ∧ (ok = true ↔ ["theory"; "identify"; "test"; "plan"] = ExamTypes.q_correct sample_order)
    ∧ (["theory"; "identify"; "test"; "plan"] ≡ₚ ExamTypes.q_correct sample_order →
       ["theory"; "identify"; "test"; "plan"] ≠ ExamTypes.q_correct sample_order →
       ok = false).
Proof.
  apply (scoreExam_order_positional (session_of [sample_order]) ∅ transposed_state
           0%nat sample_order ["theory"; "identify"; "test"; "plan"]);
    reflexivity.
Defined.

(** C10: for a session without questions [scoreExam] divides zero by zero:
    it returns [total = 0], [correctCount = 0] and a [percent] that is [NaN],
    with nothing scored. *)
Theorem scoreExam_empty_session_percent_nan
    (session : ExamTypes.ExamSession) (answers : Scoring.AnswerMap)
    (pbqState : option (gmap string Scoring.PbqAnswer)) :
  ExamTypes.questions session = [] →
  Scoring.total (Scoring.scoreExam session answers pbqState) = 0
  ∧ Scoring.correctCount (Scoring.scoreExam session answers pbqState) = 0
  ∧ Scoring.percent (Scoring.scoreExam session answers pbqState) = Scoring.NaN
  ∧ Scoring.scored (Scoring.scoreExam session answers pbqState) = []
  ∧ Scoring.byDomain (Scoring.scoreExam session answers pbqState) = [].
Proof.
  intros H. unfold Scoring.scoreExam. rewrite H. simpl.
  rewrite map_to_list_empty. repeat split.
Qed.

(** The theorem at the session without questions. *)
Lemma scoreExam_empty_session_percent_nan_witness :
  Scoring.total (Scoring.scoreExam (session_of []) ∅ None) = 0
  ∧ Scoring.correctCount (Scoring.scoreExam (session_of []) ∅ None) = 0
  ∧ Scoring.percent (Scoring.scoreExam (session_of []) ∅ None) = Scoring.NaN
  ∧ Scoring.scored (Scoring.scoreExam (session_of []) ∅ None) = []
  ∧ Scoring.byDomain (Scoring.scoreExam (session_of []) ∅ None) = [].
Proof.
  apply (scoreExam_empty_session_percent_nan (session_of []) ∅ None). reflexivity.
Defined.

(** ** Running a generation *)
Section RunGenerationFacts.
Import Objectives ExamTypes Planner App.
Variable generateQuestions : GenerateRequest → generated.
Variable display_order : list Entry → list Entry.

(** With a batch size of at least one the batch loop ends within the fuel
    [runGeneration] gives it. *)
Lemma collect_ends (g : GenerationPersisted) (fuel i : nat)
    (items : list RawItem) (nextIndex : nat) :
  (1 ≤ g_batchSize g)%nat →
  (length (g_plan g) ≤ i + fuel)%nat →
  is_Some (collect generateQuestions fuel g i items nextIndex).
Proof.
  intros Hb. revert i items nextIndex.
  induction fuel as [|fuel IH]; intros i items nextIndex Hlen; simpl.
  - destruct (decide _); [lia|by eexists].
  - destruct (decide _); [|by eexists].
    destruct (generateQuestions _); [|by eexists].
    apply IH. lia.
Qed.

Lemma runGeneration_ends (g : GenerationPersisted) :
  (1 ≤ g_batchSize g)%nat →
  is_Some (runGeneration generateQuestions display_order g).
Proof.
  intros Hb. unfold runGeneration.
  destruct (collect_ends g (S (length (g_plan g))) (g_nextIndex g)
              (g_rawItems g) (g_nextIndex g) Hb ltac:(lia)) as [[] ->]; by eexists.
Qed.
End RunGenerationFacts.

(** C5, as stated, fails: with 91 items collected, all of which normalize,
    the count is not 90 and yet no error is raised; the session starts with
    the first 90 questions. *)
Lemma runGeneration_truncates_91_items :
  length (Planner.normalizeQuestions as_listed Objectives.Core_220_1201 "s"
            (replicate 91 plain_item)) = 91%nat
  ∧ ∃ session,
      App.runGeneration no_backend as_listed (finished_generation 91)
      = Some (App.Started session)
      ∧ length (ExamTypes.questions session) = 90%nat.
Proof.
  split; [vm_compute; reflexivity|].
  eexists. split; [vm_compute; reflexivity|]. vm_compute. reflexivity.
Qed.

(** C5 (amended): when the batch loop has collected its items, a
    normalized count below the session length of 90 ends the run with the
    error "Generator returned N questions; expected 90.", which is saved as
    [lastError] and alerted, nothing being padded; a normalized count of 90 or
    more starts the session with the first 90 questions, so a count above 90
    is cut down and is no error. *)
Theorem runGeneration_session_length
    (generateQuestions : App.GenerateRequest → App.generated)
    (display_order : list ExamTypes.Entry → list ExamTypes.Entry)
    (g : App.GenerationPersisted) (items : list Planner.RawItem) (nextIndex : nat) :
  App.collect generateQuestions (S (length (App.g_plan g))) g
    (App.g_nextIndex g) (App.g_rawItems g) (App.g_nextIndex g)
  = Some (App.Collected items nextIndex) →
  let normalized :=
    Planner.normalizeQuestions display_order (App.g_core g) (App.g_sessionId g) items in
  ((length normalized < 90)%nat →
     App.runGeneration generateQuestions display_order g
     = Some (App.Paused
               (App.saved_with g items nextIndex
                  (Some ("Generator returned " +:+ pretty (length normalized)
                         +:+ " questions; expected 90.")))
               true))
  ∧ ((90 ≤ length normalized)%nat →
     App.runGeneration generateQuestions display_order g
     = Some (App.Started
               {| ExamTypes.sessionId := App.g_sessionId g;
                  ExamTypes.core := App.g_core g;
                  ExamTypes.durationSeconds := 5400;
                  ExamTypes.config := App.g_config g;
                  ExamTypes.questions := take 90 normalized |})).
Proof.
  intros Hloop normalized. unfold App.runGeneration. rewrite Hloop.
  unfold App.assemble. fold normalized.
  change (Z.to_nat Planner.EXAM_QUESTION_COUNT) with 90%nat.
  unfold Planner.EXAM_QUESTION_COUNT.
  split; intros Hn.
  - destruct (decide _) as [_|Heq].
    + rewrite length_take, Nat.min_r by lia. reflexivity.
    + rewrite length_take in Heq. lia.
  - destruct (decide _) as [Hne|_]; [|reflexivity].
    rewrite length_take in Hne. lia.
Qed.

(** The theorem at a finished generation that holds three items. *)
Lemma runGeneration_session_length_witness :
  let normalized :=
    Planner.normalizeQuestions as_listed Objectives.Core_220_1201 "s"
      (replicate 3 plain_item) in
  ((length normalized < 90)%nat →
     App.runGeneration no_backend as_listed (finished_generation 3)
     = Some (App.Paused
               (App.saved_with (finished_generation 3) (replicate 3 plain_item) 0
                  (Some ("Generator returned " +:+ pretty (length normalized)
                         +:+ " questions; expected 90.")))
               true))
  ∧ ((90 ≤ length normalized)%nat →
     App.runGeneration no_backend as_listed (finished_generation 3)
     = Some (App.Started
               {| ExamTypes.sessionId := "s";
                  ExamTypes.core := Objectives.Core_220_1201;
                  ExamTypes.durationSeconds := 5400;
                  ExamTypes.config := default_config;
                  ExamTypes.questions := take 90 normalized |})).
Proof.
  apply (runGeneration_session_length no_backend as_listed (finished_generation 3)
           (replicate 3 plain_item) 0%nat).
  reflexivity.
Defined.

(** ** The normalizer *)

(** C9: the normalizer drops a pair whose left index misses, but keeps a
    pair whose right index misses: the pair (0, 7) over three right entries
    stays in the canonical encoding as ["22=>undefined"]. *)
Theorem normalizeQuestions_keeps_unresolved_right_index :
  ExamTypes.q_correct
    <$> Planner.normalizeQuestions as_listed Objectives.Core_220_1201 "s" [stray_right_index]
  = [["22=>undefined"]]
  ∧ ExamTypes.q_correct
      <$> Planner.normalizeQuestions as_listed Objectives.Core_220_1201 "s" [stray_left_index]
    = [[]].
Proof. split; vm_compute; reflexivity. Qed.

(** ** The remote batch generator *)
Section RetryPolicy.
Import ExamTypes Generate.
Variable JSON_parse : string → json + string.
Variable fetch : nat → Body → response.

Lemma message_of_nonempty (name message : string) :
  name ≠ "" → message_of name message ≠ "".
Proof. intros Hn. unfold message_of. by destruct (decide (message = "")). Qed.

(** What the [try] block leaves in [lastErr] is never the empty string. *)
Lemma lastErr_nonempty (expected : nat) (text err : string) :
  parse_and_validate JSON_parse expected text = Invalid err → err ≠ "".
Proof.
  unfold parse_and_validate.
  destruct (extractJsonObject JSON_parse text) as [obj| |m].
  - destruct (validateBatch expected obj); [done|].
    intros [= <-]. by apply message_of_nonempty.
  - intros [= <-]. by apply message_of_nonempty.
  - intros [= <-]. by apply message_of_nonempty.
Qed.

(** An [items] array of the wrong length does not pass [validateBatch]. *)
Lemma validateBatch_wrong_length (expected : nat) (arr : list json) :
  length arr ≠ expected →
  validateBatch expected (JObject [("items", JArray arr)])
  = Failed ("'items' length " +:+ pretty (length arr)
            +:+ " !== expected " +:+ pretty expected +:+ ".").
Proof.
  intros Hne. unfold validateBatch. simpl.
  by rewrite bool_decide_eq_false_2.
Qed.

Lemma callOpenAI_with_key (key model : string) (items : list PlanItem)
    (difficulty : Difficulty) :
  key ≠ "" →
  callOpenAI JSON_parse fetch (Some key) model items difficulty
  = attempts JSON_parse fetch model items difficulty 2 0 None [].
Proof. intros Hk. unfold callOpenAI. by destruct key. Qed.
End RetryPolicy.

(** C4: when the response to a batch fails validation (as a response does
    whose [items] array has another length than the batch), [callOpenAI]
    sends the batch once more, the same model, difficulty and items, with the
    failure reason appended to the system instructions.  If the response to
    the retry fails validation too, the call throws an error that carries the
    last validation message, and the two requests are all that was sent; if
    it passes, its items are returned. *)
Theorem callOpenAI_retries_once
    (JSON_parse : string → Generate.json + string)
    (fetch : nat → Generate.Body → Generate.response)
    (key model : string) (items : list Generate.PlanItem)
    (difficulty : ExamTypes.Difficulty)
    (data0 : Generate.json) (text0 err0 : string) :
  key ≠ "" →
  fetch 0%nat (first_request model items difficulty) = Generate.Data data0 →
  Generate.response_text data0 = Some text0 →
  Generate.parse_and_validate JSON_parse (length items) text0 = Generate.Invalid err0 →
  (∀ arr, length arr ≠ length items →
     Generate.validateBatch (length items)
       (Generate.JObject [("items", Generate.JArray arr)])
     = Generate.Failed ("'items' length " +:+ pretty (length arr)
                        +:+ " !== expected " +:+ pretty (length items) +:+ "."))
  ∧ (∀ data1 text1 err1,
       fetch 1%nat (retry_request model items difficulty err0) = Generate.Data data1 →
       Generate.response_text data1 = Some text1 →
       Generate.parse_and_validate JSON_parse (length items) text1 = Generate.Invalid err1 →
       Generate.callOpenAI JSON_parse fetch (Some key) model items difficulty
       = (Generate.Throws ("Model returned invalid JSON after retries: " +:+ err1),
          [first_request model items difficulty;
           retry_request model items difficulty err0]))
  ∧ (∀ data1 text1 itemsOut,
       fetch 1%nat (retry_request model items difficulty err0) = Generate.Data data1 →
       Generate.response_text data1 = Some text1 →
       Generate.parse_and_validate JSON_parse (length items) text1 = Generate.Valid itemsOut →
       Generate.callOpenAI JSON_parse fetch (Some key) model items difficulty
       = (Generate.Returns itemsOut,
          [first_request model items difficulty;
           retry_request model items difficulty err0])).
Proof.
  intros Hkey Hf0 Ht0 Hv0.
  pose proof (lastErr_nonempty JSON_parse _ _ _ Hv0) as Hne.
  split; [intros arr Harr; by apply validateBatch_wrong_length|].
  assert (Generate.systemOf (length items) 1 (Some err0)
          = Generate.baseSystem (length items)
            ++ [""; "Your previous output was invalid.";
                "Fix the JSON and re-output per contract. Error: "
                +:+ String.substring 0 500 err0]) as Hsys.
  { unfold Generate.systemOf. destruct (decide _) as [_|Hn]; [done|].
    destruct Hn. done. }
  assert (Generate.callOpenAI JSON_parse fetch (Some key) model items difficulty
          = Generate.attempts JSON_parse fetch model items difficulty 1 1 (Some err0)
              [first_request model items difficulty]) as Hcall.
  { rewrite callOpenAI_with_key by done.
    cbn [Generate.attempts]. unfold Generate.systemOf at 1.
    fold (first_request model items difficulty).
    rewrite Hf0, Ht0, Hv0. reflexivity. }
  split.
  - intros data1 text1 err1 Hf1 Ht1 Hv1. rewrite Hcall.
    cbn [Generate.attempts]. rewrite Hsys.
    fold (retry_request model items difficulty err0).
    rewrite Hf1, Ht1, Hv1. reflexivity.
  - intros data1 text1 itemsOut Hf1 Ht1 Hv1. rewrite Hcall.
    cbn [Generate.attempts]. rewrite Hsys.
    fold (retry_request model items difficulty err0).
    rewrite Hf1, Ht1, Hv1. reflexivity.
Qed.

(** The theorem at a backend that answers a batch of one with an empty
    batch. *)
Lemma callOpenAI_retries_once_witness :
  (∀ arr, length arr ≠ length one_plan_item →
     Generate.validateBatch (length one_plan_item)
       (Generate.JObject [("items", Generate.JArray arr)])
     = Generate.Failed ("'items' length " +:+ pretty (length arr)
                        +:+ " !== expected " +:+ pretty (length one_plan_item) +:+ "."))
  ∧ (∀ data1 text1 err1,
       fetch_empty_batch 1%nat
         (retry_request "gpt-4o-mini" one_plan_item ExamTypes.medium empty_batch_error)
       = Generate.Data data1 →
       Generate.response_text data1 = Some text1 →
       Generate.parse_and_validate parse_empty_batch (length one_plan_item) text1
       = Generate.Invalid err1 →
       Generate.callOpenAI parse_empty_batch fetch_empty_batch (Some "sk")
         "gpt-4o-mini" one_plan_item ExamTypes.medium
       = (Generate.Throws ("Model returned invalid JSON after retries: " +:+ err1),
          [first_request "gpt-4o-mini" one_plan_item ExamTypes.medium;
           retry_request "gpt-4o-mini" one_plan_item ExamTypes.medium empty_batch_error]))
  ∧ (∀ data1 text1 itemsOut,
       fetch_empty_batch 1%nat
         (retry_request "gpt-4o-mini" one_plan_item ExamTypes.medium empty_batch_error)
       = Generate.Data data1 →
       Generate.response_text data1 = Some text1 →
       Generate.parse_and_validate parse_empty_batch (length one_plan_item) text1
       = Generate.Valid itemsOut →
       Generate.callOpenAI parse_empty_batch fetch_empty_batch (Some "sk")
         "gpt-4o-mini" one_plan_item ExamTypes.medium
       = (Generate.Returns itemsOut,
          [first_request "gpt-4o-mini" one_plan_item ExamTypes.medium;
           retry_request "gpt-4o-mini" one_plan_item ExamTypes.medium empty_batch_error])).
Proof.
  apply (callOpenAI_retries_once parse_empty_batch fetch_empty_batch "sk" "gpt-4o-mini"
           one_plan_item ExamTypes.medium empty_batch_response "{}" empty_batch_error).
  - discriminate.
  - reflexivity.
  - reflexivity.
  - vm_compute. reflexivity.
Defined.

(** The run behind the example: both attempts get the empty batch, the call
    throws with the last validation message, and two requests were sent. *)
Lemma callOpenAI_empty_batch_run :
  Generate.callOpenAI parse_empty_batch fetch_empty_batch (Some "sk")
    "gpt-4o-mini" one_plan_item ExamTypes.medium
  = (Generate.Throws
       "Model returned invalid JSON after retries: 'items' length 0 !== expected 1.",
     [first_request "gpt-4o-mini" one_plan_item ExamTypes.medium;
      retry_request "gpt-4o-mini" one_plan_item ExamTypes.medium empty_batch_error]).
Proof. vm_compute. reflexivity. Qed.

(** ** The offline synthesizer *)
Section OfflineSeed.
Import Offline.

Lemma imul_range (a b : Z) : 0 ≤ imul a b < two32.
Proof. unfold imul. apply Z.mod_pos_bound. done. Qed.

Lemma hash_fold_range (codes : list Z) (h : Z) :
  0 ≤ h < two32 →
  0 ≤ foldl (λ h c, imul (Z.lxor h c) 16777619) h codes < two32.
Proof.
  revert h. induction codes as [|c codes IH]; intros h Hh; simpl; [done|].
  apply IH, imul_range.
Qed.

(** The seed is a 32-bit number, and so is the counter the generator
    starts from. *)
Lemma hashStringToSeed_range (s : string) : 0 ≤ hashStringToSeed s < two32.
Proof. apply hash_fold_range. unfold two32. lia. Qed.

Lemma mulberry32_of_seed (s : string) :
  mulberry32 (hashStringToSeed s) = hashStringToSeed s.
Proof. unfold mulberry32. apply Z.mod_small, hashStringToSeed_range. Qed.
End OfflineSeed.

(** * Further properties of the code *)

(** ** Sums over lists *)
Section Sums.
Context {A : Type}.

Lemma Zsum_app (f : A → Z) (l k : list A) : Zsum f (l ++ k) = Zsum f l + Zsum f k.
Proof. induction l as [|x l IH]; simpl; [done|]. rewrite IH. lia. Qed.

Lemma Zsum_perm (f : A → Z) (l k : list A) : l ≡ₚ k → Zsum f l = Zsum f k.
Proof. induction 1; simpl; lia. Qed.

Lemma Zsum_indicator (P : A → bool) (l : list A) :
  Zsum (λ x, if P x then 1 else 0) l = Z.of_nat (length (filter (λ x, P x = true) l)).
Proof.
  induction l as [|x l IH]; [done|]. simpl. rewrite filter_cons.
  destruct (P x) eqn:E.
  - rewrite decide_True by done. simpl. lia.
  - rewrite decide_False by done. lia.
Qed.
End Sums.

(** ** The scoring engine: aggregation *)
Section ScoreAggregates.
Import ExamTypes Scoring.
Variable answers : AnswerMap.
Variable pbqState : option (gmap string PbqAnswer).

Lemma agg_insert (f : string * (Z * Z) → Z) (g : Z * Z → Z)
    (m : gmap string (Z * Z)) (d : string) (v : Z * Z) :
  (∀ k w, f (k, w) = g w) →
  Zsum f (map_to_list (<[d := v]> m))
  = Zsum f (map_to_list m) - g (default (0, 0) (m !! d)) + g v
    + (match m !! d with Some _ => 0 | None => g (0, 0) end).
Proof.
  intros Hf. destruct (m !! d) as [w|] eqn:E; simpl.
  - rewrite <- (insert_delete_eq m).
    rewrite (Zsum_perm f _ _ (map_to_list_insert (delete d m) d v (lookup_delete_eq m d))).
    rewrite <- (Zsum_perm f _ _ (map_to_list_delete m d w E)).
    simpl. rewrite !Hf. lia.
  - rewrite (Zsum_perm f _ _ (map_to_list_insert m d v E)). simpl. rewrite Hf. lia.
Qed.

Lemma step_tally (t : Tally) (q : Question) :
  let t' := step answers pbqState t q in
  let gain := if judge q answers pbqState then 1 else 0 in
  t_correctCount t' = t_correctCount t + gain
  ∧ agg_correct (t_domainAgg t') = agg_correct (t_domainAgg t) + gain
  ∧ agg_total (t_domainAgg t') = agg_total (t_domainAgg t) + 1.
Proof.
  cbn zeta. unfold step. cbn [t_correctCount t_domainAgg].
  split; [destruct (judge q answers pbqState); lia|].
  unfold agg_correct, agg_total. split.
  - rewrite (agg_insert _ fst) by done.
    destruct (t_domainAgg t !! q_domain q) as [[c n]|]; simpl;
      destruct (judge q answers pbqState); simpl; lia.
  - rewrite (agg_insert _ snd) by done.
    destruct (t_domainAgg t !! q_domain q) as [[c n]|]; simpl; lia.
Qed.

Lemma correct_verdicts (qs : list Question) :
  length (filter (λ q, judge q answers pbqState = true) qs)
  = length (filter (λ s, isCorrect s = true) (verdict answers pbqState <$> qs)).
Proof.
  induction qs as [|q qs IH]; [done|].
  rewrite fmap_cons, !filter_cons. cbn [verdict isCorrect].
  destruct (judge q answers pbqState) eqn:E.
  - rewrite !decide_True by done. simpl. by rewrite IH.
  - rewrite !decide_False by done. done.
Qed.

Lemma tally_invariant (qs : list Question) (t : Tally) :
  let t' := foldl (step answers pbqState) t qs in
  let gain := Zsum (λ q, if judge q answers pbqState then 1 else 0) qs in
  t_correctCount t' = t_correctCount t + gain
  ∧ agg_correct (t_domainAgg t') = agg_correct (t_domainAgg t) + gain
  ∧ agg_total (t_domainAgg t') = agg_total (t_domainAgg t) + Z.of_nat (length qs).
Proof.
  revert t. induction qs as [|q qs IH]; intros t; cbn zeta.
  - simpl. lia.
  - cbn [foldl]. destruct (IH (step answers pbqState t q)) as (H1 & H2 & H3).
    destruct (step_tally t q) as (S1 & S2 & S3).
    cbn zeta in *. rewrite H1, H2, H3, S1, S2, S3.
    cbn [Zsum foldr length]. fold (Zsum (λ q, if judge q answers pbqState then 1 else 0) qs).
    lia.
Qed.
End ScoreAggregates.

Lemma scoreExam_count_bounds
    (session : ExamTypes.ExamSession) (answers : Scoring.AnswerMap)
    (pbqState : option (gmap string Scoring.PbqAnswer)) :
  let r := Scoring.scoreExam session answers pbqState in
  Scoring.total r = Z.of_nat (length (ExamTypes.questions session))
  ∧ 0 ≤ Scoring.correctCount r ≤ Scoring.total r.
Proof.
  intros r.
  pose proof (tally_invariant answers pbqState (ExamTypes.questions session)
    {| Scoring.t_correctCount := 0; Scoring.t_scored := []; Scoring.t_domainAgg := ∅ |})
    as (Hc & _ & _).
  cbn zeta in Hc. simpl in Hc.
  split; [done|].
  subst r. unfold Scoring.scoreExam at 1 2. simpl. rewrite Hc, Zsum_indicator.
  split; [lia|]. apply inj_le, length_filter.
Qed.

(** X1: the counters of a result agree with one another.  [scored] has one
    entry per question, in the order of the questions: the entry at a
    position carries the id of the question at that position and the
    judgement on it.  [correctCount] is the number of entries marked
    correct and lies between 0 and [total]; when no domain is a name
    inherited from [Object.prototype], the domains of [byDomain] are
    distinct, and the [total] and the [correct] counters of [byDomain] add up
    to [total] and to [correctCount]. *)
Theorem scoreExam_counters_agree
    (session : ExamTypes.ExamSession) (answers : Scoring.AnswerMap)
    (pbqState : option (gmap string Scoring.PbqAnswer)) :
  let r := Scoring.scoreExam session answers pbqState in
  Scoring.total r = Z.of_nat (length (ExamTypes.questions session))
  ∧ length (Scoring.scored r) = length (ExamTypes.questions session)
  ∧ Scoring.scored r
    = (λ q, {| Scoring.questionId := ExamTypes.q_id q;
               Scoring.isCorrect := Scoring.judge q answers pbqState |})
      <$> ExamTypes.questions session
  ∧ Scoring.questionId <$> Scoring.scored r
    = ExamTypes.q_id <$> ExamTypes.questions session
  ∧ Scoring.correctCount r
    = Z.of_nat (length (filter (λ s, Scoring.isCorrect s = true) (Scoring.scored r)))
  ∧ 0 ≤ Scoring.correctCount r ≤ Scoring.total r
  ∧ (own_domains session →
     NoDup (Scoring.ds_domain <$> Scoring.byDomain r)
     ∧ Zsum Scoring.ds_total (Scoring.byDomain r) = Scoring.total r
     ∧ Zsum Scoring.ds_correct (Scoring.byDomain r) = Scoring.correctCount r).
Proof.
  intros r.
  pose proof (tally_invariant answers pbqState (ExamTypes.questions session)
    {| Scoring.t_correctCount := 0; Scoring.t_scored := []; Scoring.t_domainAgg := ∅ |})
    as (Hc & Hac & Hat).
  cbn zeta in Hc, Hac, Hat. simpl in Hc, Hac, Hat.
  unfold agg_correct, agg_total in Hac, Hat. rewrite map_to_list_empty in Hac, Hat.
  simpl in Hac, Hat.
  assert (Scoring.scored r = verdict answers pbqState <$> ExamTypes.questions session) as Hs
    by apply scoreExam_scored.
  assert (Zsum (λ q, if Scoring.judge q answers pbqState then 1 else 0)
            (ExamTypes.questions session)
          = Z.of_nat (length (filter (λ s, Scoring.isCorrect s = true) (Scoring.scored r)))) as Hg.
  { rewrite Hs, Zsum_indicator. f_equal. apply correct_verdicts. }
  split; [done|]. split; [by rewrite Hs, length_fmap|].
  split; [exact Hs|].
  split; [by rewrite Hs, <- list_fmap_compose|].
  split; [subst r; unfold Scoring.scoreExam; simpl; by rewrite Hc, Hg|].
  split.
  { subst r. unfold Scoring.scoreExam at 1 2. simpl. rewrite Hc, Hg.
    split; [lia|]. rewrite Hs, <- (length_fmap (verdict answers pbqState)).
    apply inj_le, length_filter. }
  intros _. split.
  { subst r. unfold Scoring.scoreExam. simpl. rewrite <- list_fmap_compose.
    apply (NoDup_fst_map_to_list (M := gmap string)). }
  assert (∀ (f : Scoring.DomainScore → Z) (g : string * (Z * Z) → Z) l,
    (∀ e, f {| Scoring.ds_domain := fst e; Scoring.ds_correct := fst (snd e);
               Scoring.ds_total := snd (snd e) |} = g e) →
    Zsum f ((λ e : string * (Z * Z),
               {| Scoring.ds_domain := fst e; Scoring.ds_correct := fst (snd e);
                  Scoring.ds_total := snd (snd e) |}) <$> l) = Zsum g l) as Hmap.
  { intros f g l Hfg. induction l as [|e l IH]; [done|].
    rewrite fmap_cons. simpl. by rewrite Hfg, IH. }
  split.
  - subst r. unfold Scoring.scoreExam. simpl.
    rewrite (Hmap _ (λ e, snd (snd e))) by done. rewrite Hat. lia.
  - subst r. unfold Scoring.scoreExam. simpl.
    rewrite (Hmap _ (λ e, fst (snd e))) by done. rewrite Hac, Hc. lia.
Qed.

(** X2: [setEq] compares its arguments as multisets: it is true exactly
    when one array is a rearrangement of the other, so it is symmetric, it is
    false for arrays of different lengths, and a repeated element counts as
    often as it occurs. *)
Theorem setEq_compares_multisets (a b : list string) :
  (Scoring.setEq a b = true ↔ a ≡ₚ b)
  ∧ Scoring.setEq a b = Scoring.setEq b a
  ∧ (length a ≠ length b → Scoring.setEq a b = false)
  ∧ (Scoring.setEq a b = true →
     ∀ x, count_occ String.string_dec a x = count_occ String.string_dec b x).
Proof.
  split; [apply setEq_true_iff|]. split; [|split].
  - destruct (Scoring.setEq a b) eqn:E1, (Scoring.setEq b a) eqn:E2; try done.
    + apply setEq_true_iff in E1. symmetry in E1. apply setEq_true_iff in E1. congruence.
    + apply setEq_true_iff in E2. symmetry in E2. apply setEq_true_iff in E2. congruence.
  - intros Hlen. apply not_true_is_false. rewrite setEq_true_iff.
    intros H. by apply Permutation_length in H.
  - intros H. apply setEq_true_iff in H.
    by apply (Permutation_count_occ String.string_dec).
Qed.

(** ** The scoring engine: the percentage *)
Section Percent.
Import Scoring.

Lemma round_share (c t : Z) :
  0 < t → 0 ≤ c ≤ t →
  let z := Qfloor (inject_Z c / inject_Z t * 1000 + (1 # 2))%Q in
  0 ≤ z ≤ 1000 ∧ (c = t → z = 1000) ∧ (c = 0 → z = 0).
Proof.
  intros Ht Hc z.
  assert (inject_Z c / inject_Z t * 1000 + (1 # 2) == Qmake (2000 * c + t) (Z.to_pos (2 * t)))%Q as E.
  { destruct t as [|p|p]; try lia.
    change (Z.to_pos (2 * Z.pos p)) with (p~0)%positive.
    unfold Qeq, Qdiv, Qmult, Qplus, Qinv, inject_Z. cbn [Qnum Qden].
    rewrite ?Pos2Z.inj_mul, (Pos2Z.inj_xO p). ring. }
  subst z. rewrite (Qfloor_comp _ _ E). unfold Qfloor.
  rewrite Z2Pos.id by lia.
  split; [split|split].
  - apply Z.div_pos; lia.
  - assert ((2000 * c + t) `div` (2 * t) < 1001) by (apply Z.div_lt_upper_bound; lia). lia.
  - intros ->. symmetry. apply (Z.div_unique _ _ 1000 t); lia.
  - intros ->. apply Z.div_small. lia.
Qed.
End Percent.

(** X3: for a session with at least one question the percentage is a
    finite number of tenths between 0 and 100; it is 100 when every question
    is correct and 0 when none is. *)
Theorem scoreExam_percent_range
    (session : ExamTypes.ExamSession) (answers : Scoring.AnswerMap)
    (pbqState : option (gmap string Scoring.PbqAnswer)) :
  ExamTypes.questions session ≠ [] →
  let r := Scoring.scoreExam session answers pbqState in
  ∃ tenths : Z,
    Scoring.percent r = Scoring.Finite (inject_Z tenths / 10)%Q
    ∧ 0 ≤ tenths ≤ 1000
    ∧ (Scoring.correctCount r = Scoring.total r → tenths = 1000)
    ∧ (Scoring.correctCount r = 0 → tenths = 0).
Proof.
  intros Hne r.
  pose proof (scoreExam_count_bounds session answers pbqState) as (Ht & Hc).
  cbn zeta in Ht, Hc. fold r in Ht, Hc.
  assert (0 < Scoring.total r) as Hpos.
  { rewrite Ht. destruct (ExamTypes.questions session); [done|simpl; lia]. }
  destruct (round_share (Scoring.correctCount r) (Scoring.total r) Hpos Hc) as (Hz & H1 & H0).
  eexists. split; [|split; [exact Hz|split; [exact H1|exact H0]]].
  subst r. unfold Scoring.scoreExam at 1. cbn [Scoring.percent].
  unfold Scoring.divide.
  destruct (decide _) as [E|_]; [|reflexivity].
  unfold Scoring.scoreExam in Hpos. simpl in Hpos. lia.
Qed.

Lemma scoreExam_percent_range_witness :
  ∃ tenths : Z,
    Scoring.percent (Scoring.scoreExam (session_of [sample_choice]) ∅ None)
    = Scoring.Finite (inject_Z tenths / 10)%Q
    ∧ 0 ≤ tenths ≤ 1000.
Proof.
  destruct (scoreExam_percent_range (session_of [sample_choice]) ∅ None)
    as (tenths & Hp & Hr & _); [discriminate|].
  exists tenths. split; [exact Hp|exact Hr].
Defined.

(** ** The scoring engine: the score of a domain *)
Section DomainScores.
Import ExamTypes Scoring.
Variable answers : AnswerMap.
Variable pbqState : option (gmap string PbqAnswer).

Lemma step_domain (t : Tally) (q : Question) (d : string) :
  t_domainAgg (step answers pbqState t q) !! d
  = if decide (q_domain q = d)
    then let agg := default (0, 0) (t_domainAgg t !! d) in
         Some (fst agg + (if judge q answers pbqState then 1 else 0), snd agg + 1)
    else t_domainAgg t !! d.
Proof.
  unfold step. cbn [t_domainAgg].
  destruct (decide (q_domain q = d)) as [->|Hd].
  - rewrite lookup_insert_eq. cbn zeta.
    destruct (judge q answers pbqState); f_equal; f_equal; lia.
  - by rewrite lookup_insert_ne.
Qed.

Lemma domain_invariant (qs : list Question) (t : Tally) (d : string) :
  t_domainAgg (foldl (step answers pbqState) t qs) !! d
  = if decide (of_domain d qs = []) then t_domainAgg t !! d
    else let agg := default (0, 0) (t_domainAgg t !! d) in
         Some (fst agg + Z.of_nat (length (correct_of_domain answers pbqState d qs)),
               snd agg + Z.of_nat (length (of_domain d qs))).
Proof.
  revert t. induction qs as [|q qs IH]; intros t; [done|].
  cbn [foldl]. rewrite IH, step_domain.
  unfold correct_of_domain, of_domain. rewrite (filter_cons _ q qs).
  destruct (decide (q_domain q = d)) as [Hd|Hd].
  - rewrite (decide_False (P := _ :: _ = [])) by done.
    cbn zeta. cbn [default fst snd]. rewrite filter_cons.
    destruct (decide (filter (λ q0, q_domain q0 = d) qs = [])) as [E|E].
    + rewrite E. simpl. destruct (judge q answers pbqState) eqn:J.
      * rewrite decide_True by done. simpl. f_equal.
      * rewrite decide_False by done. simpl. f_equal.
    + destruct (judge q answers pbqState) eqn:J.
      * rewrite decide_True by done. simpl length. cbv [id]. cbn [fst snd].
        f_equal. f_equal; lia.
      * rewrite decide_False by done. simpl length. cbv [id]. cbn [fst snd].
        f_equal. f_equal; lia.
  - done.
Qed.
End DomainScores.

(** X4: when no domain is a name inherited from [Object.prototype],
    [byDomain] has exactly one entry for each domain that occurs among the
    questions; its [total] is the number of questions of that domain and its
    [correct] the number of those judged correct, so [correct <= total] and
    [total >= 1]. *)
Theorem scoreExam_byDomain_counts
    (session : ExamTypes.ExamSession) (answers : Scoring.AnswerMap)
    (pbqState : option (gmap string Scoring.PbqAnswer)) (ds : Scoring.DomainScore) :
  own_domains session →
  let r := Scoring.scoreExam session answers pbqState in
  let qs := ExamTypes.questions session in
  ds ∈ Scoring.byDomain r
  ↔ of_domain (Scoring.ds_domain ds) qs ≠ []
    ∧ Scoring.ds_total ds = Z.of_nat (length (of_domain (Scoring.ds_domain ds) qs))
    ∧ Scoring.ds_correct ds
      = Z.of_nat (length (correct_of_domain answers pbqState (Scoring.ds_domain ds) qs)).
Proof.
  intros _ r qs. subst r. unfold Scoring.scoreExam. cbn [Scoring.byDomain].
  rewrite list_elem_of_fmap.
  pose proof (domain_invariant answers pbqState qs
    {| Scoring.t_correctCount := 0; Scoring.t_scored := []; Scoring.t_domainAgg := ∅ |}
    (Scoring.ds_domain ds)) as Hinv.
  cbn [Scoring.t_domainAgg] in Hinv. rewrite lookup_empty in Hinv. cbn in Hinv.
  fold qs. split.
  - intros ([d [c n]] & -> & Hin). cbn [Scoring.ds_domain Scoring.ds_total Scoring.ds_correct fst snd] in *.
    apply elem_of_map_to_list in Hin. rewrite Hin in Hinv.
    destruct (decide (of_domain d qs = [])) as [E|E]; [done|].
    injection Hinv as -> ->. done.
  - intros (Hne & Ht & Hc). rewrite decide_False in Hinv by done.
    exists (Scoring.ds_domain ds, (Scoring.ds_correct ds, Scoring.ds_total ds)).
    split; [by destruct ds|].
    apply elem_of_map_to_list. rewrite Hinv, Ht, Hc. done.
Qed.

Lemma scoreExam_byDomain_counts_witness :
  {| Scoring.ds_domain := "1.0"; Scoring.ds_correct := 0; Scoring.ds_total := 1 |}
  ∈ Scoring.byDomain (Scoring.scoreExam (session_of [sample_choice]) ∅ None).
Proof.
  apply (scoreExam_byDomain_counts (session_of [sample_choice]) ∅ None).
  - repeat constructor. vm_compute. intros H.
    repeat (apply elem_of_cons in H as [H|H]; [discriminate|]). by apply elem_of_nil in H.
  - vm_compute. repeat split; reflexivity || discriminate.
Defined.

(** ** The normalizer: ids, answer keys, and unanswered questions *)
Section NormalizerFacts.
Import Text ExamTypes Planner Scoring.
Variable display_order : list Entry → list Entry.

Lemma entries_length (tag : string) (arr : list string) :
  length (entries tag arr) = length arr.
Proof. apply length_imap. Qed.

Lemma entries_lookup (tag : string) (arr : list string) (i : nat) :
  entries tag arr !! i
  = (λ t, {| e_id := tag +:+ pretty (S i); e_text := t |}) <$> arr !! i.
Proof. unfold entries. by rewrite list_lookup_imap. Qed.

Lemma entries_texts (tag : string) (arr : list string) :
  e_text <$> entries tag arr = arr.
Proof.
  apply list_eq. intros i. rewrite list_lookup_fmap, entries_lookup.
  by destruct (arr !! i).
Qed.

Lemma at_index_Some {A : Type} (arr : list A) (i : Z) (x : A) :
  at_index arr i = Some x → in_range arr i ∧ arr !! Z.to_nat i = Some x.
Proof.
  unfold at_index, in_range. destruct (decide (0 ≤ i)); [|done].
  intros H. split; [|done]. apply lookup_lt_Some in H. lia.
Qed.

Lemma at_index_None {A : Type} (arr : list A) (i : Z) :
  at_index arr i = None ↔ ¬ in_range arr i.
Proof.
  unfold at_index, in_range. destruct (decide (0 ≤ i)).
  - rewrite lookup_ge_None. lia.
  - split; [lia|done].
Qed.

Lemma omap_nil_iff {A B : Type} (f : A → option B) (l : list A) :
  omap f l = [] ↔ Forall (λ x, f x = None) l.
Proof.
  induction l as [|x l IH]; simpl.
  - split; [constructor|done].
  - destruct (f x) eqn:E.
    + split; [done|]. intros H. inversion H. congruence.
    + rewrite IH. split; [by constructor|]. intros H. by inversion H.
Qed.

Lemma setEq_nil (b : list string) : setEq [] b = true ↔ b = [].
Proof.
  rewrite setEq_true_iff. split; [|by intros ->].
  intros H. symmetry in H. by apply Permutation_nil_r in H.
Qed.

Lemma normalizeItem_id (core : Objectives.CoreId) (sid : string) (seq : nat)
    (it : RawItem) (q : Question) :
  normalizeItem display_order core sid seq it = Some q →
  q_id q = sid +:+ "-q-" +:+ pretty seq ∧ q_core q = core
  ∧ type_name (q_type q) = it_type it ∧ q_objective q = it_objectiveId it.
Proof.
  unfold normalizeItem.
  destruct (decide (it_type it = "single" ∨ it_type it = "multi")) as [Hc|Hc].
  { intros [= <-]. cbn. repeat split.
    destruct (decide (it_type it = "single")) as [->|Hs]; [done|].
    by destruct Hc as [?| ->]. }
  destruct (decide (it_type it = "pbq-order")) as [Ho|Ho].
  { by intros [= <-]. }
  destruct (decide (it_type it = "pbq-match")) as [Hm|Hm]; [|done].
  by intros [= <-].
Qed.

Lemma normalizeItem_known (core : Objectives.CoreId) (sid : string) (seq : nat)
    (it : RawItem) :
  is_Some (normalizeItem display_order core sid seq it) ↔ known_type it.
Proof.
  unfold normalizeItem, known_type. rewrite !elem_of_cons, elem_of_nil.
  destruct (decide (it_type it = "single" ∨ it_type it = "multi")) as [Hc|Hc].
  { split; [tauto|by eexists]. }
  destruct (decide (it_type it = "pbq-order")) as [Ho|Ho].
  { split; [tauto|by eexists]. }
  destruct (decide (it_type it = "pbq-match")) as [Hm|Hm].
  { split; [tauto|by eexists]. }
  split; [by intros [? ?]|tauto].
Qed.

(** The loop, item by item: the item at index [j] is normalized with the
    sequence number [seq + j + 1]. *)
Lemma normalizeFrom_elem (core : Objectives.CoreId) (sid : string) (seq : nat)
    (items : list RawItem) (q : Question) :
  q ∈ normalizeFrom display_order core sid seq items
  ↔ ∃ j it, items !! j = Some it
            ∧ normalizeItem display_order core sid (S (seq + j)) it = Some q.
Proof.
  revert seq. induction items as [|it items IH]; intros seq; simpl.
  - rewrite elem_of_nil. split; [done|]. by intros (j & it & Hj & _).
  - assert (q ∈ normalizeFrom display_order core sid (S seq) items
            ↔ ∃ j it', (it :: items) !! S j = Some it'
                ∧ normalizeItem display_order core sid (S (seq + S j)) it' = Some q) as IH'.
    { rewrite IH. split; intros (j & it' & Hj & Hq); exists j, it'; split; try done;
        [by rewrite Nat.add_succ_r|by rewrite Nat.add_succ_r in Hq]. }
    destruct (normalizeItem display_order core sid (S seq) it) as [q0|] eqn:E.
    + rewrite elem_of_cons, IH'. split.
      * intros [->|(j & it' & Hj & Hq)].
        -- exists 0%nat, it. by rewrite Nat.add_0_r.
        -- by exists (S j), it'.
      * intros ([|j] & it' & Hj & Hq).
        -- left. injection Hj as <-. rewrite Nat.add_0_r in Hq. congruence.
        -- right. by exists j, it'.
    + rewrite IH'. split.
      * intros (j & it' & Hj & Hq). by exists (S j), it'.
      * intros ([|j] & it' & Hj & Hq).
        -- injection Hj as <-. rewrite Nat.add_0_r in Hq. congruence.
        -- by exists j, it'.
Qed.

Lemma normalizeFrom_length (core : Objectives.CoreId) (sid : string) (seq : nat)
    (items : list RawItem) :
  length (normalizeFrom display_order core sid seq items) = length (filter known_type items).
Proof.
  revert seq. induction items as [|it items IH]; intros seq; [done|].
  simpl. rewrite filter_cons.
  pose proof (normalizeItem_known core sid (S seq) it) as Hk.
  destruct (normalizeItem display_order core sid (S seq) it) as [q0|].
  - rewrite decide_True by (apply Hk; by eexists). simpl. by rewrite IH.
  - rewrite decide_False by (intros H; apply Hk in H; by destruct H). apply IH.
Qed.

Lemma question_id_inj (sid : string) (j k : nat) :
  sid +:+ "-q-" +:+ pretty j = sid +:+ "-q-" +:+ pretty k → j = k.
Proof.
  intros H. apply (inj (String.app sid)) in H. apply (inj (String.app "-q-")) in H.
  by apply (inj pretty) in H.
Qed.

Lemma normalizeFrom_NoDup (core : Objectives.CoreId) (sid : string) (seq : nat)
    (items : list RawItem) :
  NoDup (q_id <$> normalizeFrom display_order core sid seq items).
Proof.
  revert seq. induction items as [|it items IH]; intros seq; simpl; [constructor|].
  destruct (normalizeItem display_order core sid (S seq) it) as [q0|] eqn:E; [|apply IH].
  rewrite fmap_cons. constructor; [|apply IH].
  rewrite list_elem_of_fmap. intros (q & Hid & Hq).
  apply normalizeFrom_elem in Hq as (j & it' & _ & Hq).
  apply normalizeItem_id in E as (E & _). apply normalizeItem_id in Hq as (Hq & _).
  rewrite E, Hq in Hid. apply question_id_inj in Hid. lia.
Qed.

Lemma normalizeFrom_all_known (core : Objectives.CoreId) (sid : string) (seq : nat)
    (items : list RawItem) :
  Forall known_type items →
  q_id <$> normalizeFrom display_order core sid seq items
  = imap (λ j _, question_id sid (seq + j)) items.
Proof.
  revert seq. induction items as [|it items IH]; intros seq Hall; [done|].
  inversion_clear Hall as [|? ? Hk Hrest]. simpl.
  apply (normalizeItem_known core sid (S seq)) in Hk as [q0 E]. rewrite E.
  rewrite fmap_cons, IH by done. f_equal.
  - apply normalizeItem_id in E as (-> & _). unfold question_id. by rewrite Nat.add_0_r.
  - apply imap_ext. intros j x _. simpl. unfold question_id. by rewrite Nat.add_succ_r.
Qed.
End NormalizerFacts.

(** X5: the questions of [normalizeQuestions].  There is one question for
    each item of a known type and none for the others; the question made from
    the item at index [j] has the id [<sessionId>-q-<j+1>], so an item that is
    dropped still uses up its number; the ids are distinct; a question has
    the core of the call and the type and the objective of its item. *)
Theorem normalizeQuestions_ids
    (display_order : list ExamTypes.Entry → list ExamTypes.Entry)
    (core : Objectives.CoreId) (sessionId : string) (items : list Planner.RawItem) :
  let qs := Planner.normalizeQuestions display_order core sessionId items in
  length qs = length (filter known_type items)
  ∧ NoDup (ExamTypes.q_id <$> qs)
  ∧ (∀ q, q ∈ qs →
       ExamTypes.q_core q = core
       ∧ ∃ j it, items !! j = Some it ∧ known_type it
           ∧ ExamTypes.q_id q = question_id sessionId j
           ∧ ExamTypes.type_name (ExamTypes.q_type q) = Planner.it_type it
           ∧ ExamTypes.q_objective q = Planner.it_objectiveId it)
  ∧ (∀ j it, items !! j = Some it → known_type it →
       ∃ q, q ∈ qs ∧ ExamTypes.q_id q = question_id sessionId j)
  ∧ (Forall known_type items →
       ExamTypes.q_id <$> qs = imap (λ j _, question_id sessionId j) items).
Proof.
  intros qs. subst qs. unfold Planner.normalizeQuestions.
  split; [apply normalizeFrom_length|]. split; [apply normalizeFrom_NoDup|].
  split; [|split].
  - intros q Hq. apply normalizeFrom_elem in Hq as (j & it & Hj & Hq).
    pose proof (normalizeItem_id _ _ _ _ _ _ Hq) as (Hid & Hcore & Hty & Hobj).
    split; [done|]. exists j, it. split; [done|]. split; [|done].
    apply (normalizeItem_known display_order core sessionId (S (0 + j))). by eexists.
  - intros j it Hj Hk.
    apply (normalizeItem_known display_order core sessionId (S (0 + j))) in Hk as [q Hq].
    exists q. split.
    + apply normalizeFrom_elem. by exists j, it.
    + by apply normalizeItem_id in Hq as (-> & _).
  - intros Hall. by rewrite normalizeFrom_all_known.
Qed.

Section AnswerKeys.
Import Text ExamTypes Planner Scoring.
Variable display_order : list Entry → list Entry.

Lemma option_ids (arr : list string) (i : Z) (c : string) :
  e_id <$> at_index (entries "o" arr) i = Some c →
  in_range arr i ∧ c = "o" +:+ pretty (S (Z.to_nat i)).
Proof.
  destruct (at_index (entries "o" arr) i) as [e|] eqn:E; [|done].
  intros [= <-]. apply at_index_Some in E as (Hr & Hl).
  unfold in_range in *. rewrite entries_length in Hr. split; [done|].
  rewrite entries_lookup in Hl. destruct (arr !! Z.to_nat i); [|done].
  by injection Hl as <-.
Qed.

Lemma choice_key (arr : list string) (idx : list Z) :
  omap (λ i, e_id <$> at_index (entries "o" arr) i) idx
  = (λ i, "o" +:+ pretty (S (Z.to_nat i)))
    <$> filter (λ i, in_range arr i) idx.
Proof.
  induction idx as [|i idx IH]; [done|].
  rewrite filter_cons.
  destruct (decide (in_range arr i)) as [Hr|Hr].
  - rewrite fmap_cons, <- IH. simpl.
    destruct (at_index (entries "o" arr) i) as [e|] eqn:E; simpl.
    + pose proof (option_ids arr i (e_id e)) as H. rewrite E in H.
      destruct (H eq_refl) as (_ & ->). done.
    + apply at_index_None in E. unfold in_range in *. by rewrite entries_length in E.
  - rewrite <- IH. simpl.
    destruct (at_index (entries "o" arr) i) as [e|] eqn:E; simpl; [|done].
    apply at_index_Some in E as (E & _). unfold in_range in *.
    by rewrite entries_length in E.
Qed.
End AnswerKeys.

(** X6: the answer key of a normalized choice question.  The options are
    the item's texts under the ids [o1], [o2], ... in that order; the key
    holds, in the order of [correctIndices], the id [o<i+1>] of every index
    [i] that names an option, and nothing for an index outside of the
    options; [correctIndices] that is missing gives the empty key. *)
Theorem normalizeItem_choice_key
    (display_order : list ExamTypes.Entry → list ExamTypes.Entry)
    (core : Objectives.CoreId) (sessionId : string) (seq : nat)
    (it : Planner.RawItem) :
  Planner.it_type it = "single" ∨ Planner.it_type it = "multi" →
  ∃ q opts,
    Planner.normalizeItem display_order core sessionId seq it = Some q
    ∧ ExamTypes.q_options q = Some opts
    ∧ ExamTypes.q_pbq q = None
    ∧ ExamTypes.e_text <$> opts = default [] (Planner.it_options it)
    ∧ ExamTypes.e_id <$> opts
      = imap (λ i _, "o" +:+ pretty (S i)) (default [] (Planner.it_options it))
    ∧ ExamTypes.q_correct q
      = (λ i, "o" +:+ pretty (S (Z.to_nat i)))
        <$> filter (λ i, in_range (default [] (Planner.it_options it)) i)
              (default [] (Planner.it_correctIndices it))
    ∧ Forall (λ c, c ∈ ExamTypes.e_id <$> opts) (ExamTypes.q_correct q).
Proof.
  intros Hty. unfold Planner.normalizeItem. rewrite decide_True by done.
  eexists _, _. split; [reflexivity|]. cbn [ExamTypes.q_options ExamTypes.q_pbq ExamTypes.q_correct].
  split; [reflexivity|]. split; [reflexivity|].
  split; [apply entries_texts|]. split.
  { apply list_eq. intros i. rewrite list_lookup_fmap, entries_lookup, list_lookup_imap.
    by destruct (default [] (Planner.it_options it) !! i). }
  split; [apply choice_key|].
  apply Forall_forall. intros c Hc. apply list_elem_of_omap in Hc as (i & _ & Hi).
  destruct (Planner.at_index _ i) as [e|] eqn:E; [|done].
  injection Hi as <-. apply list_elem_of_fmap. exists e. split; [done|].
  apply at_index_Some in E as (_ & E). by eapply list_elem_of_lookup_2.
Qed.

Lemma normalizeItem_choice_key_witness :
  ∃ q opts,
    Planner.normalizeItem as_listed Objectives.Core_220_1201 "s" 1 plain_item = Some q
    ∧ ExamTypes.q_options q = Some opts
    ∧ ExamTypes.q_correct q = ["o1"].
Proof.
  destruct (normalizeItem_choice_key as_listed Objectives.Core_220_1201 "s" 1 plain_item)
    as (q & opts & Hq & Ho & _ & _ & _ & Hc & _); [by left|].
  exists q, opts. split; [exact Hq|]. split; [exact Ho|]. exact Hc.
Defined.

Section Unanswered.
Import Text ExamTypes Planner Scoring.

Lemma choice_correct (display_order : list Entry → list Entry)
    (core : Objectives.CoreId) (sid : string) (seq : nat) (it : RawItem) (q : Question) :
  normalizeItem display_order core sid seq it = Some q →
  it_type it = "single" ∨ it_type it = "multi" →
  q_correct q
  = (λ i, "o" +:+ pretty (S (Z.to_nat i)))
    <$> filter (λ i, in_range (default [] (it_options it)) i)
          (default [] (it_correctIndices it)).
Proof.
  intros Hq Hty. unfold normalizeItem in Hq. rewrite decide_True in Hq by done.
  injection Hq as <-. apply choice_key.
Qed.
End Unanswered.

(** X7: what a question that was not answered scores.  A choice question
    without an entry in [answers] is compared with the empty answer, so it
    is judged correct exactly when its key is empty, which the normalizer
    produces when none of the item's [correctIndices] names an option.  A
    PBQ without an entry in [pbqState] is judged incorrect whatever its
    key. *)
Theorem unanswered_question_verdict
    (display_order : list ExamTypes.Entry → list ExamTypes.Entry)
    (core : Objectives.CoreId) (sessionId : string) (seq : nat)
    (it : Planner.RawItem) (q : ExamTypes.Question)
    (answers : Scoring.AnswerMap) (pbqState : option (gmap string Scoring.PbqAnswer)) :
  Planner.normalizeItem display_order core sessionId seq it = Some q →
  (Planner.it_type it = "single" ∨ Planner.it_type it = "multi" →
   answers !! ExamTypes.q_id q = None →
   (Scoring.judge q answers pbqState = true
    ↔ Forall (λ i, ¬ in_range (default [] (Planner.it_options it)) i)
        (default [] (Planner.it_correctIndices it))))
  ∧ (Planner.it_type it = "pbq-order" ∨ Planner.it_type it = "pbq-match" →
     Scoring.pbq_answer pbqState (ExamTypes.q_id q) = None →
     Scoring.judge q answers pbqState = false).
Proof.
  intros Hq. split.
  - intros Hty Hun.
    pose proof (choice_correct display_order core sessionId seq it q Hq Hty) as Hkey.
    assert (ExamTypes.q_type q = ExamTypes.single ∨ ExamTypes.q_type q = ExamTypes.multi) as Ht.
    { apply normalizeItem_id in Hq as (_ & _ & Hn & _).
      destruct (ExamTypes.q_type q); simpl in Hn; destruct Hty; [by left|congruence|congruence|by right|congruence|congruence|congruence|congruence]. }
    assert (Scoring.judge q answers pbqState = Scoring.setEq [] (ExamTypes.q_correct q)) as ->.
    { unfold Scoring.judge. rewrite Hun. by destruct Ht as [-> | ->]. }
    rewrite setEq_nil, Hkey. split.
    + intros H. apply fmap_nil_inv in H. exact (proj1 (@filter_nil_iff _ _ _ _) H).
    + intros H. by rewrite (proj2 (@filter_nil_iff _ _ _ _) H).
  - intros Hty Hun.
    assert (ExamTypes.q_type q = ExamTypes.pbq_order ∨ ExamTypes.q_type q = ExamTypes.pbq_match) as Ht.
    { apply normalizeItem_id in Hq as (_ & _ & Hn & _).
      destruct (ExamTypes.q_type q); simpl in Hn; destruct Hty; try congruence; auto. }
    unfold Scoring.judge, Scoring.submitted_order, Scoring.submitted_pairs.
    rewrite Hun. by destruct Ht as [-> | ->].
Qed.

Lemma unanswered_question_verdict_witness :
  ∃ q, Planner.normalizeItem as_listed Objectives.Core_220_1201 "s" 1 keyless_item = Some q
       ∧ Scoring.judge q ∅ None = true.
Proof.
  eexists. split; [reflexivity|].
  eapply (unanswered_question_verdict as_listed Objectives.Core_220_1201 "s" 1 keyless_item);
    [reflexivity|by left|reflexivity|].
  repeat constructor. unfold in_range. simpl. lia.
Defined.

(** ** The normalizer: the keys of the PBQs *)
Section PbqKeys.
Import Text ExamTypes Planner Scoring.

Lemma entry_text (tag : string) (arr : list string) (i : Z) :
  e_text <$> at_index (entries tag arr) i = at_index arr i.
Proof.
  unfold at_index. destruct (decide (0 ≤ i)); [|done].
  rewrite entries_lookup. by destruct (arr !! Z.to_nat i).
Qed.

Lemma text_or_undefined_entry (tag : string) (arr : list string) (i : Z) :
  text_or_undefined (at_index (entries tag arr) i) = default "undefined" (at_index arr i).
Proof.
  unfold text_or_undefined. rewrite <- (entry_text tag arr i).
  by destruct (at_index (entries tag arr) i).
Qed.

Lemma undefined_prefix (s : string) : String.prefix "undefined" ("undefined" +:+ s) = true.
Proof. by destruct s. Qed.

Lemma order_key (arr : list string) (idx : list Z) :
  omap (λ i, e_text <$> at_index (entries "s" arr) i) idx = omap (at_index arr) idx.
Proof.
  apply list_omap_ext. induction idx as [|i idx IH]; constructor; [apply entry_text|done].
Qed.

Lemma at_index_elem {A : Type} (arr : list A) (i : Z) (x : A) :
  at_index arr i = Some x → x ∈ arr.
Proof. intros H. apply at_index_Some in H as (_ & H). by eapply list_elem_of_lookup_2. Qed.
End PbqKeys.

(** X8: the keys of the normalized PBQs.  A pbq-order item becomes a
    question whose key holds, in the order of [correctOrder], the text of
    every index that names a step, without the empty texts, so every entry of
    the key is a non-empty step of the item.  A pbq-match item becomes a
    question in whose key every entry [L=>R] comes from a pair whose left
    index names a left entry with the text [L]; [R] is the text of the right
    entry, or [undefined] when the right index names none. *)
Theorem normalizeItem_pbq_keys
    (display_order : list ExamTypes.Entry → list ExamTypes.Entry)
    (core : Objectives.CoreId) (sessionId : string) (seq : nat)
    (it : Planner.RawItem) :
  (Planner.it_type it = "pbq-order" →
   let steps := default [] (Planner.it_orderItems it) in
   ∃ q, Planner.normalizeItem display_order core sessionId seq it = Some q
     ∧ ExamTypes.q_options q = None
     ∧ ExamTypes.q_pbq q
       = Some (ExamTypes.PbqOrder (display_order (Planner.entries "s" steps)))
     ∧ ExamTypes.q_correct q
       = filter (λ t, t ≠ "")
           (omap (Planner.at_index steps) (default [] (Planner.it_correctOrder it)))
     ∧ Forall (λ c, c ∈ steps ∧ c ≠ "") (ExamTypes.q_correct q))
  ∧ (Planner.it_type it = "pbq-match" →
     let left := default [] (Planner.it_left it) in
     let right := default [] (Planner.it_right it) in
     let pairs := default [] (Planner.it_correctPairs it) in
     ∃ q, Planner.normalizeItem display_order core sessionId seq it = Some q
       ∧ ExamTypes.q_options q = None
       ∧ ExamTypes.q_pbq q
         = Some (ExamTypes.PbqMatch
                   (Planner.or_else (Planner.it_leftLabel it) "Left")
                   (Planner.or_else (Planner.it_rightLabel it) "Right")
                   (Planner.entries "l" left) (Planner.entries "r" right))
       ∧ (length (ExamTypes.q_correct q) ≤ length pairs)%nat
       ∧ Forall (λ c, ∃ p L, p ∈ pairs ∧ Planner.at_index left (fst p) = Some L
                        ∧ c = L +:+ "=>"
                              +:+ default "undefined" (Planner.at_index right (snd p)))
           (ExamTypes.q_correct q)).
Proof.
  split.
  - intros Hty steps. unfold Planner.normalizeItem.
    rewrite decide_False by (rewrite Hty; intros [?|?]; discriminate).
    rewrite decide_True by done.
    eexists. split; [reflexivity|].
    cbn [ExamTypes.q_options ExamTypes.q_pbq ExamTypes.q_correct].
    split; [reflexivity|]. split; [reflexivity|].
    rewrite order_key. split; [reflexivity|].
    apply Forall_forall. intros c Hc.
    apply list_elem_of_filter in Hc as (Hne & Hc).
    apply list_elem_of_omap in Hc as (i & _ & Hi).
    split; [by eapply at_index_elem|done].
  - intros Hty left right pairs. unfold Planner.normalizeItem.
    rewrite decide_False by (rewrite Hty; intros [?|?]; discriminate).
    rewrite decide_False by (rewrite Hty; discriminate).
    rewrite decide_True by done.
    eexists. split; [reflexivity|].
    cbn [ExamTypes.q_options ExamTypes.q_pbq ExamTypes.q_correct].
    split; [reflexivity|]. split; [reflexivity|]. split.
    + etransitivity; [apply length_filter|]. by rewrite length_map.
    + apply Forall_forall. intros c Hc.
      apply list_elem_of_filter in Hc as (Hpre & Hc).
      apply list_elem_of_fmap in Hc as (p & -> & Hp).
      rewrite !text_or_undefined_entry in Hpre |- *. fold left right in Hpre |- *.
      destruct (Planner.at_index left p.1) as [L|] eqn:EL.
      * exists p, L. done.
      * cbn [from_option] in Hpre. by rewrite undefined_prefix in Hpre.
Qed.

(** ** The plan builder: the order of the domains and the answer types *)
Section PlanShape.
Import Text Objectives ExamTypes Planner.
Variable OBJECTIVES : CoreId → list (string * ObjectiveMeta).
Variable source : nat → Q.

Lemma bind_inv {A B : Type} (m : Random.Rnd A) (f : A → Random.Rnd B)
    (k : nat) (r : B * nat) :
  Random.bind m f source k = Some r →
  ∃ a k1, m source k = Some (a, k1) ∧ f a source k1 = Some r.
Proof.
  unfold Random.bind. destruct (m source k) as [[a k1]|]; [|done].
  intros H. by exists a, k1.
Qed.








End PlanShape.

Lemma allocation_of_core (core : Objectives.CoreId) :
  Planner.allocateByWeight Planner.EXAM_QUESTION_COUNT (blueprint_of core)
  = Planner.Returned (allocation_of core).
Proof. destruct core; [apply core1_allocation|apply core2_allocation]. Qed.



(** ** The remote batch generator: what a validated batch looks like *)
Section BatchShape.
Import ExamTypes Generate.

Lemma not_array_within_false (v : option json) (lo hi : nat) :
  not_array_within v lo hi = false ↔ array_within v lo hi.
Proof.
  unfold not_array_within, array_within. destruct (array_length v) as [n|].
  - rewrite negb_false_iff, bool_decide_eq_true. split.
    + intros H. by exists n.
    + by intros (m & [= <-] & H).
  - split; [done|]. by intros (m & H & _).
Qed.

Lemma not_array_of_at_least_false (v : option json) (lo : nat) :
  not_array_of_at_least v lo = false ↔ ∃ n, array_length v = Some n ∧ (lo ≤ n)%nat.
Proof.
  unfold not_array_of_at_least. destruct (array_length v) as [n|].
  - rewrite negb_false_iff, bool_decide_eq_true. split.
    + intros H. by exists n.
    + by intros (m & [= <-] & H).
  - split; [done|]. by intros (m & H & _).
Qed.

Lemma validateItem_passes (q : json) : validateItem q = Passed () ↔ well_shaped q.
Proof.
  assert (∀ q', property q' "type" = None → ¬ well_shaped q') as Hno.
  { intros q' Hp (Hall & _). inversion Hall as [|? ? [x Hx] _]. congruence. }
  destruct q as [|b|n|s|l|properties];
    try (split; [done|intros H; by apply Hno in H]).
  unfold validateItem, well_shaped.
  destruct (list_find _ reqBase) as [[i k]|] eqn:Hfind.
  { apply list_find_Some in Hfind as (Hk & Hnot & _). split; [done|].
    intros (Hall & _). exfalso. rewrite Forall_forall in Hall. apply Hnot, Hall.
    by eapply list_elem_of_lookup_2. }
  apply list_find_None in Hfind.
  assert (Forall (λ k, is_Some (property (JObject properties) k)) reqBase) as Hall.
  { eapply Forall_impl; [exact Hfind|]. intros k Hk. by apply dec_stable. }
  clear Hfind. cbn zeta.
  set (type := string_value (property (JObject properties) "type")).
  destruct (bool_decide (type ∈ _)) eqn:Hknown; cbn [negb].
  2:{ apply bool_decide_eq_false in Hknown. split; [done|].
      intros (_ & _ & [([Ht|Ht] & _)|[(Ht & _)|(Ht & _)]]); exfalso; apply Hknown; rewrite Ht;
        repeat (apply elem_of_cons; (by left) || right). }
  apply bool_decide_eq_true in Hknown.
  destruct (bool_decide (is_Some (array_length _))) eqn:Hbul; cbn [negb].
  2:{ apply bool_decide_eq_false in Hbul. split; [done|]. by intros (_ & Hb & _). }
  apply bool_decide_eq_true in Hbul.
  destruct (bool_decide (type = Some "single" ∨ type = Some "multi")) eqn:Hchoice.
  { apply bool_decide_eq_true in Hchoice.
    assert (type ≠ Some "pbq-order" ∧ type ≠ Some "pbq-match") as (Hn1 & Hn2)
      by (destruct Hchoice as [-> | ->]; done).
    destruct (not_array_within _ 4 6) eqn:Ho.
    { split; [done|]. intros (_ & _ & [(_ & H & _)|[(Ht & _)|(Ht & _)]]); [|done|done].
      apply not_array_within_false in H. congruence. }
    destruct (not_array_within _ 1 3) eqn:Hc.
    { split; [done|]. intros (_ & _ & [(_ & _ & H)|[(Ht & _)|(Ht & _)]]); [|done|done].
      apply not_array_within_false in H. congruence. }
    apply not_array_within_false in Ho, Hc. split; [|done]. intros _.
    split; [done|]. split; [done|]. by left. }
  apply bool_decide_eq_false in Hchoice.
  destruct (bool_decide (type = Some "pbq-order")) eqn:Horder.
  { apply bool_decide_eq_true in Horder.
    destruct (not_array_within _ 4 8) eqn:Ho.
    { split; [done|]. intros (_ & _ & [(Ht & _)|[(_ & H & _)|(Ht & _)]]); [done| |congruence].
      apply not_array_within_false in H. congruence. }
    destruct (bool_decide (_ ∧ _)) eqn:Hc; cbn [negb].
    2:{ apply bool_decide_eq_false in Hc. split; [done|].
        intros (_ & _ & [(Ht & _)|[(_ & _ & H1 & H2)|(Ht & _)]]); [done| |congruence].
        exfalso. by apply Hc. }
    apply bool_decide_eq_true in Hc as (Hc1 & Hc2). apply not_array_within_false in Ho.
    split; [|done]. intros _. split; [done|]. split; [done|]. right. by left. }
  apply bool_decide_eq_false in Horder.
  assert (type = Some "pbq-match") as Hmatch.
  { repeat (apply elem_of_cons in Hknown as [Hknown|Hknown]; [tauto || done|]).
    by apply elem_of_nil in Hknown. }
  destruct (not_array_within _ 3 8) eqn:Hl.
  { split; [done|]. intros (_ & _ & [(Ht & _)|[(Ht & _)|(_ & H & _)]]); [done|done|].
    apply not_array_within_false in H. congruence. }
  destruct (not_array_within (property _ "right") 3 8) eqn:Hr.
  { split; [done|]. intros (_ & _ & [(Ht & _)|[(Ht & _)|(_ & _ & H & _)]]); [done|done|].
    apply not_array_within_false in H. congruence. }
  destruct (not_array_of_at_least _ 1) eqn:Hp.
  { split; [done|]. intros (_ & _ & [(Ht & _)|[(Ht & _)|(_ & _ & _ & H)]]); [done|done|].
    apply not_array_of_at_least_false in H. congruence. }
  apply not_array_within_false in Hl, Hr. apply not_array_of_at_least_false in Hp.
  split; [|done]. intros _. split; [done|]. split; [done|]. right. by right.
Qed.

Lemma validateItems_passes (qs : list json) :
  validateItems qs = Passed () ↔ Forall well_shaped qs.
Proof.
  induction qs as [|q qs IH]; simpl; [by split; [constructor|]|].
  rewrite Forall_cons, <- IH, <- validateItem_passes.
  destruct (validateItem q) as [[]|m]; [tauto|].
  split; [done|]. by intros [? _].
Qed.

Lemma validateBatch_sound (expected : nat) (obj : json) (items : list json) :
  validateBatch expected obj = Passed items →
  obj = JObject [("items", JArray items)]
  ∧ length items = expected ∧ Forall well_shaped items.
Proof.
  unfold validateBatch. destruct obj as [| | | | |properties]; try done.
  destruct (bool_decide (fst <$> properties = ["items"])) eqn:Hkeys; [|done].
  apply bool_decide_eq_true in Hkeys. cbn [negb].
  destruct properties as [|[k v] [|? ?]]; try done.
  simpl in Hkeys. injection Hkeys as ->. simpl.
  destruct v as [| | | |arr|]; try done.
  destruct (bool_decide (length arr = expected)) eqn:Hlen; [|done].
  apply bool_decide_eq_true in Hlen. cbn [negb].
  destruct (validateItems arr) as [[]|m] eqn:Hitems; [|done].
  intros [= <-]. split; [done|]. split; [done|]. by apply validateItems_passes.
Qed.
End BatchShape.

(** X10: [validateBatch] accepts exactly the objects whose only key is
    [items], bound to an array of as many elements as were requested, every
    element of which is an object with the seven common fields, a known type,
    [objectiveBullets] an array, and the arrays of its type within their
    bounds (options 4..6 and correctIndices 1..3; orderItems 4..8 and
    correctOrder of the same length; left and right 3..8 and correctPairs
    non-empty); it then returns that array unchanged. *)
Theorem validateBatch_accepts_exactly_well_shaped
    (expected : nat) (obj : Generate.json) (items : list Generate.json) :
  Generate.validateBatch expected obj = Generate.Passed items
  ↔ obj = Generate.JObject [("items", Generate.JArray items)]
    ∧ length items = expected ∧ Forall well_shaped items.
Proof.
  split; [apply validateBatch_sound|].
  intros (-> & Hlen & Hall). unfold Generate.validateBatch. simpl.
  rewrite bool_decide_eq_true_2 by done. cbn [negb].
  apply validateItems_passes in Hall. by rewrite Hall.
Qed.

(** ** The remote batch generator: what a call sends and returns *)
Section CallBounds.
Import ExamTypes Generate.
Variable JSON_parse : string → json + string.
Variable fetch : nat → Body → response.

Lemma parse_and_validate_valid (expected : nat) (text : string) (itemsOut : list json) :
  parse_and_validate JSON_parse expected text = Valid itemsOut →
  length itemsOut = expected ∧ Forall well_shaped itemsOut.
Proof.
  unfold parse_and_validate.
  destruct (extractJsonObject JSON_parse text) as [obj| |m]; [|done|done].
  destruct (validateBatch expected obj) as [arr|m] eqn:E; [|done].
  intros [= <-]. by apply validateBatch_sound in E as (_ & ? & ?).
Qed.

Lemma attempts_bounds (model : string) (items : list PlanItem) (difficulty : Difficulty)
    (remaining attempt : nat) (lastErr : option string) (sent : list Body) :
  let r := attempts JSON_parse fetch model items difficulty remaining attempt lastErr sent in
  ∃ new, snd r = sent ++ new
    ∧ (length new ≤ remaining)%nat
    ∧ (0 < remaining → new ≠ [])%nat
    ∧ Forall (λ b, b_model b = model ∧ b_difficulty b = difficulty
                   ∧ b_items b = payloadItem <$> items) new
    ∧ (∀ itemsOut, fst r = Returns itemsOut →
         length itemsOut = length items ∧ Forall well_shaped itemsOut).
Proof.
  revert attempt lastErr sent. induction remaining as [|remaining IH];
    intros attempt lastErr sent; cbn zeta.
  - exists []. simpl. rewrite app_nil_r. split_and!; [done|lia|lia|constructor|done].
  - cbn [attempts].
    set (body := {| b_model := model;
                    b_system := join_lines (systemOf (length items) attempt lastErr);
                    b_difficulty := difficulty; b_items := payloadItem <$> items |}).
    assert (Forall (λ b, b_model b = model ∧ b_difficulty b = difficulty
                         ∧ b_items b = payloadItem <$> items) [body]) as Hbody
      by (by repeat constructor).
    destruct (fetch attempt body) as [status errText statusText|message|data].
    + exists [body]. simpl. split_and!; [done|lia|done|done|done].
    + exists [body]. simpl. split_and!; [done|lia|done|done|done].
    + destruct (response_text data) as [text|].
      * destruct (parse_and_validate JSON_parse (length items) text) as [itemsOut|err] eqn:E.
        -- exists [body]. simpl. split_and!; [done|lia|done|done|].
           intros ? [= <-]. by apply parse_and_validate_valid in E.
        -- destruct (IH (S attempt) (Some err) (sent ++ [body]))
             as (new & Hsent & Hlen & _ & Hall & Hret).
           exists (body :: new). rewrite Hsent, <- app_assoc. simpl.
           split_and!; [done|lia|done|by apply Forall_cons|apply Hret].
      * exists [body]. simpl. split_and!; [done|lia|done|done|done].
Qed.
End CallBounds.

(** X11: what a call of [callOpenAI] sends and returns, whatever the
    backend answers.  Without an API key nothing is sent; with one, one or
    two requests are sent, each with the model, the difficulty and the plan
    items of the call.  A batch that is returned has as many items as were
    requested, each of the shape [validateBatch] asks for.  A response that
    is not ok ends the call at once with the error of the backend: only a
    batch that fails validation is asked for again. *)
Theorem callOpenAI_sends_and_returns
    (JSON_parse : string → Generate.json + string)
    (fetch : nat → Generate.Body → Generate.response)
    (OPENAI_API_KEY : option string)
    (model : string) (items : list Generate.PlanItem) (difficulty : ExamTypes.Difficulty) :
  let r := Generate.callOpenAI JSON_parse fetch OPENAI_API_KEY model items difficulty in
  (length (snd r) ≤ 2)%nat
  ∧ (snd r = [] ↔ OPENAI_API_KEY = None ∨ OPENAI_API_KEY = Some "")
  ∧ Forall (λ b, Generate.b_model b = model ∧ Generate.b_difficulty b = difficulty
                 ∧ Generate.b_items b = Generate.payloadItem <$> items) (snd r)
  ∧ (∀ itemsOut, fst r = Generate.Returns itemsOut →
       length itemsOut = length items ∧ Forall well_shaped itemsOut ∧ snd r ≠ [])
  ∧ (∀ key status errText statusText,
       OPENAI_API_KEY = Some key → key ≠ "" →
       fetch 0%nat (first_request model items difficulty)
       = Generate.NotOk status errText statusText →
       r = (Generate.Throws ("OpenAI error " +:+ pretty status +:+ ": "
                             +:+ (if decide (errText = "") then statusText else errText)),
            [first_request model items difficulty])).
Proof.
  intros r. subst r. unfold Generate.callOpenAI.
  destruct OPENAI_API_KEY as [[|c key]|].
  - simpl. split_and!; [lia|by split; auto|constructor|done|]. intros ? ? ? ? [= <-]. done.
  - destruct (attempts_bounds JSON_parse fetch model items difficulty 2 0 None [])
      as (new & Hsent & Hlen & Hne & Hall & Hret).
    cbn zeta in *. simpl app in Hsent. rewrite Hsent.
    split; [done|]. split.
    { split; [intros ->; exfalso; by apply Hne; [lia|]|]. by intros [?|?]. }
    split; [done|]. split.
    { intros itemsOut Hr. destruct (Hret itemsOut Hr) as (? & ?).
      split; [done|]. split; [done|]. apply Hne. lia. }
    intros key' status errText statusText _ _ Hfetch.
    cbn [Generate.attempts]. unfold Generate.systemOf. fold (first_request model items difficulty).
    by rewrite Hfetch.
  - simpl. split_and!; [lia|by split; auto|constructor|done|done].
Qed.

(** ** The request handler: the rate limiter *)
Section Limiter.
Import Handler.

Lemma enforceRateLimit_fresh (h : Headers) (now : Z) (rate : gmap string RateEntry) :
  (∀ e, rate !! getClientIp h = Some e → resetAt e < now) →
  allowed (fst (enforceRateLimit h now rate)) = true
  ∧ snd (enforceRateLimit h now rate)
    = <[getClientIp h := {| resetAt := now + RATE_WINDOW_MS; count := 1 |}]> rate.
Proof.
  intros Hold. unfold enforceRateLimit.
  destruct (rate !! getClientIp h) as [cur|] eqn:E; [|done].
  specialize (Hold cur eq_refl). by rewrite decide_True by lia.
Qed.

Lemma enforceRateLimit_open (h : Headers) (now : Z) (rate : gmap string RateEntry)
    (cur : RateEntry) :
  rate !! getClientIp h = Some cur → now ≤ resetAt cur →
  allowed (fst (enforceRateLimit h now rate)) = bool_decide (count cur < RATE_LIMIT)
  ∧ snd (enforceRateLimit h now rate)
    = if decide (count cur < RATE_LIMIT)
      then <[getClientIp h := {| resetAt := resetAt cur; count := count cur + 1 |}]> rate
      else rate.
Proof.
  intros E Hnow. unfold enforceRateLimit. rewrite E.
  rewrite decide_False by lia.
  destruct (decide (count cur >= RATE_LIMIT)) as [Hc|Hc].
  - rewrite bool_decide_eq_false_2 by lia. by rewrite decide_False by lia.
  - rewrite bool_decide_eq_true_2 by lia. by rewrite decide_True by lia.
Qed.

(** Within the window of a client that has made [c] requests, request
    number [i] from now on is allowed while [c + i] stays below the limit. *)
Lemma requests_in_window (h : Headers) (times : list Z) (rate : gmap string RateEntry)
    (cur : RateEntry) :
  rate !! getClientIp h = Some cur →
  Forall (λ t, t ≤ resetAt cur) times →
  fst (requests h times rate)
  = (λ i : nat, bool_decide (count cur + Z.of_nat i < RATE_LIMIT)) <$> seq 0 (length times).
Proof.
  revert rate cur. induction times as [|t times IH]; intros rate cur E Hall; [done|].
  inversion_clear Hall as [|? ? Ht Hrest].
  destruct (enforceRateLimit_open h t rate cur E Ht) as (Ha & Hr).
  cbn [requests fst snd length seq fmap list_fmap]. rewrite Ha, Hr. f_equal.
  { by rewrite Z.add_0_r. }
  rewrite <- fmap_S_seq, <- list_fmap_compose.
  destruct (decide (count cur < RATE_LIMIT)) as [Hc|Hc].
  - rewrite (IH _ {| resetAt := resetAt cur; count := count cur + 1 |});
      [|by rewrite lookup_insert_eq|done].
    apply list_fmap_ext. intros i x _. simpl. apply bool_decide_ext. lia.
  - rewrite (IH _ cur E Hrest).
    apply list_fmap_ext. intros i x _. simpl.
    rewrite !bool_decide_eq_false_2; [done|lia|lia].
Qed.
End Limiter.

(** X12: the window of the rate limiter.  Of the requests a client makes
    from the start of a window to its end, 60 seconds later, exactly the
    first 30 are allowed, however the requests are spread over the
    window. *)
Theorem enforceRateLimit_allows_first_30
    (h : Handler.Headers) (t0 : Z) (times : list Z)
    (rate : gmap string Handler.RateEntry) :
  (∀ e, rate !! Handler.getClientIp h = Some e → Handler.resetAt e < t0) →
  Forall (λ t, t ≤ t0 + Handler.RATE_WINDOW_MS) times →
  fst (requests h (t0 :: times) rate)
  = (λ i : nat, bool_decide (i < 30)%nat) <$> seq 0 (S (length times)).
Proof.
  intros Hold Hall.
  destruct (enforceRateLimit_fresh h t0 rate Hold) as (Ha & Hr).
  cbn [requests fst snd seq fmap list_fmap]. rewrite Ha, Hr. f_equal.
  rewrite (requests_in_window h times _
             {| Handler.resetAt := t0 + Handler.RATE_WINDOW_MS; Handler.count := 1 |});
    [|by rewrite lookup_insert_eq|done].
  rewrite <- fmap_S_seq, <- list_fmap_compose.
  apply list_fmap_ext. intros i x _. simpl. apply bool_decide_ext.
  unfold Handler.RATE_LIMIT. lia.
Qed.

Lemma enforceRateLimit_allows_first_30_witness :
  fst (requests {| Handler.x_forwarded_for := Some "10.0.0.7"; Handler.x_real_ip := None;
                   Handler.remoteAddress := None |}
         (0 :: replicate 31 1000) ∅)
  = replicate 30 true ++ [false; false].
Proof.
  apply (enforceRateLimit_allows_first_30
           {| Handler.x_forwarded_for := Some "10.0.0.7"; Handler.x_real_ip := None;
              Handler.remoteAddress := None |} 0 (replicate 31 1000) ∅).
  - intros e He. by rewrite lookup_empty in He.
  - vm_compute. repeat constructor; discriminate.
Defined.

(** X13: what a call of the rate limiter does to the map.  The entries of
    the other clients stay as they are; every count stays between 1 and 30;
    a refusal changes nothing, answers 429, and names a whole number of
    seconds, at least one, after which the window has come to its end: any
    request later than that is allowed again. *)
Theorem enforceRateLimit_refusal_and_frame
    (h : Handler.Headers) (now : Z) (rate : gmap string Handler.RateEntry) :
  let r := Handler.enforceRateLimit h now rate in
  (∀ ip, ip ≠ Handler.getClientIp h → snd r !! ip = rate !! ip)
  ∧ (counts_in_range rate → counts_in_range (snd r))
  ∧ (∀ response, fst r = Handler.Refused response →
       snd r = rate
       ∧ Handler.status response = 429
       ∧ ∃ text retry,
           Handler.payload response = Handler.RateLimitBody text retry
           ∧ 1 ≤ retry
           ∧ ∀ later, now + 1000 * retry < later →
               allowed (fst (Handler.enforceRateLimit h later rate)) = true).
Proof.
  intros r. subst r. unfold Handler.enforceRateLimit.
  destruct (rate !! Handler.getClientIp h) as [cur|] eqn:E.
  2:{ cbn [fst snd]. split; [intros ip Hip; by rewrite lookup_insert_ne|].
      split; [|done]. intros Hinv ip e.
      destruct (decide (ip = Handler.getClientIp h)) as [->|Hip].
      - rewrite lookup_insert_eq. intros [= <-]. simpl. unfold Handler.RATE_LIMIT. lia.
      - rewrite lookup_insert_ne by done. apply Hinv. }
  destruct (decide (now > Handler.resetAt cur)) as [Hnew|Hin].
  { cbn [fst snd]. split; [intros ip Hip; by rewrite lookup_insert_ne|].
    split; [|done]. intros Hinv ip e.
    destruct (decide (ip = Handler.getClientIp h)) as [->|Hip].
    - rewrite lookup_insert_eq. intros [= <-]. simpl. unfold Handler.RATE_LIMIT. lia.
    - rewrite lookup_insert_ne by done. apply Hinv. }
  destruct (decide (Handler.count cur >= Handler.RATE_LIMIT)) as [Hfull|Hroom].
  - cbn [fst snd]. split; [done|]. split; [done|].
    intros response [= <-]. split; [done|]. split; [done|].
    eexists _, _. split; [reflexivity|]. split; [lia|].
    intros later Hlater.
    assert (Handler.resetAt cur - now
            ≤ 1000 * Handler.ceil_seconds (Handler.resetAt cur - now)) as Hceil.
    { unfold Handler.ceil_seconds.
      pose proof (Z.mul_div_le (- (Handler.resetAt cur - now)) 1000). lia. }
    by rewrite decide_True by lia.
  - cbn [fst snd]. split; [intros ip Hip; by rewrite lookup_insert_ne|].
    split; [|done]. intros Hinv ip e.
    destruct (decide (ip = Handler.getClientIp h)) as [->|Hip].
    + rewrite lookup_insert_eq. intros [= <-]. simpl. specialize (Hinv _ _ E). lia.
    + rewrite lookup_insert_ne by done. apply Hinv.
Qed.

(** ** The request handler: the cache *)

(** X14: the cache.  A value that was stored is found under its key until
    15 minutes have passed, the last millisecond included, and the lookup
    leaves the cache as it is; a later lookup finds nothing and removes the
    entry; storing under one key does not change what is found under
    another; and a lookup never adds an entry. *)
Theorem cache_round_trip {T : Type}
    (cache : gmap string (Handler.CacheEntry T)) (key : string) (v : T) (t0 t : Z) :
  let stored := Handler.cacheSet key v t0 cache in
  (t ≤ t0 + Handler.CACHE_TTL_MS → Handler.cacheGet key t stored = (Some v, stored))
  ∧ (t0 + Handler.CACHE_TTL_MS < t →
     Handler.cacheGet key t stored = (None, delete key cache))
  ∧ (∀ key', key' ≠ key →
       fst (Handler.cacheGet key' t stored) = fst (Handler.cacheGet key' t cache))
  ∧ snd (Handler.cacheGet key t cache) ⊆ cache
  ∧ (∀ v', fst (Handler.cacheGet key t cache) = Some v' →
       snd (Handler.cacheGet key t cache) = cache
       ∧ ∃ e, cache !! key = Some e ∧ Handler.value e = v' ∧ t ≤ Handler.expiresAt e)
  ∧ (fst (Handler.cacheGet key t cache) = None →
     snd (Handler.cacheGet key t cache) !! key = None).
Proof.
  intros stored. subst stored. unfold Handler.cacheSet, Handler.cacheGet.
  split_and!.
  - intros Ht. rewrite lookup_insert_eq. simpl. by rewrite decide_False by lia.
  - intros Ht. rewrite lookup_insert_eq. simpl. rewrite decide_True by lia.
    by rewrite delete_insert_eq.
  - intros key' Hne. rewrite lookup_insert_ne by done.
    destruct (cache !! key') as [hit|]; [|done]. by destruct (decide _).
  - destruct (cache !! key) as [hit|]; [|done].
    destruct (decide _); [apply delete_subseteq|done].
  - intros v'. destruct (cache !! key) as [hit|] eqn:E; [|done].
    destruct (decide _); [done|]. intros [= <-]. split; [done|].
    exists hit. split; [done|]. split; [done|lia].
  - destruct (cache !! key) as [hit|] eqn:E; [|done].
    destruct (decide _); [|done]. intros _. apply lookup_delete_eq.
Qed.

(** ** The request handler *)
Section HandlerFacts.
Import ExamTypes Generate Handler.
Variable cacheKey : string → list RequestItem → Difficulty → option string → option Z → string.
Variable callOpenAI : string → list PlanItem → Difficulty → outcome * list Body.
Variable type_error_message : string.

Lemma cacheGet_subseteq {T : Type} (key : string) (now : Z)
    (cache : gmap string (CacheEntry T)) :
  snd (cacheGet key now cache) ⊆ cache.
Proof.
  unfold cacheGet. destruct (cache !! key) as [hit|]; [|done].
  destruct (decide _); [apply delete_subseteq|done].
Qed.

Lemma checkItems_length (items : list RequestItem) (planItems : list PlanItem) :
  checkItems items = Passed planItems → length planItems = length items.
Proof.
  revert planItems. induction items as [|it items IH]; intros planItems; simpl.
  - by intros [= <-].
  - destruct (decide _); [done|]. destruct (ri_type it); [|done].
    destruct (checkItems items) as [ps|]; [|done].
    intros [= <-]. simpl. by rewrite (IH ps).
Qed.
End HandlerFacts.

(** X15: when the handler calls the generator, and what a failure leaves
    behind.  A request whose method is not POST gets 405 and changes nothing,
    the rate limiter included.  Requests are sent to the backend only for a
    POST that the rate limiter allowed, with a core, with 1 to 20 items that
    all have an objective and a type, and with nothing fresh in the cache
    under its key.  A response other than 200 never adds to the cache, and a
    generated batch is returned with [cached: false] and stored under the key
    of the request. *)
Theorem handler_calls_generator_only_when_needed
    (cacheKey : string → list Handler.RequestItem → ExamTypes.Difficulty
                → option string → option Z → string)
    (callOpenAI : string → list Generate.PlanItem → ExamTypes.Difficulty
                  → Generate.outcome * list Generate.Body)
    (type_error_message : string)
    (req : Handler.Request) (clock : Handler.Clock) (st : Handler.State) :
  let r := Handler.handler cacheKey callOpenAI type_error_message req clock st in
  let response := fst (fst r) in
  let sent := snd (fst r) in
  let st' := snd r in
  Handler.status response ∈ [200; 400; 405; 429; 500]
  ∧ (Handler.method req ≠ "POST" → Handler.status response = 405 ∧ st' = st)
  ∧ (Handler.method req = "POST" →
     Handler.rate st'
     = snd (Handler.enforceRateLimit (Handler.req_headers req) (Handler.at_limit clock)
              (Handler.rate st)))
  ∧ (Handler.status response ≠ 200 → Handler.cache st' ⊆ Handler.cache st)
  ∧ (sent ≠ [] →
     Handler.method req = "POST"
     ∧ allowed (fst (Handler.enforceRateLimit (Handler.req_headers req)
                       (Handler.at_limit clock) (Handler.rate st))) = true
     ∧ ∃ b planItems,
         Handler.body req = Handler.BodyRead b
         ∧ Handler.rb_core b ≠ ""
         ∧ (1 ≤ length (Handler.rb_items b) ≤ 20)%nat
         ∧ Handler.checkItems (Handler.rb_items b) = Generate.Passed planItems
         ∧ length planItems = length (Handler.rb_items b)
         ∧ fst (Handler.cacheGet
                  (cacheKey (Handler.rb_core b) (Handler.rb_items b)
                     (Handler.diff_of (Handler.rb_difficulty b))
                     (Handler.rb_generationId b) (Handler.rb_batchIndex b))
                  (Handler.at_lookup clock) (Handler.cache st)) = None
         ∧ sent = snd (callOpenAI "gpt-4o-mini" planItems
                         (Handler.diff_of (Handler.rb_difficulty b))))
  ∧ (∀ items, Handler.payload response = Handler.ItemsBody items false →
       ∃ key, Handler.cache st' !! key
              = Some {| Handler.expiresAt := Handler.at_store clock + Handler.CACHE_TTL_MS;
                        Handler.value := items |}).
Proof.
  intros r response sent st'. subst r response sent st'. unfold Handler.handler.
  assert (∀ n : Z, n ∈ [200; 400; 405; 429; 500] ↔ n = 200 ∨ n = 400 ∨ n = 405 ∨ n = 429 ∨ n = 500)
    as Hstatus.
  { intros n. rewrite !elem_of_cons, elem_of_nil. tauto. }
  destruct (decide (Handler.method req ≠ "POST")) as [Hm|Hm].
  { cbn [fst snd Handler.respond Handler.status Handler.payload].
    split_and!; [apply Hstatus; tauto|done|done|done|done|done]. }
  apply dec_stable in Hm.
  destruct (Handler.enforceRateLimit _ _ _) as [[set|refused] rate'] eqn:Hlimit.
  2:{ cbn [fst snd Handler.cache Handler.rate].
      unfold Handler.enforceRateLimit in Hlimit.
      assert (Handler.status refused = 429 ∧ ∃ t n, Handler.payload refused = Handler.RateLimitBody t n)
        as (Hs & t & n & Hp).
      { destruct (Handler.rate st !! _) as [cur|]; [|done].
        destruct (decide _); [done|]. destruct (decide _); [|done].
        injection Hlimit as <- _. split; [done|]. by eexists _, _. }
      rewrite Hs, Hp. split_and!; [apply Hstatus; tauto|done|done|done|done|done]. }
  cbn [fst snd allowed].
  destruct (Handler.body req) as [name message|b] eqn:Hbody.
  { cbn [fst snd Handler.respond Handler.status Handler.payload Handler.cache Handler.rate].
    split_and!; [apply Hstatus; tauto|done|done|done|done|done]. }
  cbn zeta.
  destruct (decide (Handler.rb_core b = "")) as [Hcore|Hcore].
  { cbn [fst snd Handler.respond Handler.status Handler.payload Handler.cache Handler.rate].
    split_and!; [apply Hstatus; tauto|done|done|done|done|done]. }
  destruct (decide (Handler.rb_items b = [])) as [Hnone|Hsome].
  { cbn [fst snd Handler.respond Handler.status Handler.payload Handler.cache Handler.rate].
    split_and!; [apply Hstatus; tauto|done|done|done|done|done]. }
  destruct (decide (20 < length (Handler.rb_items b))%nat) as [Hmany|Hfew].
  { cbn [fst snd Handler.respond Handler.status Handler.payload Handler.cache Handler.rate].
    split_and!; [apply Hstatus; tauto|done|done|done|done|done]. }
  destruct (Handler.checkItems (Handler.rb_items b)) as [planItems|message] eqn:Hcheck.
  2:{ cbn [fst snd Handler.respond Handler.status Handler.payload Handler.cache Handler.rate].
      split_and!; [apply Hstatus; tauto|done|done|done|done|done]. }
  set (key := cacheKey _ _ _ _ _).
  pose proof (cacheGet_subseteq key (Handler.at_lookup clock) (Handler.cache st)) as Hsub.
  destruct (Handler.cacheGet key _ _) as [[cached|] cache'] eqn:Hget.
  { cbn [fst snd Handler.respond Handler.status Handler.payload Handler.cache Handler.rate].
    split_and!; [apply Hstatus; tauto|done|done|done|done|done]. }
  assert (1 ≤ length (Handler.rb_items b) ≤ 20)%nat as Hlen.
  { destruct (Handler.rb_items b); [done|]. simpl in *. lia. }
  destruct (callOpenAI _ _ _) as [[generated|message|] sent] eqn:Hcall;
    cbn [fst snd Handler.respond Handler.status Handler.payload Handler.cache Handler.rate].
  - split_and!; [apply Hstatus; tauto|done|done|done| |].
    + intros Hsent. split; [done|]. split; [done|].
      exists b, planItems. split; [done|]. split; [done|]. split; [exact Hlen|].
      split; [done|]. split; [by eapply checkItems_length|].
      unfold key in Hget. by rewrite Hget, Hcall.
    + intros items [= <-]. exists key. unfold Handler.cacheSet. apply lookup_insert_eq.
  - split_and!; [apply Hstatus; tauto|done|done|done| |done].
    intros Hsent. split; [done|]. split; [done|].
    exists b, planItems. split; [done|]. split; [done|]. split; [exact Hlen|].
      split; [done|]. split; [by eapply checkItems_length|].
      unfold key in Hget. by rewrite Hget, Hcall.
  - split_and!; [apply Hstatus; tauto|done|done|done| |done].
    intros Hsent. split; [done|]. split; [done|].
    exists b, planItems. split; [done|]. split; [done|]. split; [exact Hlen|].
      split; [done|]. split; [by eapply checkItems_length|].
      unfold key in Hget. by rewrite Hget, Hcall.
Qed.

(** X16: a batch is generated once.  When a request was answered with a
    generated batch, the same request again, allowed by the rate limiter and
    looked up no later than 15 minutes after the batch was stored, is
    answered 200 with the same items and [cached: true], marked
    [X-Cache: HIT], without a request to the backend and without a change to
    the cache. *)
Theorem handler_repeat_is_served_from_cache
    (cacheKey : string → list Handler.RequestItem → ExamTypes.Difficulty
                → option string → option Z → string)
    (callOpenAI : string → list Generate.PlanItem → ExamTypes.Difficulty
                  → Generate.outcome * list Generate.Body)
    (type_error_message : string)
    (req : Handler.Request) (clock1 clock2 : Handler.Clock) (st : Handler.State)
    (items : list Generate.json) :
  let r1 := Handler.handler cacheKey callOpenAI type_error_message req clock1 st in
  Handler.payload (fst (fst r1)) = Handler.ItemsBody items false →
  Handler.at_lookup clock2 ≤ Handler.at_store clock1 + Handler.CACHE_TTL_MS →
  allowed (fst (Handler.enforceRateLimit (Handler.req_headers req)
                  (Handler.at_limit clock2) (Handler.rate (snd r1)))) = true →
  let r2 := Handler.handler cacheKey callOpenAI type_error_message req clock2 (snd r1) in
  Handler.status (fst (fst r2)) = 200
  ∧ Handler.payload (fst (fst r2)) = Handler.ItemsBody items true
  ∧ ("X-Cache", "HIT") ∈ Handler.headers (fst (fst r2))
  ∧ snd (fst r2) = []
  ∧ Handler.cache (snd r2) = Handler.cache (snd r1).
Proof.
  intros r1 Hfirst Hfresh Hallowed r2. subst r2.
  assert (∃ b planItems cache' rate1 sent,
    Handler.method req = "POST"
    ∧ Handler.body req = Handler.BodyRead b
    ∧ Handler.rb_core b ≠ "" ∧ Handler.rb_items b ≠ []
    ∧ ¬ (20 < length (Handler.rb_items b))%nat
    ∧ Handler.checkItems (Handler.rb_items b) = Generate.Passed planItems
    ∧ callOpenAI "gpt-4o-mini" planItems (Handler.diff_of (Handler.rb_difficulty b))
      = (Generate.Returns items, sent)
    ∧ snd r1
      = {| Handler.cache :=
             Handler.cacheSet
               (cacheKey (Handler.rb_core b) (Handler.rb_items b)
                  (Handler.diff_of (Handler.rb_difficulty b))
                  (Handler.rb_generationId b) (Handler.rb_batchIndex b))
               items (Handler.at_store clock1) cache';
           Handler.rate := rate1 |})
    as (b & planItems & cache' & rate1 & sent & Hm & Hbody & Hcore & Hsome & Hfew
        & Hcheck & Hcall & Hst).
  { subst r1. revert Hfirst. clear Hallowed. unfold Handler.handler.
    destruct (decide (Handler.method req ≠ "POST")) as [Hm|Hm]; [done|].
    apply dec_stable in Hm.
    destruct (Handler.enforceRateLimit _ _ _) as [[set|refused] rate'] eqn:Hlimit.
    2:{ unfold Handler.enforceRateLimit in Hlimit.
        destruct (Handler.rate st !! _) as [cur|]; [|done].
        destruct (decide _); [done|]. destruct (decide _); [|done].
        by injection Hlimit as <- _. }
    destruct (Handler.body req) as [name message|b]; [done|]. cbn zeta.
    destruct (decide (Handler.rb_core b = "")) as [|Hcore]; [done|].
    destruct (decide (Handler.rb_items b = [])) as [|Hsome]; [done|].
    destruct (decide (20 < length (Handler.rb_items b))%nat) as [|Hfew]; [done|].
    destruct (Handler.checkItems (Handler.rb_items b)) as [planItems|message] eqn:Hcheck;
      [|done].
    destruct (Handler.cacheGet _ _ _) as [[cached|] cache']; [done|].
    destruct (callOpenAI _ _ _) as [[generated|message|] sent] eqn:Hcall; [|done|done].
    cbn [fst snd Handler.respond Handler.payload]. intros [= <-].
    by exists b, planItems, cache', rate', sent. }
  rewrite Hst in Hallowed |- *. cbn [Handler.rate] in Hallowed.
  unfold Handler.handler. rewrite decide_False by (by intros ?).
  cbn [Handler.rate Handler.cache].
  destruct (Handler.enforceRateLimit _ _ rate1) as [[set|refused] rate2]; [|done].
  rewrite Hbody. cbn zeta.
  rewrite decide_False by done. rewrite decide_False by done. rewrite decide_False by done.
  rewrite Hcheck.
  unfold Handler.cacheGet, Handler.cacheSet. rewrite lookup_insert_eq.
  cbn [Handler.expiresAt Handler.value]. rewrite decide_False by lia.
  cbn [fst snd Handler.respond Handler.status Handler.payload Handler.headers Handler.cache].
  split_and!; try done.
  rewrite !elem_of_app, !elem_of_cons. auto.
Qed.

Lemma handler_repeat_is_served_from_cache_witness :
  Handler.payload
    (fst (fst (Handler.handler key_by_core silent_generator "" one_item_request
                 (clock_at 60000)
                 (snd (Handler.handler key_by_core silent_generator "" one_item_request
                         (clock_at 0) cold_start)))))
  = Handler.ItemsBody [Generate.JNull] true.
Proof.
  apply (handler_repeat_is_served_from_cache key_by_core silent_generator ""
           one_item_request (clock_at 0) (clock_at 60000) cold_start [Generate.JNull]).
  - reflexivity.
  - vm_compute. discriminate.
  - vm_compute. reflexivity.
Defined.

(** ** The request handler: who a client is *)
Section ClientIdentity.
Import Text Handler.

Lemma trimStart_plain (s : string) : plain s = true → trimStart s = s.
Proof.
  destruct s as [|c s]; [done|]. simpl. intros H.
  apply andb_prop in H as (H & _). apply andb_prop in H as (H & _).
  apply negb_true_iff in H. by rewrite H.
Qed.

Lemma trimEnd_plain (s : string) : plain s = true → trimEnd s = s.
Proof.
  induction s as [|c s IH]; [done|]. simpl. intros H.
  apply andb_prop in H as (H & Hs). apply andb_prop in H as (H & _).
  apply negb_true_iff in H. rewrite (IH Hs), H. by destruct s.
Qed.

Lemma split_head_plain (s rest : string) :
  plain s = true → split_head "," (s +:+ "," +:+ rest) = s.
Proof.
  induction s as [|c s IH]; [done|]. simpl. intros H.
  apply andb_prop in H as (H & Hs). apply andb_prop in H as (_ & H).
  apply negb_true_iff in H. by rewrite H, (IH Hs).
Qed.












End ClientIdentity.



(** ** The offline synthesizer: the generator and the shuffle *)
Section OfflineRandom.
Import Offline.

Lemma lxor_range32 (a b : Z) :
  0 ≤ a < two32 → 0 ≤ b < two32 → 0 ≤ Z.lxor a b < two32.
Proof.
  intros Ha Hb. split; [apply Z.lxor_nonneg; lia|].
  destruct (decide (Z.lxor a b = 0)) as [->|Hne]; [done|].
  assert (0 ≤ Z.lxor a b) as Hnn by (apply Z.lxor_nonneg; lia).
  change two32 with (2 ^ 32). apply Z.log2_lt_pow2; [lia|].
  pose proof (Z.log2_lxor a b ltac:(lia) ltac:(lia)) as Hlog.
  assert (∀ x, 0 ≤ x < two32 → Z.log2 x < 32) as Hlt.
  { intros x Hx. destruct (decide (x = 0)) as [->|Hx0]; [done|].
    apply Z.log2_lt_pow2; [lia|]. apply Hx. }
  pose proof (Hlt a Ha). pose proof (Hlt b Hb). lia.
Qed.

Lemma shiftr_range32 (a n : Z) : 0 ≤ n → 0 ≤ a < two32 → 0 ≤ Z.shiftr a n < two32.
Proof.
  intros Hn Ha. split; [apply Z.shiftr_nonneg; lia|].
  rewrite Z.shiftr_div_pow2 by done.
  assert (0 < 2 ^ n) by (apply Z.pow_pos_nonneg; lia).
  apply Z.le_lt_trans with a; [|lia].
  apply Z.div_le_upper_bound; [done|]. nia.
Qed.

Lemma next_range (t : Z) : 0 ≤ fst (next t) < two32 ∧ snd (next t) = t + 1831565813.
Proof.
  unfold next. cbn [fst snd]. split; [|done].
  set (x1 := imul _ _).
  set (x2 := Z.lxor x1 _).
  assert (0 ≤ x1 < two32) as H1 by apply imul_range.
  assert (0 ≤ x2 < two32) as H2.
  { apply lxor_range32; [done|]. apply Z.mod_pos_bound. done. }
  apply lxor_range32; [done|]. by apply shiftr_range32.
Qed.

Lemma below_lt (n : nat) (t : Z) : (0 < n)%nat → (fst (below n t) < n)%nat.
Proof.
  intros Hn. unfold below, bind, ret.
  destruct (next t) as [u t'] eqn:E. cbn [fst].
  pose proof (next_range t) as (Hu & _). rewrite E in Hu. cbn [fst] in Hu.
  assert (0 ≤ (u * Z.of_nat n) `div` two32 < Z.of_nat n) as Hq.
  { split; [apply Z.div_pos; [nia|done]|].
    apply Z.div_lt_upper_bound; [done|]. unfold two32 in *. nia. }
  lia.
Qed.

Lemma bind_fst {A B : Type} (m : Rng A) (f : A → Rng B) (t : Z) :
  bind m f t = f (fst (m t)) (snd (m t)).
Proof. unfold bind. by destruct (m t). Qed.

Lemma pickOne_in {T : Type} (undefined : T) (arr : list T) (t : Z) :
  arr ≠ [] → fst (pickOne undefined arr t) ∈ arr.
Proof.
  intros Hne. unfold pickOne. rewrite bind_fst. cbn [ret fst].
  assert (fst (below (length arr) t) < length arr)%nat as Hlt.
  { apply below_lt. destruct arr; [done|simpl; lia]. }
  destruct (lookup_lt_is_Some_2 arr _ Hlt) as [x Hx].
  rewrite (nth_lookup_Some _ _ _ _ Hx). by eapply list_elem_of_lookup_2.
Qed.

Lemma swap_perm {T : Type} (a : list T) (i j : nat) : swap a i j ≡ₚ a.
Proof.
  unfold swap. destruct (a !! i) as [x|] eqn:Ei; [|done].
  destruct (a !! j) as [y|] eqn:Ej; [|done].
  by apply Permutation_insert_swap.
Qed.

Lemma shuffle_down_perm {T : Type} (i : nat) (a : list T) (t : Z) :
  fst (shuffle_down i a t) ≡ₚ a.
Proof.
  revert a t. induction i as [|i IH]; intros a t; [done|].
  cbn [shuffle_down]. rewrite bind_fst. rewrite IH. apply swap_perm.
Qed.

Lemma shuffle_perm {T : Type} (arr : list T) (t : Z) : fst (shuffle arr t) ≡ₚ arr.
Proof. apply shuffle_down_perm. Qed.

Lemma takeDistinct_sub {T : Type} (arr : list T) (n : Z) (t : Z) :
  fst (takeDistinct arr n t) ⊆+ arr
  ∧ length (fst (takeDistinct arr n t)) = Nat.min (Z.to_nat n) (length arr).
Proof.
  unfold takeDistinct. destruct (decide (n ≤ 0)) as [Hn|Hn].
  - cbn [ret fst]. split; [apply submseteq_nil_l|]. simpl. lia.
  - rewrite bind_fst. cbn [ret fst].
    pose proof (shuffle_perm arr t) as Hp. split.
    + transitivity (fst (shuffle arr t)); [apply sublist_submseteq, sublist_take|].
      by apply Permutation_submseteq.
    + rewrite length_take, (Permutation_length Hp). lia.
Qed.
End OfflineRandom.

(** X18: the generator.  Every number [rng.next()] is [u / 4294967296] for a
    whole [u] with [0 <= u < 4294967296], so it lies in [0, 1); the counter
    of the generator advances by [0x6D2B79F5] with each number; an index
    [Math.floor(rng.next() * n)] is below [n], and [pickOne] returns an
    element of a non-empty array. *)
Theorem mulberry32_next_in_unit_interval (t : Z) :
  0 ≤ fst (Offline.next t) < Offline.two32
  ∧ snd (Offline.next t) = t + 1831565813
  ∧ (∀ n : nat, (0 < n)%nat → (fst (Offline.below n t) < n)%nat)
  ∧ (∀ (T : Type) (undefined : T) (arr : list T),
       arr ≠ [] → fst (Offline.pickOne undefined arr t) ∈ arr).
Proof.
  destruct (next_range t) as (Hu & Ht).
  split; [exact Hu|]. split; [exact Ht|]. split.
  - intros n Hn. by apply below_lt.
  - intros T undefined arr Hne. by apply pickOne_in.
Qed.

(** X19: [shuffle] returns a rearrangement of its argument, whatever the
    state of the generator; [takeDistinct] returns [min(n, arr.length)]
    elements (none for [n <= 0]) taken from distinct places of the array, so
    an element occurs in the result at most as often as in the array and a
    array without repetitions gives a result without repetitions. *)
Theorem shuffle_is_a_rearrangement {T : Type} (arr : list T) (n : Z) (t : Z) :
  fst (Offline.shuffle arr t) ≡ₚ arr
  ∧ length (fst (Offline.takeDistinct arr n t)) = Nat.min (Z.to_nat n) (length arr)
  ∧ fst (Offline.takeDistinct arr n t) ⊆+ arr
  ∧ (NoDup arr → NoDup (fst (Offline.takeDistinct arr n t))).
Proof.
  destruct (takeDistinct_sub arr n t) as (Hsub & Hlen).
  split; [apply shuffle_perm|]. split; [exact Hlen|]. split; [exact Hsub|].
  intros Hnd. apply submseteq_Permutation in Hsub as (k & Hk).
  rewrite Hk in Hnd. by apply NoDup_app in Hnd as (? & _).
Qed.

(** ** The offline synthesizer: the questions of a plan *)
Section OfflineQuestions.
Import Objectives ExamTypes Planner Offline.
Variable OBJECTIVES : CoreId → list (string * ObjectiveMeta).

Lemma buildPBQQuestion_facts (core : CoreId) (sid baseId : string)
    (p : QuestionPlanItem) (t : Z) :
  let q := fst (buildPBQQuestion core sid baseId p t) in
  q_id q = sid +:+ "-" +:+ baseId
  ∧ q_core q = core ∧ q_domain q = p_domainLabel p ∧ q_objective q = p_objectiveId p
  ∧ q_objectiveTitle q = p_objectiveTitle p
  ∧ q_objectiveBullets q = p_objectiveBullets p
  ∧ (q_type q = pbq_order ∨ q_type q = pbq_match).
Proof.
  cbn zeta. unfold buildPBQQuestion. rewrite bind_fst.
  destruct (fst (pickOne _ _ t)) as [id title prompt items|id title prompt ll rl pairs].
  - cbn [ret fst]. split_and!; try done. by left.
  - rewrite !bind_fst. cbn [ret fst]. split_and!; try done. by right.
Qed.

Lemma buildSingleFromObjective_facts (core : CoreId) (sid baseId : string)
    (p : QuestionPlanItem) (t : Z) :
  let q := fst (buildSingleFromObjective OBJECTIVES core sid baseId p t) in
  q_id q = sid +:+ "-" +:+ baseId
  ∧ q_core q = core ∧ q_domain q = p_domainLabel p ∧ q_objective q = p_objectiveId p
  ∧ q_objectiveTitle q = p_objectiveTitle p
  ∧ q_objectiveBullets q = p_objectiveBullets p
  ∧ q_type q = single.
Proof.
  cbn zeta. unfold buildSingleFromObjective. rewrite !bind_fst. cbn [ret fst].
  by split_and!.
Qed.

Lemma buildMultiFromObjective_facts (core : CoreId) (sid baseId : string)
    (p : QuestionPlanItem) (t : Z) :
  let q := fst (buildMultiFromObjective OBJECTIVES core sid baseId p t) in
  q_id q = sid +:+ "-" +:+ baseId
  ∧ q_core q = core ∧ q_domain q = p_domainLabel p ∧ q_objective q = p_objectiveId p
  ∧ q_objectiveTitle q = p_objectiveTitle p
  ∧ q_objectiveBullets q = p_objectiveBullets p
  ∧ (q_type q = multi ∨ q_type q = single).
Proof.
  cbn zeta. unfold buildMultiFromObjective.
  destruct (decide (length (usableBullets p) < 2)%nat).
  - destruct (buildSingleFromObjective_facts core sid baseId p t)
      as (? & ? & ? & ? & ? & ? & ?).
    split_and!; try done. by right.
  - rewrite !bind_fst. cbn [ret fst]. split_and!; try done. by left.
Qed.

Lemma buildEach_facts (core : CoreId) (sid : string) (counter : nat)
    (ps : list QuestionPlanItem) (qs : list Question) (t : Z) :
  ∃ new, fst (buildEach OBJECTIVES core sid counter ps qs t) = qs ++ new
    ∧ Forall2 (made_for core) ps new
    ∧ q_id <$> new = (λ k, offline_id sid (counter + k)) <$> seq 0 (length ps).
Proof.
  revert counter qs t. induction ps as [|p ps IH]; intros counter qs t.
  - exists []. cbn [buildEach ret fst]. by rewrite app_nil_r.
  - cbn [buildEach]. rewrite bind_fst.
    set (q := fst (_ t)). set (t' := snd (_ t)).
    destruct (IH (S counter) (qs ++ [q]) t') as (new & Hnew & Hall & Hids).
    exists (q :: new). rewrite Hnew, <- app_assoc. split; [done|].
    assert (q_id q = offline_id sid counter ∧ made_for core p q) as (Hid & Hq).
    { subst q. unfold made_for, made_as, offline_id. destruct (p_type p).
      - destruct (buildSingleFromObjective_facts core sid
                    ("offline-" +:+ pad3 (S counter)) p t) as (? & ? & ? & ? & ? & ? & ?).
        by split_and!.
      - destruct (buildMultiFromObjective_facts core sid
                    ("offline-" +:+ pad3 (S counter)) p t) as (? & ? & ? & ? & ? & ? & ?).
        by split_and!.
      - destruct (buildPBQQuestion_facts core sid
                    ("offline-" +:+ pad3 (S counter)) p t) as (? & ? & ? & ? & ? & ? & ?).
        by split_and!.
      - destruct (buildPBQQuestion_facts core sid
                    ("offline-" +:+ pad3 (S counter)) p t) as (? & ? & ? & ? & ? & ? & ?).
        by split_and!. }
    split; [by constructor|].
    cbn [length seq]. rewrite !fmap_cons, Hid, Hids, Nat.add_0_r. f_equal.
    rewrite <- fmap_S_seq, <- list_fmap_compose.
    apply list_fmap_ext. intros i k _. simpl. f_equal. lia.
Qed.
End OfflineQuestions.

(** X20: the questions of the offline synthesizer.  There is one question
    for each item of the plan; the questions carry the ids
    [<sessionId>-offline-001], [-002], ... in that order; and they are made,
    one each, for the items of a rearrangement of the plan: a question has
    the core of the call and the domain label, the objective, its title and
    its bullets of its item, a single-choice item gives a single-choice
    question, a multi-select item a multi-select or a single-choice question,
    and a PBQ item a PBQ of either kind. *)
Theorem buildOfflineQuestions_follow_the_plan
    (OBJECTIVES : Objectives.CoreId → list (string * Objectives.ObjectiveMeta))
    (core : Objectives.CoreId) (sessionId : string) (config : ExamTypes.SessionConfig)
    (plan : list Planner.QuestionPlanItem) :
  let qs := Offline.buildOfflineQuestions OBJECTIVES core sessionId config plan in
  length qs = length plan
  ∧ ExamTypes.q_id <$> qs = offline_id sessionId <$> seq 0 (length plan)
  ∧ ∃ shuffled, shuffled ≡ₚ plan ∧ Forall2 (made_for core) shuffled qs.
Proof.
  intros qs. subst qs. unfold Offline.buildOfflineQuestions, Offline.synthesize.
  set (rng := Offline.mulberry32 _).
  rewrite !bind_fst. cbn [Offline.ret fst].
  pose proof (shuffle_perm plan rng) as Hperm.
  set (shuffled := fst (Offline.shuffle plan rng)) in *.
  destruct (buildEach_facts OBJECTIVES core sessionId 0 shuffled []
              (snd (Offline.shuffle plan rng))) as (new & Hnew & Hall & Hids).
  rewrite Hnew. simpl app.
  assert (length new = length plan) as Hlen.
  { rewrite <- (Forall2_length _ _ _ Hall). by apply Permutation_length. }
  rewrite take_ge by lia.
  split; [done|]. split.
  - rewrite Hids, (Permutation_length Hperm). done.
  - by exists shuffled.
Qed.

(** ** The offline synthesizer: the choice questions *)
Section OfflineChoice.
Import Objectives ExamTypes Planner Offline.
Variable OBJECTIVES : CoreId → list (string * ObjectiveMeta).

Lemma labelled_texts (ids texts : list string) : e_text <$> labelled ids texts = texts.
Proof.
  apply list_eq. intros i. unfold labelled.
  rewrite list_lookup_fmap, list_lookup_imap. by destruct (texts !! i).
Qed.

Lemma labelled_ids (ids texts : list string) :
  length ids = length texts → e_id <$> labelled ids texts = ids.
Proof.
  intros Hlen. apply list_eq. intros i. unfold labelled.
  rewrite list_lookup_fmap, list_lookup_imap.
  destruct (texts !! i) as [x|] eqn:E; simpl.
  - apply lookup_lt_Some in E. rewrite <- Hlen in E.
    destruct (lookup_lt_is_Some_2 ids i E) as [y Hy]. by rewrite Hy.
  - apply lookup_ge_None in E. symmetry. apply lookup_ge_None. lia.
Qed.

Lemma makeOptionIds_length (n : nat) : length (makeOptionIds n) = n.
Proof. unfold makeOptionIds. by rewrite length_fmap, length_seq. Qed.

Lemma makeOptionIds_alpha (n : nat) : (n ≤ 26)%nat → makeOptionIds n = take n alpha.
Proof.
  intros Hn. apply list_eq. intros i. unfold makeOptionIds.
  rewrite list_lookup_fmap. destruct (decide (i < n)%nat) as [Hi|Hi].
  - rewrite lookup_seq_lt by done. rewrite lookup_take_lt by done. simpl.
    destruct (lookup_lt_is_Some_2 alpha i) as [a Ha]; [simpl; lia|]. by rewrite Ha.
  - rewrite lookup_seq_ge by lia. rewrite lookup_take_ge by lia. done.
Qed.

Lemma alpha_NoDup : NoDup alpha.
Proof. apply (bool_decide_unpack _). by vm_compute. Qed.

Lemma makeOptionIds_NoDup (n : nat) : (n ≤ 26)%nat → NoDup (makeOptionIds n).
Proof.
  intros Hn. rewrite makeOptionIds_alpha by done.
  eapply sublist_NoDup; [apply alpha_NoDup|apply sublist_take].
Qed.

(** [options.find(p)] is the first of [options.filter(p)]. *)
Lemma list_find_head {A : Type} (P : A → Prop) `{∀ x, Decision (P x)} (l : list A) :
  snd <$> list_find P l = head (filter P l).
Proof.
  induction l as [|x l IH]; [done|]. cbn [list_find]. rewrite filter_cons.
  destruct (decide (P x)); [done|]. rewrite <- IH.
  by destruct (list_find P l) as [[i y]|].
Qed.

Lemma filter_text (P : string → Prop) `{∀ x, Decision (P x)} (opts : list Entry) :
  e_text <$> filter (λ o, P (e_text o)) opts = filter P (e_text <$> opts).
Proof.
  induction opts as [|o opts IH]; [done|].
  rewrite fmap_cons, !filter_cons. destruct (decide (P (e_text o))); [|done].
  by rewrite fmap_cons, IH.
Qed.

End OfflineChoice.

(** X21: an offline single-choice question.  It has between one and four
    options with distinct ids; exactly one option carries the focus text, and
    the key is the id of that option.  The focus text is one of the usable
    bullets of the objective (the sanitized title when there is none), and
    every other option is taken from the bullet pool of the core. *)
Theorem buildSingleFromObjective_key
    (OBJECTIVES : Objectives.CoreId → list (string * Objectives.ObjectiveMeta))
    (core : Objectives.CoreId) (sessionId baseId : string)
    (p : Planner.QuestionPlanItem) (t : Z) :
  let q := fst (Offline.buildSingleFromObjective OBJECTIVES core sessionId baseId p t) in
  ∃ opts correctText o,
    ExamTypes.q_options q = Some opts
    ∧ ExamTypes.q_focus q = Some correctText
    ∧ (1 ≤ length opts ≤ 4)%nat
    ∧ NoDup (ExamTypes.e_id <$> opts)
    ∧ filter (λ o', ExamTypes.e_text o' = correctText) opts = [o]
    ∧ ExamTypes.q_correct q = [ExamTypes.e_id o]
    ∧ (Offline.usableBullets p ≠ [] → correctText ∈ Offline.usableBullets p)
    ∧ (Offline.usableBullets p = [] →
       correctText = Offline.sanitizeText (Planner.p_objectiveTitle p))
    ∧ Forall (λ o', ExamTypes.e_text o' = correctText
                    ∨ ExamTypes.e_text o' ∈ Offline.allBulletPool OBJECTIVES core) opts.
Proof.
  cbn zeta. unfold Offline.buildSingleFromObjective. rewrite !bind_fst.
  cbn [Offline.ret fst ExamTypes.q_options ExamTypes.q_focus ExamTypes.q_correct].
  set (pick := match Offline.usableBullets p with
               | [] => Offline.ret (Offline.sanitizeText (Planner.p_objectiveTitle p))
               | _ => Offline.pickOne "undefined" (Offline.usableBullets p)
               end t).
  set (c := fst pick).
  set (pool := filter (λ x, x ≠ c) (Offline.allBulletPool OBJECTIVES core)).
  set (drawn := Offline.takeDistinct pool 3 (snd pick)).
  set (ds := fst drawn).
  set (shuffled := fst (Offline.shuffle (c :: ds) (snd drawn))).
  assert (shuffled ≡ₚ c :: ds) as Hshuf by apply shuffle_perm.
  destruct (takeDistinct_sub pool 3 (snd pick)) as (Hsub & Hlen).
  fold drawn ds in Hsub, Hlen.
  assert (length shuffled = S (length ds)) as Hlens by (by rewrite Hshuf).
  rewrite (take_ge shuffled) by lia.
  set (opts := Offline.labelled (Offline.makeOptionIds (length shuffled)) shuffled).
  assert (ExamTypes.e_text <$> opts = shuffled) as Htexts by apply labelled_texts.
  assert (ExamTypes.e_id <$> opts = Offline.makeOptionIds (length shuffled)) as Hids
    by (apply labelled_ids, makeOptionIds_length).
  assert (Forall (λ x, x ≠ c ∧ x ∈ Offline.allBulletPool OBJECTIVES core) ds) as Hds.
  { apply Forall_forall. intros x Hx.
    apply (elem_of_submseteq _ _ _ Hx) in Hsub. by apply list_elem_of_filter in Hsub. }
  assert (filter (λ x, x = c) shuffled = [c]) as Hone.
  { apply Permutation_singleton_r. rewrite Hshuf, filter_cons, decide_True by done.
    rewrite filter_none; [done|]. eapply Forall_impl; [exact Hds|]. by intros x [? _]. }
  assert (∃ o, filter (λ o', ExamTypes.e_text o' = c) opts = [o]) as (o & Ho).
  { pose proof (filter_text (λ x, x = c) opts) as Hf. rewrite Htexts, Hone in Hf.
    destruct (filter _ opts) as [|o [|o' rest]]; [done| |done]. by exists o. }
  exists opts, c, o. split; [done|]. split; [done|]. split.
  { rewrite <- (length_fmap ExamTypes.e_text), Htexts, Hlens. lia. }
  split.
  { rewrite Hids. apply makeOptionIds_NoDup. lia. }
  split; [exact Ho|]. split.
  { pose proof (list_find_head (λ o', ExamTypes.e_text o' = c) opts) as Hfind.
    rewrite Ho in Hfind. destruct (list_find _ opts) as [[i o']|]; [|done].
    by injection Hfind as ->. }
  split.
  { intros Hne. subst c pick. destruct (Offline.usableBullets p) eqn:E; [done|].
    rewrite <- E. apply pickOne_in. by rewrite E. }
  split.
  { intros E. subst c pick. by rewrite E. }
  apply Forall_forall. intros o' Ho'.
  assert (ExamTypes.e_text o' ∈ shuffled) as Hin.
  { rewrite <- Htexts. apply list_elem_of_fmap. by exists o'. }
  rewrite Hshuf in Hin. apply elem_of_cons in Hin as [Hin|Hin]; [by left|].
  right. rewrite Forall_forall in Hds. by apply Hds.
Qed.

(** X22: an offline multi-select question.  For an objective with at least
    two usable bullets the question is a multi-select with two to five
    options with distinct ids; two of the usable bullets are its correct
    texts, the key holds exactly the two ids of the options that carry them,
    and every other option is taken from the bullet pool of the core. *)
Theorem buildMultiFromObjective_key
    (OBJECTIVES : Objectives.CoreId → list (string * Objectives.ObjectiveMeta))
    (core : Objectives.CoreId) (sessionId baseId : string)
    (p : Planner.QuestionPlanItem) (t : Z) :
  (2 ≤ length (Offline.usableBullets p))%nat →
  let q := fst (Offline.buildMultiFromObjective OBJECTIVES core sessionId baseId p t) in
  ExamTypes.q_type q = ExamTypes.multi
  ∧ ∃ opts correctTexts,
      ExamTypes.q_options q = Some opts
      ∧ ExamTypes.q_focus q = Some (Offline.join_semicolon correctTexts)
      ∧ length correctTexts = 2%nat
      ∧ correctTexts ⊆+ Offline.usableBullets p
      ∧ (2 ≤ length opts ≤ 5)%nat
      ∧ NoDup (ExamTypes.e_id <$> opts)
      ∧ ExamTypes.q_correct q
        = ExamTypes.e_id <$> filter (λ o, ExamTypes.e_text o ∈ correctTexts) opts
      ∧ length (ExamTypes.q_correct q) = 2%nat
      ∧ NoDup (ExamTypes.q_correct q)
      ∧ Forall (λ o, ExamTypes.e_text o ∈ correctTexts
                     ∨ ExamTypes.e_text o ∈ Offline.allBulletPool OBJECTIVES core) opts.
Proof.
  intros Htwo. cbn zeta. unfold Offline.buildMultiFromObjective.
  rewrite decide_False by lia. rewrite !bind_fst.
  cbn [Offline.ret fst ExamTypes.q_options ExamTypes.q_focus ExamTypes.q_correct
       ExamTypes.q_type].
  split; [done|].
  set (picked := Offline.takeDistinct (Offline.usableBullets p) 2 t).
  set (cs := fst picked).
  set (pool := filter (λ x, x ∉ cs) (Offline.allBulletPool OBJECTIVES core)).
  set (drawn := Offline.takeDistinct pool 3 (snd picked)).
  set (ds := fst drawn).
  set (shuffled := fst (Offline.shuffle (cs ++ ds) (snd drawn))).
  assert (shuffled ≡ₚ cs ++ ds) as Hshuf by apply shuffle_perm.
  destruct (takeDistinct_sub (Offline.usableBullets p) 2 t) as (Hcsub & Hclen).
  fold picked cs in Hcsub, Hclen.
  assert (length cs = 2%nat) as Hcs by (rewrite Hclen; change (Z.to_nat 2) with 2%nat; lia).
  destruct (takeDistinct_sub pool 3 (snd picked)) as (Hsub & Hlen).
  fold drawn ds in Hsub, Hlen.
  assert (length shuffled = (2 + length ds)%nat) as Hlens
    by (by rewrite Hshuf, length_app, Hcs).
  rewrite (take_ge shuffled) by lia.
  set (opts := Offline.labelled (Offline.makeOptionIds (length shuffled)) shuffled).
  assert (ExamTypes.e_text <$> opts = shuffled) as Htexts by apply labelled_texts.
  assert (ExamTypes.e_id <$> opts = Offline.makeOptionIds (length shuffled)) as Hids
    by (apply labelled_ids, makeOptionIds_length).
  assert (Forall (λ x, (x ∉ cs) ∧ x ∈ Offline.allBulletPool OBJECTIVES core) ds) as Hds.
  { apply Forall_forall. intros x Hx.
    apply (elem_of_submseteq _ _ _ Hx) in Hsub. by apply list_elem_of_filter in Hsub. }
  assert (NoDup (ExamTypes.e_id <$> opts)) as Hnd.
  { rewrite Hids. apply makeOptionIds_NoDup. lia. }
  assert (length (filter (λ o, ExamTypes.e_text o ∈ cs) opts) = 2%nat) as Hkey.
  { rewrite <- (length_fmap ExamTypes.e_text).
    pose proof (filter_text (λ x, x ∈ cs) opts) as Hf. cbn beta in Hf.
    rewrite Hf, Htexts, Hshuf, filter_app. rewrite (filter_none (λ x, x ∈ cs) ds).
    - rewrite app_nil_r, filter_all; [done|]. by apply Forall_forall.
    - eapply Forall_impl; [exact Hds|]. by intros x [? _]. }
  exists opts, cs. split; [done|]. split; [done|]. split; [done|]. split; [done|].
  split.
  { rewrite <- (length_fmap ExamTypes.e_text), Htexts, Hlens. lia. }
  split; [done|]. split; [done|]. split; [by rewrite length_fmap|]. split.
  { eapply sublist_NoDup; [exact Hnd|]. apply fmap_sublist, sublist_filter. }
  apply Forall_forall. intros o Ho.
  assert (ExamTypes.e_text o ∈ shuffled) as Hin.
  { rewrite <- Htexts. apply list_elem_of_fmap. by exists o. }
  rewrite Hshuf in Hin. apply elem_of_app in Hin as [Hin|Hin]; [by left|].
  right. rewrite Forall_forall in Hds. by apply Hds.
Qed.

Lemma buildMultiFromObjective_key_witness :
  length (ExamTypes.q_correct
            (fst (Offline.buildMultiFromObjective small_catalogue Objectives.Core_220_1201
                    "s" "offline-001" ports_item 7))) = 2%nat.
Proof.
  destruct (buildMultiFromObjective_key small_catalogue Objectives.Core_220_1201
              "s" "offline-001" ports_item 7)
    as (_ & opts & cs & _ & _ & _ & _ & _ & _ & _ & Hlen & _).
  - vm_compute. lia.
  - exact Hlen.
Defined.

(** ** The offline synthesizer: the PBQs *)
Section OfflinePbq.
Import Objectives ExamTypes Planner Offline Scoring.

Lemma judge_ordered_as (q : Question) (answers : AnswerMap) (steps : list string) :
  q_type q = pbq_order →
  judge q answers (ordered_as (q_id q) steps) = bool_decide (steps = q_correct q).
Proof.
  intros Hty. unfold judge, submitted_order, pbq_answer, ordered_as.
  rewrite Hty, lookup_singleton_eq. cbn [order].
  destruct (decide (length steps = length (q_correct q))) as [Hlen|Hlen].
  - rewrite bool_decide_eq_true_2 by done. cbn [andb].
    apply eq_true_iff_eq. rewrite every_same_eq, bool_decide_eq_true by done. done.
  - rewrite bool_decide_eq_false_2 by done. cbn [andb]. symmetry.
    apply bool_decide_eq_false_2. by intros ->.
Qed.

Lemma judge_paired_as (q : Question) (answers : AnswerMap) (chosen : list string) :
  q_type q = pbq_match →
  judge q answers (paired_as (q_id q) chosen) = setEq chosen (q_correct q).
Proof.
  intros Hty. unfold judge, submitted_pairs, pbq_answer, paired_as.
  by rewrite Hty, lookup_singleton_eq.
Qed.

Lemma pbqTemplates_nonempty (core : CoreId) : pbqTemplates core ≠ [].
Proof. by destruct core. Qed.
End OfflinePbq.

(** X23: an offline PBQ.  The question is made from one of the templates of
    the core, whatever kind of PBQ the plan asked for.  An ordering question
    lists its steps in the order of its key, so the steps as they are shown
    are judged correct.  A matching question has the left entries in the
    order of the key and the right entries rearranged; its key is the text
    [L=>R] of every pair of the template, and any arrangement of these texts
    is judged correct. *)
Theorem buildPBQQuestion_key
    (core : Objectives.CoreId) (sessionId baseId : string)
    (p : Planner.QuestionPlanItem) (t : Z) (answers : Scoring.AnswerMap) :
  let q := fst (Offline.buildPBQQuestion core sessionId baseId p t) in
  ExamTypes.q_options q = None
  ∧ match ExamTypes.q_pbq q with
    | Some (ExamTypes.PbqOrder items) =>
        ExamTypes.q_type q = ExamTypes.pbq_order
        ∧ ExamTypes.e_text <$> items = ExamTypes.q_correct q
        ∧ (∃ id title,
             Offline.OrderTemplate id title (ExamTypes.q_prompt q) (ExamTypes.q_correct q)
             ∈ Offline.pbqTemplates core)
        ∧ Scoring.judge q answers
            (ordered_as (ExamTypes.q_id q) (ExamTypes.e_text <$> items)) = true
    | Some (ExamTypes.PbqMatch leftLabel rightLabel lefts rights) =>
        ExamTypes.q_type q = ExamTypes.pbq_match
        ∧ ∃ id title pairs shuffled,
            Offline.MatchTemplate id title (ExamTypes.q_prompt q) leftLabel rightLabel pairs
            ∈ Offline.pbqTemplates core
            ∧ shuffled ≡ₚ pairs
            ∧ ExamTypes.q_correct q = pair_text <$> shuffled
            ∧ ExamTypes.e_text <$> lefts = fst <$> shuffled
            ∧ ExamTypes.e_text <$> rights ≡ₚ snd <$> shuffled
            ∧ ∀ chosen, chosen ≡ₚ ExamTypes.q_correct q →
                Scoring.judge q answers (paired_as (ExamTypes.q_id q) chosen) = true
    | None => False
    end.
Proof.
  cbn zeta. unfold Offline.buildPBQQuestion. rewrite bind_fst.
  pose proof (pickOne_in (Offline.OrderTemplate "" "" "" []) (Offline.pbqTemplates core) t
                (pbqTemplates_nonempty core)) as Hin.
  destruct (fst (Offline.pickOne _ _ t)) as [id title prompt items|id title prompt ll rl pairs].
  - cbn [Offline.ret fst ExamTypes.q_options ExamTypes.q_pbq ExamTypes.q_type
         ExamTypes.q_correct ExamTypes.q_prompt].
    split; [done|]. split; [done|]. split; [apply labelled_texts|].
    split; [by exists id, title|].
    rewrite judge_ordered_as by done. apply bool_decide_eq_true_2. apply labelled_texts.
  - rewrite !bind_fst.
    cbn [Offline.ret fst ExamTypes.q_options ExamTypes.q_pbq ExamTypes.q_type
         ExamTypes.q_correct ExamTypes.q_prompt].
    split; [done|]. split; [done|].
    set (shuffled := fst (Offline.shuffle pairs _)).
    exists id, title, pairs, shuffled.
    split; [done|]. split; [apply shuffle_perm|]. split; [done|].
    split; [apply labelled_texts|]. split.
    { etransitivity; [apply fmap_Permutation, shuffle_perm|]. by rewrite labelled_texts. }
    intros chosen Hchosen. rewrite judge_paired_as by done. by apply setEq_true_iff.
Qed.

(** ** Running a generation: resuming *)
Section Resume.
Import Objectives ExamTypes Planner App.
Variable display_order : list Entry → list Entry.









Lemma pause_saved (g : GenerationPersisted) (its : list RawItem) (k : nat)
    (e : option string) (items : list RawItem) (n : nat) (name message : string) :
  pause (saved_with g its k e) items n name message = pause g items n name message.
Proof. done. Qed.

Lemma assemble_saved (g : GenerationPersisted) (its : list RawItem) (k : nat)
    (e : option string) (items : list RawItem) (n : nat) :
  assemble display_order (saved_with g its k e) items n = assemble display_order g items n.
Proof. done. Qed.


End Resume.



(** ** The exam view: ordering steps *)
Section OrderView.
Import ExamTypes Scoring View.

Lemma judge_order_steps (q : Question) (answers : AnswerMap)
    (pbqState : option (gmap string PbqAnswer)) (steps : list string) :
  q_type q = pbq_order →
  submitted_order pbqState (q_id q) = Some steps →
  judge q answers pbqState = bool_decide (steps = q_correct q).
Proof.
  intros Hty Hsub. unfold judge. rewrite Hty, Hsub.
  destruct (decide (length steps = length (q_correct q))) as [Hlen|Hlen].
  - rewrite bool_decide_eq_true_2 by done. cbn [andb].
    apply eq_true_iff_eq. rewrite every_same_eq, bool_decide_eq_true by done. done.
  - rewrite bool_decide_eq_false_2 by done. cbn [andb]. symmetry.
    apply bool_decide_eq_false_2. by intros ->.
Qed.

Lemma submitted_order_entry (st : PbqState) (id : string) :
  submitted_order (submitted st) id = st !! id ≫= View.order.
Proof.
  unfold submitted_order, pbq_answer, submitted. rewrite lookup_fmap.
  by destruct (st !! id).
Qed.

Lemma swap_cons {A : Type} (x : A) (a : list A) (i j : nat) :
  Offline.swap (x :: a) (S i) (S j) = x :: Offline.swap a i j.
Proof.
  unfold Offline.swap. simpl.
  destruct (a !! i); [|done]. by destruct (a !! j).
Qed.

Lemma swap_length {A : Type} (a : list A) (i j : nat) :
  length (Offline.swap a i j) = length a.
Proof. apply Permutation_length, swap_perm. Qed.

(** Every rearrangement is reached by exchanging neighbours. *)
Lemma adjacent_swaps {A : Type} (l l' : list A) :
  l ≡ₚ l' →
  ∃ places, Forall (λ i, (i + 1 < length l)%nat) places
            ∧ foldl (λ a i, Offline.swap a i (S i)) l places = l'.
Proof.
  induction 1 as [|x l l' Hp (places & Hall & Hfold)|x y l
                  |l1 l2 l3 H12 (p1 & Hall1 & Hf1) H23 (p2 & Hall2 & Hf2)].
  - by exists [].
  - exists (S <$> places). split.
    + apply Forall_fmap. eapply Forall_impl; [exact Hall|]. intros i Hi.
      unfold compose. simpl in *. lia.
    + rewrite <- Hfold. clear. revert l.
      induction places as [|i places IH]; intros l; [done|].
      rewrite fmap_cons. cbn [foldl]. by rewrite swap_cons, IH.
  - exists [0%nat]. split; [constructor; [simpl; lia|constructor]|done].
  - exists (p1 ++ p2). split.
    + apply Forall_app. split; [done|].
      eapply Forall_impl; [exact Hall2|]. intros i Hi. simpl in *.
      by rewrite (Permutation_length H12).
    + by rewrite foldl_app, Hf1.
Qed.

Lemma move_down (q : Question) (st : PbqState) (rows : list Entry) (i : nat) :
  local q st = rows → (i + 1 < length rows)%nat →
  move q i 1 st = <[q_id q := order_entry (Offline.swap rows i (S i))]> st.
Proof.
  intros Hrows Hi. unfold move. rewrite Hrows.
  rewrite decide_False by lia.
  by replace (Z.to_nat (Z.of_nat i + 1)) with (S i) by lia.
Qed.

Lemma local_entry (q : Question) (st : PbqState) (rows : list Entry) :
  local q (<[q_id q := order_entry rows]> st) = rows.
Proof. unfold local. by rewrite lookup_insert_eq. Qed.

Lemma presses_down (q : Question) (st : PbqState) (rows : list Entry) (places : list nat) :
  Forall (λ i, (i + 1 < length rows)%nat) places →
  presses q ((λ i, (i, 1)) <$> places) (<[q_id q := order_entry rows]> st)
  = <[q_id q := order_entry (foldl (λ a i, Offline.swap a i (S i)) rows places)]> st.
Proof.
  revert rows. induction places as [|i places IH]; intros rows Hall; [done|].
  inversion_clear Hall as [|? ? Hi Hrest].
  rewrite fmap_cons. unfold presses in *. cbn [foldl fst snd].
  rewrite (move_down q _ rows) by (done || apply local_entry).
  rewrite insert_insert_eq. apply IH.
  eapply Forall_impl; [exact Hrest|]. intros k Hk. simpl. by rewrite swap_length.
Qed.

Lemma move_disabled (q : Question) (st : PbqState) (m : nat * Z) :
  (length (local q st) < 2)%nat → row_press (length (local q st)) m →
  move q (fst m) (snd m) st = st.
Proof.
  intros Hlen (Hi & Hdir). unfold move. apply decide_True. lia.
Qed.
End OrderView.

(** X25: answering an ordering PBQ with the Up and Down buttons.  Until a
    button has moved a row the question has no entry in [pbqState] and is
    judged incorrect, even when the rows are shown in the order of the key.
    With fewer than two rows every button is without effect, so the
    question is judged incorrect whatever is pressed.  With two rows or more,
    and a key that is a rearrangement of the texts shown, there are presses of
    enabled buttons after which the question is judged correct. *)
Theorem pbq_order_answer_is_reachable
    (q : ExamTypes.Question) (answers : Scoring.AnswerMap) (st0 : View.PbqState) :
  ExamTypes.q_type q = ExamTypes.pbq_order →
  st0 !! ExamTypes.q_id q = None →
  let rows := View.items_of q in
  Scoring.judge q answers (View.submitted st0) = false
  ∧ ((length rows < 2)%nat →
     ∀ ms, Forall (row_press (length rows)) ms →
       Scoring.judge q answers (View.submitted (presses q ms st0)) = false)
  ∧ ((2 ≤ length rows)%nat →
     ExamTypes.q_correct q ≡ₚ ExamTypes.e_text <$> rows →
     ∃ ms, Forall (enabled_press (length rows)) ms
           ∧ Scoring.judge q answers (View.submitted (presses q ms st0)) = true).
Proof.
  intros Hty Hnone rows.
  assert (Scoring.judge q answers (View.submitted st0) = false) as Hstart.
  { unfold Scoring.judge. by rewrite Hty, submitted_order_entry, Hnone. }
  assert (View.local q st0 = rows) as Hlocal by (unfold View.local; by rewrite Hnone).
  split; [exact Hstart|]. split.
  - intros Hlen ms Hall.
    assert (presses q ms st0 = st0) as ->; [|exact Hstart].
    induction Hall as [|m ms Hm _ IH]; [done|].
    unfold presses in *. cbn [foldl]. rewrite move_disabled; [done| |]; by rewrite Hlocal.
  - intros Hlen Hkey.
    destruct (Permutation_map_inv _ _ Hkey) as (target & Htexts & Hperm).
    destruct (adjacent_swaps rows target Hperm) as (places & Hplaces & Hfold).
    exists ((0%nat, 1) :: (0%nat, 1) :: ((λ i, (i, 1)) <$> places)). split.
    + assert (enabled_press (length rows) (0%nat, 1)) as H0.
      { split; simpl; [lia|right; split; [done|lia]]. }
      apply Forall_cons; split; [done|]. apply Forall_cons; split; [done|].
      apply Forall_fmap. eapply Forall_impl; [exact Hplaces|].
      intros i Hi. split; simpl in *; [lia|right; split; [done|lia]].
    + unfold presses. cbn [foldl fst snd].
      rewrite (move_down q st0 rows) by (done || lia).
      rewrite (move_down q _ (Offline.swap rows 0 1))
        by (apply local_entry || (rewrite swap_length; lia)).
      rewrite insert_insert_eq.
      assert (Offline.swap (Offline.swap rows 0 1) 0 1 = rows) as ->.
      { destruct rows as [|a [|b rest]]; simpl in Hlen; [lia|lia|done]. }
      pose proof (presses_down q st0 rows places Hplaces) as Hdown.
      unfold presses in Hdown. rewrite Hdown, Hfold.
      rewrite (judge_order_steps q answers _ (ExamTypes.e_text <$> target)); [|done|].
      * apply bool_decide_eq_true_2. by rewrite Htexts.
      * rewrite submitted_order_entry, lookup_insert_eq. done.
Qed.

Lemma pbq_order_answer_is_reachable_witness :
  Scoring.judge sample_order ∅ (View.submitted ∅) = false.
Proof.
  apply (pbq_order_answer_is_reachable sample_order ∅ ∅); reflexivity.
Defined.

(** ** The exam view: matching pairs *)
Section MatchView.
Import ExamTypes Scoring View.

Lemma submitted_pairs_entry (st : PbqState) (id : string) :
  submitted_pairs (submitted st) id = st !! id ≫= View.pairs.
Proof.
  unfold submitted_pairs, pbq_answer, submitted. rewrite lookup_fmap.
  by destruct (st !! id).
Qed.

Lemma setPair_entry (q : Question) (l r : string) (st : PbqState) (m : gmap string string) :
  default ∅ (st !! q_id q ≫= map) = m →
  setPair q l r st = <[q_id q := match_entry (<[l := r]> m)]> st.
Proof. intros Hm. unfold setPair. by rewrite Hm. Qed.

Lemma selections_entry (q : Question) (choices : list (string * string)) (st : PbqState)
    (m : gmap string string) :
  selections q choices (<[q_id q := match_entry m]> st)
  = <[q_id q := match_entry (foldl (λ m lr, <[fst lr := snd lr]> m) m choices)]> st.
Proof.
  revert m. induction choices as [|[l r] choices IH]; intros m; [done|].
  unfold selections in *. cbn [foldl fst snd].
  rewrite (setPair_entry q l r _ m) by (by rewrite lookup_insert_eq).
  rewrite insert_insert_eq. apply IH.
Qed.

Lemma chosen_snoc (choices : list (string * string)) (l r : string) :
  chosen (choices ++ [(l, r)]) = <[l := r]> (chosen choices).
Proof. unfold chosen. by rewrite foldl_app. Qed.

Lemma chosen_lookup_None (choices : list (string * string)) (l : string) :
  l ∉ fst <$> choices → chosen choices !! l = None.
Proof.
  induction choices as [|[l' r'] choices IH] using rev_ind; intros Hl; [done|].
  rewrite chosen_snoc. rewrite fmap_app, elem_of_app in Hl.
  rewrite lookup_insert_ne.
  - apply IH. tauto.
  - intros ->. apply Hl. right. simpl. apply elem_of_cons. by left.
Qed.

Lemma chosen_distinct (choices : list (string * string)) :
  NoDup (fst <$> choices) → map_to_list (chosen choices) ≡ₚ choices.
Proof.
  induction choices as [|[l r] choices IH] using rev_ind; intros Hnd.
  - unfold chosen. simpl. by rewrite map_to_list_empty.
  - rewrite fmap_app in Hnd. apply NoDup_app in Hnd as (Hnd & Hnew & _).
    rewrite chosen_snoc, map_to_list_insert.
    + rewrite (IH Hnd). by rewrite Permutation_app_comm.
    + apply chosen_lookup_None. intros Hin. apply (Hnew _ Hin). simpl.
      apply elem_of_cons. by left.
Qed.
End MatchView.

(** X26: answering a matching PBQ with the selects.  Without a selection
    the question has no entry in [pbqState] and is judged incorrect.  After
    selections the entry holds one pair [L=>R] for each left text that was
    selected for, with the right text of the last selection for it, and the
    question is judged by comparing these pairs with the key as multisets;
    so after one selection for each of several left texts the question is
    judged correct exactly when the key is a rearrangement of the pairs
    selected. *)
Theorem pbq_match_selections_are_judged_as_pairs
    (q : ExamTypes.Question) (answers : Scoring.AnswerMap) (st0 : View.PbqState)
    (choices : list (string * string)) :
  ExamTypes.q_type q = ExamTypes.pbq_match →
  st0 !! ExamTypes.q_id q = None →
  Scoring.judge q answers (View.submitted st0) = false
  ∧ (choices ≠ [] →
     selections q choices st0 = <[ExamTypes.q_id q := match_entry (chosen choices)]> st0
     ∧ Scoring.judge q answers (View.submitted (selections q choices st0))
       = Scoring.setEq (pair_text <$> map_to_list (chosen choices)) (ExamTypes.q_correct q)
     ∧ (NoDup (fst <$> choices) →
        (Scoring.judge q answers (View.submitted (selections q choices st0)) = true
         ↔ ExamTypes.q_correct q ≡ₚ pair_text <$> choices))).
Proof.
  intros Hty Hnone. split.
  { unfold Scoring.judge. by rewrite Hty, submitted_pairs_entry, Hnone. }
  intros Hne.
  assert (selections q choices st0
          = <[ExamTypes.q_id q := match_entry (chosen choices)]> st0) as Hsel.
  { destruct choices as [|[l r] choices]; [done|].
    unfold selections. cbn [foldl fst snd].
    rewrite (setPair_entry q l r st0 ∅) by (by rewrite Hnone).
    pose proof (selections_entry q choices st0 (<[l := r]> ∅)) as Hrest.
    unfold selections in Hrest. by rewrite Hrest. }
  assert (Scoring.judge q answers (View.submitted (selections q choices st0))
          = Scoring.setEq (pair_text <$> map_to_list (chosen choices))
              (ExamTypes.q_correct q)) as Hjudge.
  { unfold Scoring.judge. rewrite Hty, submitted_pairs_entry, Hsel, lookup_insert_eq. done. }
  split; [exact Hsel|]. split; [exact Hjudge|].
  intros Hnd. rewrite Hjudge, setEq_true_iff, (chosen_distinct choices Hnd).
  split; intros H; by symmetry.
Qed.

Lemma pbq_match_selections_are_judged_as_pairs_witness :
  Scoring.judge ports_match ∅
    (View.submitted
       (selections ports_match [("53", "DNS"); ("22", "SSH"); ("80", "HTTP")] ∅)) = true.
Proof.
  pose proof (pbq_match_selections_are_judged_as_pairs ports_match ∅ ∅
                [("53", "DNS"); ("22", "SSH"); ("80", "HTTP")] eq_refl eq_refl)
    as (_ & Hsel).
  destruct (Hsel ltac:(discriminate)) as (_ & _ & Hiff).
  apply Hiff.
  - apply (bool_decide_unpack _). by vm_compute.
  - apply (bool_decide_unpack _). by vm_compute.
Defined.

(** ** The exam view: the counter of unanswered questions *)
Section Unanswered.
Import ExamTypes Scoring View.

Lemma judged_correct_is_answered (q : Question) (answers : AnswerMap) (st : PbqState) :
  (isPBQ q = false → q_correct q ≠ []) →
  judge q answers (submitted st) = true → unanswered answers st q = false.
Proof.
  intros Hkey. unfold judge, unanswered, isPBQ in *.
  rewrite submitted_order_entry, submitted_pairs_entry.
  destruct (q_type q) eqn:Hty.
  - intros H. apply setEq_true_iff in H. apply bool_decide_eq_false_2.
    intros Hlen. apply (Hkey eq_refl). apply Permutation_length in H.
    rewrite Hlen in H. by destruct (q_correct q).
  - intros H. apply setEq_true_iff in H. apply bool_decide_eq_false_2.
    intros Hlen. apply (Hkey eq_refl). apply Permutation_length in H.
    rewrite Hlen in H. by destruct (q_correct q).
  - destruct (st !! q_id q) as [e|]; [|done]. simpl.
    destruct (View.order e) as [o|]; [|done].
    intros H. apply andb_prop in H as (H & _). by rewrite H.
  - destruct (st !! q_id q) as [e|]; [|done]. simpl.
    destruct (View.pairs e) as [p|]; [|done].
    intros H. apply setEq_true_iff, Permutation_length in H.
    by rewrite bool_decide_eq_true_2.
Qed.

Lemma disjoint_filters {A : Type} (P Q : A → Prop)
    `{∀ x, Decision (P x)} `{∀ x, Decision (Q x)} (l : list A) :
  Forall (λ x, P x → ¬ Q x) l →
  (length (filter P l) + length (filter Q l) ≤ length l)%nat.
Proof.
  induction 1 as [|x l Hx _ IH]; [done|]. rewrite !filter_cons.
  destruct (decide (P x)), (decide (Q x)); simpl; try lia. by destruct Hx.
Qed.
End Unanswered.

(** X27: the counter of unanswered questions and the score.  A question
    that [scoreExam] judges correct is not counted as unanswered, unless it
    is a choice question with an empty key; so in a session without such
    questions the number of correct answers and the number of unanswered
    questions together never exceed the number of questions.  Without a
    session the counter is 0. *)
Theorem unansweredCount_and_correctCount
    (session : ExamTypes.ExamSession) (answers : Scoring.AnswerMap) (st : View.PbqState) :
  Forall (λ q, View.isPBQ q = false → ExamTypes.q_correct q ≠ [])
    (ExamTypes.questions session) →
  let r := Scoring.scoreExam session answers (View.submitted st) in
  View.unansweredCount None answers st = 0%nat
  ∧ (View.unansweredCount (Some session) answers st
     ≤ length (ExamTypes.questions session))%nat
  ∧ Scoring.correctCount r + Z.of_nat (View.unansweredCount (Some session) answers st)
    ≤ Scoring.total r
  ∧ Forall (λ q, Scoring.judge q answers (View.submitted st) = true →
                 View.unanswered answers st q = false) (ExamTypes.questions session).
Proof.
  intros Hkeys r.
  assert (Forall (λ q, Scoring.judge q answers (View.submitted st) = true →
                       View.unanswered answers st q = false)
            (ExamTypes.questions session)) as Hans.
  { eapply Forall_impl; [exact Hkeys|]. intros q Hq.
    by apply judged_correct_is_answered. }
  split; [done|]. split; [apply length_filter|]. split; [|exact Hans].
  pose proof (tally_invariant answers (View.submitted st) (ExamTypes.questions session)
    {| Scoring.t_correctCount := 0; Scoring.t_scored := []; Scoring.t_domainAgg := ∅ |})
    as (Hc & _ & _).
  cbn zeta in Hc. simpl in Hc. rewrite Zsum_indicator in Hc.
  subst r. unfold Scoring.scoreExam. cbn [Scoring.correctCount Scoring.total].
  rewrite Hc. unfold View.unansweredCount.
  pose proof (disjoint_filters
                (λ q, Scoring.judge q answers (View.submitted st) = true)
                (λ q, View.unanswered answers st q = true)
                (ExamTypes.questions session)) as Hdis.
  assert (Forall (λ q, Scoring.judge q answers (View.submitted st) = true →
                       ¬ View.unanswered answers st q = true)
            (ExamTypes.questions session)) as Hno.
  { eapply Forall_impl; [exact Hans|]. intros q Hq Hj. rewrite (Hq Hj). done. }
  specialize (Hdis Hno). lia.
Qed.

Lemma unansweredCount_and_correctCount_witness :
  Scoring.correctCount (Scoring.scoreExam (session_of [sample_choice; sample_order]) ∅
                          (View.submitted ∅))
  + Z.of_nat (View.unansweredCount (Some (session_of [sample_choice; sample_order])) ∅ ∅)
  ≤ Scoring.total (Scoring.scoreExam (session_of [sample_choice; sample_order]) ∅
                     (View.submitted ∅)).
Proof.
  apply (unansweredCount_and_correctCount (session_of [sample_choice; sample_order]) ∅ ∅).
  repeat constructor; simpl; discriminate.
Defined.

(** ** The plan builder and the catalogue *)
Section PlanCatalogue.
Import Text Objectives ExamTypes Planner.
Variable OBJECTIVES : CoreId → list (string * ObjectiveMeta).
Variable source : nat → Q.

Lemma planItem_described (core : CoreId) (d : DomainBlueprint) (ids : list string)
    (k k' : nat) (p : QuestionPlanItem) :
  planItem OBJECTIVES core d ids source k = Some (p, k') → described OBJECTIVES core p.
Proof.
  unfold planItem. intros H. apply bind_inv in H as (objId & k1 & _ & H).
  by injection H as <- _.
Qed.

Lemma planDomain_described (core : CoreId) (d : DomainBlueprint) (ids : list string)
    (count : nat) (plan plan' : list QuestionPlanItem) (k k' : nat) :
  planDomain OBJECTIVES core d ids count plan source k = Some (plan', k') →
  Forall (described OBJECTIVES core) plan → Forall (described OBJECTIVES core) plan'.
Proof.
  revert plan k. induction count as [|count IH]; intros plan k; simpl.
  - by intros [= <- _].
  - intros H Hall. apply bind_inv in H as (p & k1 & Hp & H).
    apply planItem_described in Hp. apply IH in H; [done|].
    apply Forall_app. split; [done|]. by constructor.
Qed.

Lemma planDomains_described (core : CoreId) (allocation : gmap string Z)
    (bp : list DomainBlueprint) (plan plan' : list QuestionPlanItem) (k k' : nat) :
  planDomains OBJECTIVES core allocation bp plan source k = Some (plan', k') →
  Forall (described OBJECTIVES core) plan → Forall (described OBJECTIVES core) plan'.
Proof.
  revert plan k. induction bp as [|d bp IH]; intros plan k; simpl.
  - by intros [= <- _].
  - intros H Hall. apply bind_inv in H as (plan1 & k1 & H1 & H).
    apply planDomain_described in H1; [|done]. by apply IH in H.
Qed.

Lemma same_items_described (core : CoreId) (plan plan' : list QuestionPlanItem) :
  same_items plan plan' →
  Forall (described OBJECTIVES core) plan → Forall (described OBJECTIVES core) plan'.
Proof.
  induction 1 as [|p p' l l' [t ->] _ IH]; intros Hall; [constructor|].
  inversion_clear Hall as [|? ? Hp Hl]. constructor; [|by apply IH]. exact Hp.
Qed.

Lemma split_head_again (c : ascii) (s t : string) :
  split_head c (split_head c s +:+ String c t) = split_head c s.
Proof.
  induction s as [|a s IH]; simpl.
  - by rewrite Ascii.eqb_refl.
  - destruct (Ascii.eqb a c) eqn:E; simpl; [by rewrite Ascii.eqb_refl|].
    by rewrite E, IH.
Qed.

(** An id that is listed for a domain is listed in the catalogue, and the
    catalogue has its metadata. *)
Lemma listed_has_meta (core : CoreId) (d id : string) :
  id ∈ listObjectivesByDomain OBJECTIVES core d →
  objectiveDomainNumber id = d ∧ is_Some (getObjectiveMeta OBJECTIVES core id).
Proof.
  unfold listObjectivesByDomain, listObjectiveIds, getObjectiveMeta.
  intros H. apply list_elem_of_filter in H as (Hd & Hin). split; [done|].
  apply list_elem_of_fmap in Hin as (e & -> & He).
  destruct (list_find (λ e', fst e' = fst e) (OBJECTIVES core)) as [hit|] eqn:Hfind;
    [by eexists|].
  apply list_find_None in Hfind. rewrite Forall_forall in Hfind.
  by destruct (Hfind e He).
Qed.

Lemma meta_is_listed (core : CoreId) (id : string) (meta : ObjectiveMeta) :
  getObjectiveMeta OBJECTIVES core id = Some meta →
  id ∈ listObjectivesByDomain OBJECTIVES core (objectiveDomainNumber id).
Proof.
  unfold listObjectivesByDomain, listObjectiveIds, getObjectiveMeta.
  destruct (list_find _ _) as [[i [id' m]]|] eqn:Hfind; [|done]. intros _.
  apply list_find_Some in Hfind as (Hi & Hid & _). simpl in Hid. subst id'.
  apply list_elem_of_filter. split; [done|].
  apply list_elem_of_fmap. exists (id, m). split; [done|].
  by eapply list_elem_of_lookup_2.
Qed.
End PlanCatalogue.

Lemma blueprint_domain_numbers (core : Objectives.CoreId) (d : Planner.DomainBlueprint) :
  d ∈ blueprint_of core →
  Text.split_head "." (Planner.domainNumber d) +:+ ".0" = Planner.domainNumber d.
Proof.
  intros Hd. destruct core; simpl in Hd;
    repeat (apply elem_of_cons in Hd as [->|Hd]; [done|]); by apply elem_of_nil in Hd.
Qed.

(** X28: the plan and the catalogue.  For every item of a plan the domain
    number read off its objective id is the domain number of the item.  If
    the catalogue has the objective, the item carries the title and the
    bullets of the catalogue and the objective is one of those listed for the
    domain; if not, the domain has no objective in the catalogue, and the
    item carries the title [Objective <id>] and no bullets. *)
Theorem buildPlan_items_come_from_the_catalogue
    (OBJECTIVES : Objectives.CoreId → list (string * Objectives.ObjectiveMeta))
    (source : nat → Q) (core : Objectives.CoreId) (config : ExamTypes.SessionConfig)
    (k : nat) :
  (∀ k, (0 <= source k)%Q ∧ (source k < 1)%Q) →
  ∃ plan k',
    Planner.buildPlan OBJECTIVES core config source k = Some (plan, k')
    ∧ Forall (λ p,
        Objectives.objectiveDomainNumber (Planner.p_objectiveId p) = Planner.p_domainNumber p
        ∧ match Objectives.getObjectiveMeta OBJECTIVES core (Planner.p_objectiveId p) with
          | Some meta =>
              Planner.p_objectiveTitle p = Objectives.meta_title meta
              ∧ Planner.p_objectiveBullets p = Objectives.meta_bullets meta
              ∧ Planner.p_objectiveId p
                ∈ Objectives.listObjectivesByDomain OBJECTIVES core (Planner.p_domainNumber p)
          | None =>
              Planner.p_objectiveTitle p = "Objective " +:+ Planner.p_objectiveId p
              ∧ Planner.p_objectiveBullets p = []
              ∧ Objectives.listObjectivesByDomain OBJECTIVES core (Planner.p_domainNumber p)
                = []
          end) plan.
Proof.
  intros Hsrc. unfold Planner.buildPlan.
  change (match core with
          | Objectives.Core_220_1201 => Planner.CORE1_BLUEPRINT
          | Objectives.Core_220_1202 => Planner.CORE2_BLUEPRINT
          end) with (blueprint_of core).
  rewrite allocation_of_core.
  destruct (planDomains_ok OBJECTIVES source Hsrc core (allocation_of core)
              (blueprint_of core) (blueprint_of core) [] k)
    as (plan0 & k0 & H0 & Hlen0 & Hall0); [done|].
  rewrite (bind_Some source _ _ _ _ _ H0). simpl app in *.
  pose proof (planDomains_described OBJECTIVES source core _ _ _ _ _ _ H0 (Forall_nil_2 _))
    as Hdesc0.
  assert (length plan0 = 90%nat) as Hlen.
  { rewrite Hlen0. by destruct core. }
  cbv zeta. fold (clamped config). rewrite (proj1 (passes_clamped config)).
  destruct (injectPBQs_ok source Hsrc (injections config) plan0 k0)
    as (plan1 & k1 & H1 & Hs1); [by intros ->|].
  rewrite (bind_Some source _ _ _ _ _ H1).
  pose proof (same_items_length _ _ Hs1) as Hlen1.
  set (multiCount := Z.to_nat (Z.min 10 _)).
  destruct (sprinkleMulti_ok source Hsrc multiCount plan1 k1)
    as (plan2 & k2 & H2 & Hs2); [intros ->; simpl in Hlen1; lia|].
  rewrite (bind_Some source _ _ _ _ _ H2).
  eexists _, _. split; [reflexivity|]. apply Forall_take.
  pose proof (same_items_described OBJECTIVES core _ _ Hs2
                (same_items_described OBJECTIVES core _ _ Hs1 Hdesc0)) as Hdesc.
  pose proof (same_items_blueprint OBJECTIVES core (blueprint_of core) _ _ Hs2
                (same_items_blueprint OBJECTIVES core (blueprint_of core) _ _ Hs1 Hall0))
    as Hitems.
  apply Forall_forall. intros p Hp.
  rewrite Forall_forall in Hdesc, Hitems.
  destruct (Hdesc p Hp) as (Htitle & Hbullets).
  destruct (Hitems p Hp) as (d & Hd & Hnum & _ & Hobj). cbn zeta in Hobj.
  rewrite Hnum.
  destruct Hobj as [Hlisted|(Hempty & Hid)].
  - destruct (listed_has_meta OBJECTIVES core _ _ Hlisted) as (Hdom & [meta Hmeta]).
    split; [done|]. rewrite Hmeta in Htitle, Hbullets |- *. done.
  - assert (Objectives.objectiveDomainNumber (Planner.p_objectiveId p)
            = Planner.domainNumber d) as Hdom.
    { rewrite Hid. unfold Objectives.objectiveDomainNumber.
      rewrite (split_head_again "." (Planner.domainNumber d) "1").
      by apply (blueprint_domain_numbers core). }
    split; [done|].
    destruct (Objectives.getObjectiveMeta OBJECTIVES core (Planner.p_objectiveId p))
      as [meta|] eqn:Hmeta; [|done].
    apply meta_is_listed in Hmeta. rewrite Hdom, Hempty in Hmeta.
    by apply elem_of_nil in Hmeta.
Qed.

Lemma buildPlan_items_come_from_the_catalogue_witness :
  ∃ plan k',
    Planner.buildPlan small_catalogue Objectives.Core_220_1201 default_config
      (λ _, 1 # 2)%Q 0%nat = Some (plan, k')
    ∧ Forall (λ p, Objectives.objectiveDomainNumber (Planner.p_objectiveId p)
                   = Planner.p_domainNumber p) plan.
Proof.
  destruct (buildPlan_items_come_from_the_catalogue small_catalogue (λ _, 1 # 2)%Q
              Objectives.Core_220_1201 default_config 0%nat) as (plan & k' & Hp & Hall).
  { intros _. split; reflexivity || discriminate. }
  exists plan, k'. split; [exact Hp|].
  eapply Forall_impl; [exact Hall|]. by intros p [? _].
Defined.

(** ** The coverage of objectives *)
Section CoverageFacts.
Import ExamTypes Scoring Coverage.
Variable result : ExamResult.

Ltac same_pair :=
  match goal with
  | |- Some (?a, ?b) = Some (?c, ?d) =>
      let H1 := fresh in
      let H2 := fresh in
      assert (a = c) as H1 by lia; assert (b = d) as H2 by lia;
      exact (f_equal Some (f_equal2 pair H1 H2))
  end.

Lemma count_tally (agg : gmap string ObjectiveAgg) (q : Question) (o : string) :
  tally_of <$> (count result agg q !! o)
  = if decide (q_objective q = o)
    then let t := default (0, 0) (tally_of <$> agg !! o) in
         Some (fst t + 1, snd t + (if ok result q then 0 else 1))
    else tally_of <$> agg !! o.
Proof.
  unfold count. destruct (decide (q_objective q = o)) as [->|Hne].
  - rewrite lookup_insert_eq. cbn zeta.
    destruct (agg !! o) as [e|]; destruct (ok result q); simpl;
      unfold tally_of; simpl; same_pair.
  - by rewrite lookup_insert_ne.
Qed.

Lemma fold_tally (qs : list Question) (agg : gmap string ObjectiveAgg) (o : string) :
  tally_of <$> (foldl (count result) agg qs !! o)
  = if decide (of_objective o qs = []) then tally_of <$> agg !! o
    else let t := default (0, 0) (tally_of <$> agg !! o) in
         Some (fst t + Z.of_nat (length (of_objective o qs)),
               snd t + Z.of_nat (length (missed_of result o qs))).
Proof.
  revert agg. induction qs as [|q qs IH]; intros agg; [done|].
  cbn [foldl]. rewrite IH, count_tally.
  unfold missed_of, of_objective. rewrite (filter_cons _ q qs).
  destruct (decide (q_objective q = o)) as [Hq|Hq]; [|done].
  rewrite (decide_False (P := _ :: _ = [])) by done.
  cbn zeta. cbn [default from_option fst snd]. rewrite filter_cons.
  destruct (decide (filter (λ q0, q_objective q0 = o) qs = [])) as [E|E].
  - rewrite E. simpl. destruct (ok result q) eqn:J.
    + rewrite decide_False by done. simpl. cbv [id]. cbn [fst snd]. same_pair.
    + rewrite decide_True by done. simpl. cbv [id]. cbn [fst snd]. same_pair.
  - destruct (ok result q) eqn:J.
    + rewrite decide_False by done. simpl length. cbv [id]. cbn [fst snd].
      rewrite Nat2Z.inj_succ. same_pair.
    + rewrite decide_True by done. simpl length. cbv [id]. cbn [fst snd].
      rewrite !Nat2Z.inj_succ. same_pair.
Qed.

Lemma coverage_entry (session : ExamSession) (o : string) (e : ObjectiveAgg) :
  coverage_agg session result !! o = Some e →
  of_objective o (questions session) ≠ []
  ∧ total e = Z.of_nat (length (of_objective o (questions session)))
  ∧ missed e = Z.of_nat (length (missed_of result o (questions session))).
Proof.
  intros He. pose proof (fold_tally (questions session) ∅ o) as Ht.
  fold (coverage_agg session result) in Ht. rewrite He, lookup_empty in Ht.
  destruct (decide _) as [|Hne]; [done|]. cbn in Ht.
  injection Ht as Ht Hm. split; [done|]. split; lia.
Qed.

Lemma coverage_has_entry (session : ExamSession) (q : Question) :
  q ∈ questions session →
  is_Some (coverage_agg session result !! q_objective q).
Proof.
  intros Hq. pose proof (fold_tally (questions session) ∅ (q_objective q)) as Ht.
  fold (coverage_agg session result) in Ht.
  rewrite decide_False in Ht.
  - destruct (coverage_agg session result !! q_objective q); [by eexists|done].
  - intros E. assert (q ∈ of_objective (q_objective q) (questions session)) as Hin
      by (by apply list_elem_of_filter).
    rewrite E in Hin. by apply elem_of_nil in Hin.
Qed.

Lemma filter_length_all {A : Type} (P : A → Prop) `{∀ x, Decision (P x)} (l : list A) :
  length (filter P l) = length l ↔ Forall P l.
Proof.
  induction l as [|x l IH]; [by split; [constructor|]|].
  rewrite filter_cons, Forall_cons. destruct (decide (P x)) as [HP|HP]; simpl.
  - rewrite <- IH. split; [intros [= ?]; by split|intros [_ ->]; done].
  - pose proof (length_filter P l). split; [lia|]. by intros [? _].
Qed.
End CoverageFacts.

Section CoverageScore.
Import ExamTypes Scoring Coverage.

(** With distinct question ids the verdict [ObjectiveCoverage] finds for
    a question is the verdict of [scoreExam] on it. *)
Lemma ok_scoreExam (session : ExamSession) (answers : AnswerMap)
    (pbqState : option (gmap string PbqAnswer)) (q : Question) :
  NoDup (q_id <$> questions session) → q ∈ questions session →
  ok (scoreExam session answers pbqState) q = judge q answers pbqState.
Proof.
  intros Hnd Hq. unfold ok. rewrite scoreExam_scored, list_find_fmap.
  apply list_elem_of_lookup in Hq as [j Hj].
  destruct (list_find _ (questions session)) as [[i q']|] eqn:Hfind; simpl.
  - apply list_find_Some in Hfind as (Hi & Hid & _). simpl in Hid.
    assert (i = j) as ->.
    { eapply (NoDup_lookup _ _ _ (q_id q) Hnd); rewrite list_lookup_fmap.
      - by rewrite Hi, <- Hid.
      - by rewrite Hj. }
    by replace q' with q by congruence.
  - apply list_find_None in Hfind. rewrite Forall_forall in Hfind.
    destruct (Hfind q); [by eapply list_elem_of_lookup_2|done].
Qed.
End CoverageScore.

Section CoverageRows.
Import ExamTypes Scoring Coverage.
Variables (session : ExamSession) (result : ExamResult).

Let entries := filter (λ e : string * ObjectiveAgg, 0 < missed (snd e))
                 (map_to_list (coverage_agg session result)).
Let sorted := Planner.Array_sort byMissed entries.

Lemma sorted_entries : sorted ≡ₚ entries.
Proof. apply (Array_sort_perm (λ e : string * ObjectiveAgg, inject_Z (missed (snd e)))). Qed.

Lemma entry_listed (o : string) (e : ObjectiveAgg) :
  (o, e) ∈ entries ↔ coverage_agg session result !! o = Some e ∧ 0 < missed e.
Proof.
  unfold entries. rewrite list_elem_of_filter, elem_of_map_to_list. simpl. tauto.
Qed.

Lemma coverage_descending :
  StronglySorted (λ a b : string * ObjectiveAgg, missed (snd b) ≤ missed (snd a)) sorted.
Proof.
  eapply StronglySorted_weaken;
    [|apply (Array_sort_stable (λ e : string * ObjectiveAgg, inject_Z (missed (snd e))))].
  intros a b H%ranks_before_measure. by rewrite Zle_Qle.
Qed.

Lemma sorted_keys : NoDup (fst <$> sorted).
Proof.
  rewrite sorted_entries.
  apply (sublist_NoDup _ (fst <$> map_to_list (coverage_agg session result))).
  - apply NoDup_fst_map_to_list.
  - apply fmap_sublist, sublist_filter.
Qed.

Lemma missed_entry (o : string) :
  missed_of result o (questions session) ≠ [] →
  ∃ e, (o, e) ∈ sorted
       ∧ missed e = Z.of_nat (length (missed_of result o (questions session))).
Proof.
  intros Hm.
  destruct (missed_of result o (questions session)) as [|q l] eqn:E; [done|].
  assert (q ∈ missed_of result o (questions session)) as Hq by (rewrite E; left).
  unfold missed_of, of_objective in Hq.
  apply list_elem_of_filter in Hq as (_ & Hq). apply list_elem_of_filter in Hq as (Ho & Hq).
  destruct (coverage_has_entry result session q Hq) as [e He]. rewrite Ho in He.
  destruct (coverage_entry result session o e He) as (_ & _ & Hme).
  exists e. rewrite E in Hme. split; [|done].
  rewrite sorted_entries. apply entry_listed. split; [done|]. rewrite Hme. simpl. lia.
Qed.

Lemma rows_entry (o : string) (e : ObjectiveAgg) :
  (o, e) ∈ missedObjectives session result →
  total e = Z.of_nat (length (of_objective o (questions session)))
  ∧ missed e = Z.of_nat (length (missed_of result o (questions session)))
  ∧ 0 < missed e ≤ total e.
Proof.
  intros Hin. unfold missedObjectives in Hin. apply (subseteq_take 10) in Hin.
  apply (elem_of_Permutation_proper _ _ _ sorted_entries) in Hin. apply entry_listed in Hin as (He & Hpos).
  destruct (coverage_entry result session o e He) as (_ & Ht & Hm).
  split_and!; [done..|]. rewrite Ht, Hm. apply inj_le, length_filter.
Qed.

Lemma rows_top (o : string) :
  missed_of result o (questions session) ≠ [] →
  o ∉ fst <$> missedObjectives session result →
  length (missedObjectives session result) = 10%nat
  ∧ ∀ r, r ∈ missedObjectives session result →
         Z.of_nat (length (missed_of result o (questions session))) ≤ missed (snd r).
Proof.
  intros Hm Hout. destruct (missed_entry o Hm) as (e & Hin & <-).
  change (missedObjectives session result) with (take 10 sorted) in *.
  rewrite <- (take_drop 10 sorted) in Hin. apply elem_of_app in Hin as [Hin|Hin].
  { destruct Hout. apply list_elem_of_fmap. by exists (o, e). }
  split.
  - rewrite length_take. apply list_elem_of_lookup in Hin as [i Hi].
    apply lookup_lt_Some in Hi. rewrite length_drop in Hi. lia.
  - intros r Hr. pose proof coverage_descending as Hs.
    rewrite <- (take_drop 10 sorted) in Hs.
    by eapply (StronglySorted_app_1_elem_of _ _ _ r (o, e)) in Hs.
Qed.

Lemma rows_none :
  missedObjectives session result = []
  ↔ Forall (λ q, ok result q = true) (questions session).
Proof.
  change (missedObjectives session result) with (take 10 sorted). split.
  - intros Hnil. apply Forall_forall. intros q Hq.
    destruct (ok result q) eqn:J; [done|].
    destruct (missed_entry (q_objective q)) as (e & Hin & _).
    + intros E. assert (q ∈ missed_of result (q_objective q) (questions session)) as Hm
        by (apply list_elem_of_filter; split; [done|by apply list_elem_of_filter]).
      rewrite E in Hm. by apply elem_of_nil in Hm.
    + destruct sorted; [by apply elem_of_nil in Hin|done].
  - intros Hall.
    assert (entries = []) as E.
    { apply filter_none, Forall_forall. intros [o e] Hin%elem_of_map_to_list. simpl.
      destruct (coverage_entry result session o e Hin) as (_ & _ & ->).
      unfold missed_of. rewrite filter_none; [simpl; lia|].
      apply Forall_forall. intros q Hq%list_elem_of_filter.
      rewrite Forall_forall in Hall. rewrite (Hall q); [done|tauto]. }
    unfold sorted. by rewrite E.
Qed.
End CoverageRows.

(** X29: the objective coverage of the results screen.  In a session whose
    objectives are no names inherited from [Object.prototype], the list shows
    at most ten objectives, each once and in descending order of the number
    of missed questions.  The [total] of a row is the number of questions of
    its objective, its [missed] the number of them that [result.scored] does
    not mark correct, with [0 < missed <= total].  An objective with a missed
    question is left out only when ten rows are shown, and none of these has
    fewer misses.  The note that nothing was missed is shown exactly when
    every question of the session is found marked correct. *)
Theorem ObjectiveCoverage_lists_the_most_missed
    (session : ExamTypes.ExamSession) (result : Scoring.ExamResult) :
  own_objectives session →
  let rows := Coverage.missedObjectives session result in
  let qs := ExamTypes.questions session in
  (length rows ≤ 10)%nat
  ∧ NoDup (fst <$> rows)
  ∧ StronglySorted (λ a b, Coverage.missed (snd b) ≤ Coverage.missed (snd a)) rows
  ∧ (∀ o e, (o, e) ∈ rows →
       Coverage.total e = Z.of_nat (length (of_objective o qs))
       ∧ Coverage.missed e = Z.of_nat (length (missed_of result o qs))
       ∧ 0 < Coverage.missed e ≤ Coverage.total e)
  ∧ (∀ o, missed_of result o qs ≠ [] → o ∉ fst <$> rows →
       length rows = 10%nat
       ∧ ∀ r, r ∈ rows → Z.of_nat (length (missed_of result o qs)) ≤ Coverage.missed (snd r))
  ∧ (Coverage.ObjectiveCoverage session result = Coverage.Excellent
     ↔ Forall (λ q, Coverage.ok result q = true) qs).
Proof.
  intros _ rows qs. split_and!.
  - subst rows. unfold Coverage.missedObjectives. rewrite length_take. lia.
  - apply (sublist_NoDup _ (fst <$> Planner.Array_sort Coverage.byMissed
             (filter (λ e : string * Coverage.ObjectiveAgg, 0 < Coverage.missed (snd e))
                (map_to_list (coverage_agg session result))))).
    + apply sorted_keys.
    + apply fmap_sublist, sublist_take.
  - pose proof (coverage_descending session result) as Hs.
    rewrite <- (take_drop 10) in Hs. by apply StronglySorted_app_1_l in Hs.
  - apply rows_entry.
  - apply rows_top.
  - subst rows qs. rewrite <- rows_none. unfold Coverage.ObjectiveCoverage.
    by destruct (Coverage.missedObjectives session result).
Qed.

Lemma ObjectiveCoverage_lists_the_most_missed_witness :
  Coverage.ObjectiveCoverage (session_of [sample_choice; sample_order])
    (Scoring.scoreExam (session_of [sample_choice; sample_order]) ∅ None)
  ≠ Coverage.Excellent.
Proof.
  intros H.
  apply (ObjectiveCoverage_lists_the_most_missed
           (session_of [sample_choice; sample_order])) in H.
  - apply Forall_inv in H. vm_compute in H. discriminate H.
  - repeat constructor; vm_compute; intros H';
      repeat (apply elem_of_cons in H' as [H'|H']; [discriminate|]);
      by apply elem_of_nil in H'.
Defined.

(** ** The objective coverage of a scored attempt *)
Section CoverageOfScore.
Import ExamTypes Scoring Coverage.
Variables (session : ExamSession) (answers : AnswerMap)
  (pbqState : option (gmap string PbqAnswer)).

Lemma scoreExam_correctCount :
  correctCount (scoreExam session answers pbqState)
  = Z.of_nat (length (filter (λ q, judge q answers pbqState = true) (questions session))).
Proof.
  pose proof (tally_invariant answers pbqState (questions session)
    {| t_correctCount := 0; t_scored := []; t_domainAgg := ∅ |}) as (Hc & _ & _).
  cbn zeta in Hc. simpl in Hc.
  unfold scoreExam. simpl. by rewrite Hc, Zsum_indicator.
Qed.

Lemma filter_agree {A : Type} (P Q : A → Prop)
    `{∀ x, Decision (P x)} `{∀ x, Decision (Q x)} (l : list A) :
  Forall (λ x, P x ↔ Q x) l → filter P l = filter Q l.
Proof.
  induction 1 as [|x l Hx _ IH]; [done|]. rewrite !filter_cons, IH.
  destruct (decide (P x)), (decide (Q x)); tauto.
Qed.

Lemma missed_of_scoreExam (o : string) :
  NoDup (q_id <$> questions session) →
  missed_of (scoreExam session answers pbqState) o (questions session)
  = filter (λ q, judge q answers pbqState = false) (of_objective o (questions session)).
Proof.
  intros Hnd. unfold missed_of. apply filter_agree, Forall_forall.
  intros q (_ & Hq)%list_elem_of_filter. by rewrite (ok_scoreExam session answers pbqState q Hnd Hq).
Qed.
End CoverageOfScore.

(** X30: the objective coverage of the attempt that [scoreExam] scored,
    for a session with distinct question ids whose objectives are no names
    inherited from [Object.prototype].  The [missed] counter of a row is the
    number of questions of its objective that [scoreExam] judged wrong, and
    the note that nothing was missed is shown exactly when [correctCount]
    equals [total], that is, at a full score. *)
Theorem ObjectiveCoverage_of_scoreExam
    (session : ExamTypes.ExamSession) (answers : Scoring.AnswerMap)
    (pbqState : option (gmap string Scoring.PbqAnswer)) :
  own_objectives session →
  NoDup (ExamTypes.q_id <$> ExamTypes.questions session) →
  let result := Scoring.scoreExam session answers pbqState in
  let qs := ExamTypes.questions session in
  (∀ o e, (o, e) ∈ Coverage.missedObjectives session result →
     Coverage.missed e
     = Z.of_nat (length (filter (λ q, Scoring.judge q answers pbqState = false)
                           (of_objective o qs))))
  ∧ (Coverage.ObjectiveCoverage session result = Coverage.Excellent
     ↔ Scoring.correctCount result = Scoring.total result).
Proof.
  intros _ Hnd result qs. split.
  - intros o e Hin. apply rows_entry in Hin as (_ & -> & _).
    subst result qs. by rewrite missed_of_scoreExam.
  - subst result qs.
    destruct (scoreExam_count_bounds session answers pbqState) as (-> & _).
    rewrite scoreExam_correctCount, Nat2Z.inj_iff, filter_length_all.
    transitivity (Coverage.missedObjectives session
                    (Scoring.scoreExam session answers pbqState) = []).
    + unfold Coverage.ObjectiveCoverage.
      by destruct (Coverage.missedObjectives _ _).
    + rewrite rows_none, !Forall_forall. split; intros Hall q Hq.
      * rewrite <- (ok_scoreExam session answers pbqState q Hnd Hq). by apply Hall.
      * rewrite (ok_scoreExam session answers pbqState q Hnd Hq). by apply Hall.
Qed.

Lemma ObjectiveCoverage_of_scoreExam_witness :
  Coverage.ObjectiveCoverage (session_of [sample_choice])
    (Scoring.scoreExam (session_of [sample_choice]) ∅ None)
  ≠ Coverage.Excellent.
Proof.
  intros H.
  apply (ObjectiveCoverage_of_scoreExam (session_of [sample_choice]) ∅ None) in H.
  - vm_compute in H. discriminate H.
  - repeat constructor; vm_compute; intros H';
      repeat (apply elem_of_cons in H' as [H'|H']; [discriminate|]);
      by apply elem_of_nil in H'.
  - repeat constructor. intros H'. by apply elem_of_nil in H'.
Defined.
